(** * OccupEye cache facade

    A shallow embedding of [backend/uclapi/workspaces/occupeye.py]: the
    [OccupEyeApi] class, the Redis commands it issues, the upstream HTTP
    endpoints it consumes and the Python built-ins it relies on.

    Conventions of the embedding.
    - A Python [str] is a [string] whose characters are code points below
      256 (Latin-1).
    - The wall clock is a rational number of seconds; one call of a public
      method observes one clock reading. [get_image_at] is [get_image] with
      an instant of its own for each of its round trips.
    - The instance attributes, the Redis database, the clock, the upstream
      service and two logs (HTTP requests sent, round trips made to Redis)
      make up the [World]; methods are state transformers that return or
      raise. *)

From Stdlib Require Import ZArith QArith Lqa Ascii String DecimalString DecimalZ.
From stdpp Require Import gmap strings list sorting.

Open Scope string_scope.
Open Scope list_scope.
Open Scope Z_scope.

(** ** Python built-ins used by the source *)

Module Py.

(** [c.isdigit()] for one character: the decimal digits and, in Latin-1,
    the superscripts two, three and one. *)
Definition char_isdigit (c : ascii) : bool :=
  let n := N_of_ascii c in
  ((48 <=? n)%N && (n <=? 57)%N) || (n =? 178)%N || (n =? 179)%N || (n =? 185)%N.

(** [c.isdecimal()] for one Latin-1 character: the decimal digits [0] to
    [9] and nothing else. *)
Definition char_isdecimal (c : ascii) : bool :=
  let n := N_of_ascii c in (48 <=? n)%N && (n <=? 57)%N.

(** [s.isdigit()]: at least one character, and all of them digits. *)
Definition isdigit (s : string) : bool :=
  match s with
  | EmptyString => false
  | _ => forallb char_isdigit (list_ascii_of_string s)
  end.

(** [c.lower()] for one Latin-1 character. *)
Definition char_lower (c : ascii) : ascii :=
  let n := N_of_ascii c in
  if ((65 <=? n)%N && (n <=? 90)%N)
     || ((192 <=? n)%N && (n <=? 222)%N && negb (n =? 215)%N)
  then ascii_of_N (n + 32) else c.

Fixpoint lower (s : string) : string :=
  match s with
  | EmptyString => EmptyString
  | String c s' => String (char_lower c) (lower s')
  end.

(** [str(n)] for an [int]. *)
Definition str_of_int (z : Z) : string := NilZero.string_of_int (Z.to_int z).

(** [int(s)] for a [str]: an optional minus sign followed by decimal
    digits, which is the form [str_of_int] writes; [None] stands for
    [ValueError]. The other spellings Python reads as integers (a plus
    sign, surrounding blanks, underscores between digits) are not among the
    values the class stores, and are read as errors here. *)
Definition int_of_str (s : string) : option Z :=
  option_map Z.of_int (NilZero.int_of_string s).

(** [str(b)] for a [bool], which is how the Redis client encodes it. *)
Definition str_of_bool (b : bool) : string := if b then "True" else "False".

(** [int(x)] for a [float]: truncation towards zero. *)
Definition int_of_float (x : Q) : Z := Z.quot (Qnum x) (Z.pos (Qden x)).

(** Truthiness of a [str] and of an optional [str]. *)
Definition truthy (s : string) : bool :=
  match s with EmptyString => false | _ => true end.

Definition truthy_opt (o : option string) : bool :=
  match o with Some s => truthy s | None => false end.

(** [base64.b64encode]. *)
Definition b64_alphabet : string :=
  "ABCDEFGHIJKLMNOPQRSTUVWXYZabcdefghijklmnopqrstuvwxyz0123456789+/".

Definition b64_char (n : N) : ascii :=
  match String.get (N.to_nat n) b64_alphabet with
  | Some c => c
  | None => "="%char
  end.

Fixpoint b64encode (bs : list Byte.byte) : string :=
  match bs with
  | [] => ""
  | [a] =>
      let n := (Byte.to_N a * 65536)%N in
      String (b64_char (n / 262144)%N)
        (String (b64_char ((n / 4096) mod 64)%N) "==")
  | [a; b] =>
      let n := (Byte.to_N a * 65536 + Byte.to_N b * 256)%N in
      String (b64_char (n / 262144)%N)
        (String (b64_char ((n / 4096) mod 64)%N)
           (String (b64_char ((n / 64) mod 64)%N) "="))
  | a :: b :: c :: rest =>
      let n := (Byte.to_N a * 65536 + Byte.to_N b * 256 + Byte.to_N c)%N in
      String (b64_char (n / 262144)%N)
        (String (b64_char ((n / 4096) mod 64)%N)
           (String (b64_char ((n / 64) mod 64)%N)
              (String (b64_char (n mod 64)%N) (b64encode rest))))
  end.

End Py.

(** ** The Redis commands the class issues *)

Module Redis.

Inductive rvalue :=
| RString (s : string)
| RList (l : list string)
| RHash (h : gmap string string).

(** A stored value and the instant after which it is gone. *)
Record entry := Entry { value : rvalue; expires_at : option Q }.

Definition live (now : Q) (e : entry) : bool :=
  match expires_at e with
  | None => true
  | Some t => Qle_bool now t
  end.

(** What the server sees under key [k] at time [now]. *)
Definition lookup (now : Q) (d : gmap string entry) (k : string) : option entry :=
  match d !! k with
  | Some e => if live now e then Some e else None
  | None => None
  end.

Inductive command :=
| GET (k : string)
| SET (k v : string)
| EXISTS (k : string)
| DEL (k : string)
| EXPIRE (k : string) (seconds : Z)
| LLEN (k : string)
| LRANGE (k : string) (start stop : Z)
| LPUSH (k v : string)
| RPUSH (k v : string)
| HMSET (k : string) (mapping : list (string * string))
| HGETALL (k : string).

Inductive reply :=
| Status_OK
| Integer (n : Z)
| Bulk (s : option string)
| Array (l : list string)
| Dict (h : gmap string string)
| WRONGTYPE.

(** [LRANGE]: both ends inclusive, negative indices count from the end,
    out-of-range ends are clamped. *)
Definition lrange_slice (l : list string) (start stop : Z) : list string :=
  let len := Z.of_nat (length l) in
  let start := if start <? 0 then Z.max 0 (len + start) else start in
  let stop := if stop <? 0 then len + stop else stop in
  let stop := Z.min stop (len - 1) in
  if (stop <? start) || (len <=? start) then []
  else take (Z.to_nat (stop - start + 1)) (drop (Z.to_nat start) l).

Definition hash_update (mapping : list (string * string))
    (h : gmap string string) : gmap string string :=
  foldl (fun acc kv => <[kv.1 := kv.2]> acc) h mapping.

Definition exec (now : Q) (d : gmap string entry) (c : command)
    : gmap string entry * reply :=
  match c with
  | GET k =>
      match lookup now d k with
      | None => (d, Bulk None)
      | Some (Entry (RString s) _) => (d, Bulk (Some s))
      | Some _ => (d, WRONGTYPE)
      end
  | SET k v => (<[k := Entry (RString v) None]> d, Status_OK)
  | EXISTS k =>
      match lookup now d k with
      | None => (d, Integer 0)
      | Some _ => (d, Integer 1)
      end
  | DEL k =>
      match lookup now d k with
      | None => (delete k d, Integer 0)
      | Some _ => (delete k d, Integer 1)
      end
  | EXPIRE k seconds =>
      match lookup now d k with
      | None => (d, Integer 0)
      | Some e =>
          if seconds <=? 0 then (delete k d, Integer 1)
          else (<[k := Entry (value e) (Some (now + inject_Z seconds)%Q)]> d,
                Integer 1)
      end
  | LLEN k =>
      match lookup now d k with
      | None => (d, Integer 0)
      | Some (Entry (RList l) _) => (d, Integer (Z.of_nat (length l)))
      | Some _ => (d, WRONGTYPE)
      end
  | LRANGE k start stop =>
      match lookup now d k with
      | None => (d, Array [])
      | Some (Entry (RList l) _) => (d, Array (lrange_slice l start stop))
      | Some _ => (d, WRONGTYPE)
      end
  | LPUSH k v =>
      match lookup now d k with
      | None => (<[k := Entry (RList [v]) None]> d, Integer 1)
      | Some (Entry (RList l) t) =>
          (<[k := Entry (RList (v :: l)) t]> d, Integer (Z.of_nat (S (length l))))
      | Some _ => (d, WRONGTYPE)
      end
  | RPUSH k v =>
      match lookup now d k with
      | None => (<[k := Entry (RList [v]) None]> d, Integer 1)
      | Some (Entry (RList l) t) =>
          (<[k := Entry (RList (l ++ [v])) t]> d, Integer (Z.of_nat (S (length l))))
      | Some _ => (d, WRONGTYPE)
      end
  | HMSET k mapping =>
      match lookup now d k with
      | None => (<[k := Entry (RHash (hash_update mapping ∅)) None]> d, Status_OK)
      | Some (Entry (RHash h) t) =>
          (<[k := Entry (RHash (hash_update mapping h)) t]> d, Status_OK)
      | Some _ => (d, WRONGTYPE)
      end
  | HGETALL k =>
      match lookup now d k with
      | None => (d, Dict ∅)
      | Some (Entry (RHash h) _) => (d, Dict h)
      | Some _ => (d, WRONGTYPE)
      end
  end.

(** A [MULTI]/[EXEC] batch: every command runs, in order, at one instant;
    a failing command leaves the others in effect. *)
Fixpoint exec_all (now : Q) (d : gmap string entry) (cs : list command)
    : gmap string entry * list reply :=
  match cs with
  | [] => (d, [])
  | c :: cs' =>
      let '(d1, r) := exec now d c in
      let '(d2, rs) := exec_all now d1 cs' in
      (d2, r :: rs)
  end.

Definition is_error (r : reply) : bool :=
  match r with WRONGTYPE => true | _ => false end.

End Redis.

(** ** The upstream service *)

Module Upstream.

(** The JSON bodies, with the fields the class reads. Identifiers are
    integers, [Active] is a boolean; the remaining fields are carried as
    the text the Redis client stores for them. *)
Record token_json := { access_token_field : string; expires_in : Z }.

Record survey_json := {
  SurveyID : Z; Active : bool; Name : string;
  StartTime : string; EndTime : string
}.

Record map_json := { MapID : Z; MapName : string; ImageID : Z }.

Record sensor_json := {
  HardwareID : Z; SensorID : Z;
  LastTriggerType : string; LastTriggerTime : string
}.

Record map_item_json := { item_HardwareID : Z; X : string; Y : string }.

Record image_response := {
  content_type_header : option string;
  content : list Byte.byte
}.

(** One field per endpoint; [None] is a request that fails or a body that
    does not have the expected shape. *)
Record service := {
  token : option token_json;
  surveys : option (list survey_json);
  maps : string -> option (list map_json);
  images : string -> option image_response;
  survey_sensors_latest : string -> option (list sensor_json);
  map_items : string -> option (list map_item_json)
}.

Inductive request :=
| PostToken
| GetSurveys
| GetMaps (survey_id : string)
| GetImage (image_id : string)
| GetSurveySensorsLatest (survey_id : string)
| GetMap (map_id : string).

Definition request_eqb (a b : request) : bool :=
  match a, b with
  | PostToken, PostToken => true
  | GetSurveys, GetSurveys => true
  | GetMaps s, GetMaps s' => String.eqb s s'
  | GetImage i, GetImage i' => String.eqb i i'
  | GetSurveySensorsLatest s, GetSurveySensorsLatest s' => String.eqb s s'
  | GetMap m, GetMap m' => String.eqb m m'
  | _, _ => false
  end.

(** How many times request [q] occurs in a log. *)
Definition count_requests (q : request) (log : list request) : nat :=
  length (List.filter (request_eqb q) log).

End Upstream.

(** ** The class *)

Module OccupEyeApi.
Import Py Redis Upstream.

Inductive exn :=
| BadOccupEyeRequest
| UpstreamError
| ResponseError
| KeyError
| IndexError
| ValueError
| TypeError.

Inductive outcome (A : Type) :=
| Return (a : A)
| Raise (e : exn).
Arguments Return {A} a.
Arguments Raise {A} e.

Record World := {
  access_token : option string;       (* self.access_token *)
  access_token_expiry : option Z;     (* self.access_token_expiry *)
  r : gmap string entry;              (* the database behind self.r *)
  clock : Q;                          (* what time_now() reads *)
  upstream : service;                 (* what requests.get/post reach *)
  sent : list request;                (* HTTP requests, oldest first *)
  executed : list (list command)      (* Redis round trips, oldest first *)
}.

Definition M (A : Type) : Type := World -> outcome A * World.

Definition ret {A} (a : A) : M A := fun w => (Return a, w).
Definition raise {A} (e : exn) : M A := fun w => (Raise e, w).
Definition bind {A B} (m : M A) (k : A -> M B) : M B :=
  fun w =>
    match m w with
    | (Return a, w') => k a w'
    | (Raise e, w') => (Raise e, w')
    end.

Global Instance M_ret : MRet M := @ret.
Global Instance M_bind : MBind M := fun A B k m => bind m k.

(** [for x in xs: acc = body(acc, x)] *)
Fixpoint for_fold {A S} (body : S -> A -> M S) (xs : list A) (acc : S) : M S :=
  match xs with
  | [] => ret acc
  | x :: xs' => acc' ← body acc x; for_fold body xs' acc'
  end.

(** *** Class constants *)

Definition SURVEY_TTL : Z := 86400.
Definition IMAGE_TTL : Z := 172800.
Definition SENSOR_STATUS_TTL : Z := 60.

(** *** Primitive effects *)

Definition time_now : M Q := fun w => (Return (clock w), w).

Definition get_access_token : M (option string) :=
  fun w => (Return (access_token w), w).
Definition get_access_token_expiry : M (option Z) :=
  fun w => (Return (access_token_expiry w), w).

Definition set_access_token (t : option string) : M unit :=
  fun w => (Return tt,
            {| access_token := t; access_token_expiry := access_token_expiry w;
               r := r w; clock := clock w; upstream := upstream w;
               sent := sent w; executed := executed w |}).

Definition set_access_token_expiry (e : option Z) : M unit :=
  fun w => (Return tt,
            {| access_token := access_token w; access_token_expiry := e;
               r := r w; clock := clock w; upstream := upstream w;
               sent := sent w; executed := executed w |}).

(** The world after request [req] has gone out. *)
Definition requested (req : request) (w : World) : World :=
  {| access_token := access_token w;
     access_token_expiry := access_token_expiry w;
     r := r w; clock := clock w; upstream := upstream w;
     sent := sent w ++ [req]; executed := executed w |}.

(** The world after a round trip of commands [cs] that left the database
    as [d]. *)
Definition round_trip (cs : list command) (d : gmap string entry) (w : World)
    : World :=
  {| access_token := access_token w;
     access_token_expiry := access_token_expiry w;
     r := d; clock := clock w; upstream := upstream w;
     sent := sent w; executed := executed w ++ [cs] |}.

(** One HTTP request: it is logged, and answered by the service. *)
Definition http {A} (req : request) (answer : service -> option A) : M A :=
  fun w =>
    match answer (upstream w) with
    | Some a => (Return a, requested req w)
    | None => (Raise UpstreamError, requested req w)
    end.

(** One Redis command sent on its own: a round trip of one command. *)
Definition redis (c : command) : M reply :=
  fun w =>
    let '(d, rep) := exec (clock w) (r w) c in
    if is_error rep then (Raise ResponseError, round_trip [c] d w)
    else (Return rep, round_trip [c] d w).

(** [pipeline.execute()]: the queued commands run as one batch; the
    client raises if one of them failed. Nothing is sent for an empty
    queue. *)
Definition execute (pipeline : list command) : M (list reply) :=
  fun w =>
    if bool_decide (pipeline = []) then (Return [], w) else
    let '(d, reps) := exec_all (clock w) (r w) pipeline in
    if existsb is_error reps then (Raise ResponseError, round_trip pipeline d w)
    else (Return reps, round_trip pipeline d w).

(** The client methods, with the Python value each returns. *)
Definition r_get (k : string) : M (option string) :=
  rep ← redis (GET k);
  match rep with Bulk s => ret s | _ => raise ResponseError end.

Definition r_set (k v : string) : M unit :=
  redis (SET k v);; ret tt.

Definition r_exists (k : string) : M bool :=
  rep ← redis (EXISTS k);
  match rep with Integer n => ret (negb (n =? 0)) | _ => raise ResponseError end.

Definition r_llen (k : string) : M Z :=
  rep ← redis (LLEN k);
  match rep with Integer n => ret n | _ => raise ResponseError end.

Definition r_lrange (k : string) (start stop : Z) : M (list string) :=
  rep ← redis (LRANGE k start stop);
  match rep with Array l => ret l | _ => raise ResponseError end.

Definition r_hgetall (k : string) : M (gmap string string) :=
  rep ← redis (HGETALL k);
  match rep with Dict h => ret h | _ => raise ResponseError end.

(** [d[k]] on a Python dict. *)
Definition getitem (d : gmap string string) (k : string) : M string :=
  match d !! k with Some v => ret v | None => raise KeyError end.

(** [int(s)] *)
Definition int (s : string) : M Z :=
  match int_of_str s with Some z => ret z | None => raise ValueError end.

(** *** Decoding of stored booleans *)

Definition _str2bool (v : string) : bool :=
  bool_decide (lower v ∈ ["yes"; "true"; "t"; "1"]).

(** *** Token manager *)

Definition get_token : M unit :=
  response ← http PostToken token;
  set_access_token (Some (access_token_field response));;
  now ← time_now;
  let expiry := int_of_float now + expires_in response in
  set_access_token_expiry (Some expiry);;
  r_set "occupeye:access_token" (access_token_field response);;
  r_set "occupeye:access_token_expiry" (str_of_int expiry).

Definition token_valid : M bool :=
  tok ← get_access_token;
  if negb (truthy_opt tok) then ret false
  else
    now ← time_now;
    expiry ← get_access_token_expiry;
    match expiry with
    | None => raise TypeError
    | Some e => if negb (Qle_bool now (inject_Z e)) then ret false else ret true
    end.

Definition get_bearer_token : M string :=
  valid ← token_valid;
  (if negb valid then get_token else ret tt);;
  tok ← get_access_token;
  match tok with
  | Some t => ret ("Bearer " +:+ t)
  | None => raise TypeError
  end.

(** Truthiness of an optional [int]. *)
Definition truthy_int_opt (o : option Z) : bool :=
  match o with Some z => negb (z =? 0) | None => false end.

(** [__init__] *)
Definition init (test_mode : bool) : M unit :=
  if test_mode then
    set_access_token None;; set_access_token_expiry None
  else
    tok ← r_get "occupeye:access_token";
    set_access_token tok;;
    expiry ← r_get "occupeye:access_token_expiry";
    match expiry with
    | Some s =>
        if truthy s then e ← int s; set_access_token_expiry (Some e)
        else set_access_token_expiry None
    | None => set_access_token_expiry None
    end;;
    tok ← get_access_token;
    expiry ← get_access_token_expiry;
    if negb (truthy_opt tok) || negb (truthy_int_opt expiry)
    then get_token else ret tt.

(** [try: m except: raise e] *)
Definition try_except_raise {A} (m : M A) (e : exn) : M A :=
  fun w =>
    match m w with
    | (Return a, w') => (Return a, w')
    | (Raise _, w') => (Raise e, w')
    end.

(** *** Cache keys *)

Definition surveys_key : string := "occupeye:surveys".
Definition survey_key (survey_id : string) : string :=
  "occupeye:surveys:" +:+ survey_id.
Definition survey_maps_key (survey_id : string) : string :=
  "occupeye:surveys:" +:+ survey_id +:+ ":maps".
Definition survey_map_key (survey_id map_id : string) : string :=
  "occupeye:surveys:" +:+ survey_id +:+ ":maps:" +:+ map_id.
Definition map_sensors_key (survey_id map_id : string) : string :=
  "occupeye:surveys:" +:+ survey_id +:+ ":maps:" +:+ map_id +:+ ":sensors".
Definition sensor_properties_key (survey_id map_id sensor_id : string) : string :=
  "occupeye:surveys:" +:+ survey_id +:+ ":maps:" +:+ map_id +:+ ":sensors:"
    +:+ sensor_id +:+ ":properties".
Definition first_sensor_status_key (survey_id map_id sensor_id : string) : string :=
  "occupeye:surveys:" +:+ survey_id +:+ ":maps:" +:+ map_id +:+ ":sensors:"
    +:+ sensor_id +:+ ":status".
Definition survey_sensors_key (survey_id : string) : string :=
  "occupeye:surveys:" +:+ survey_id +:+ ":sensors".
Definition sensor_data_key (survey_id hardware_id : string) : string :=
  "occupeye:surveys:" +:+ survey_id +:+ ":sensors:" +:+ hardware_id +:+ ":data".
Definition sensor_status_key (survey_id hardware_id : string) : string :=
  "occupeye:surveys:" +:+ survey_id +:+ ":sensors:" +:+ hardware_id +:+ ":status".
Definition image_base64_key (image_id : string) : string :=
  "occupeye:image:" +:+ image_id +:+ ":base64".
Definition image_content_type_key (image_id : string) : string :=
  "occupeye:image:" +:+ image_id +:+ ":content_type".

(** *** Survey and map populator *)

Definition maps_commands (survey_id : string) (survey_map : map_json)
    : list command :=
  let survey_map_id := survey_map_key survey_id (str_of_int (MapID survey_map)) in
  [ HMSET survey_map_id
      [ ("id", str_of_int (MapID survey_map));
        ("name", MapName survey_map);
        ("image_id", str_of_int (ImageID survey_map)) ];
    RPUSH (survey_maps_key survey_id) (str_of_int (MapID survey_map));
    EXPIRE survey_map_id SURVEY_TTL ].

Definition _cache_maps_for_survey (survey_id : string) : M unit :=
  get_bearer_token;;
  survey_maps_data ← http (GetMaps survey_id) (fun u => maps u survey_id);
  let pipeline :=
    [DEL (survey_maps_key survey_id)]
    ++ flat_map (maps_commands survey_id) survey_maps_data
    ++ [EXPIRE (survey_maps_key survey_id) SURVEY_TTL] in
  execute pipeline;; ret tt.

Definition survey_commands (survey : survey_json) : list command :=
  let key := survey_key (str_of_int (SurveyID survey)) in
  [ HMSET key
      [ ("id", str_of_int (SurveyID survey));
        ("active", str_of_bool (Active survey));
        ("name", Name survey);
        ("start_time", StartTime survey);
        ("end_time", EndTime survey) ];
    EXPIRE key SURVEY_TTL;
    LPUSH surveys_key (str_of_int (SurveyID survey)) ].

(** The body of [for survey in surveys_data]: the survey's commands are
    queued, then its maps are cached. *)
Definition cache_survey (pipeline : list command) (survey : survey_json)
    : M (list command) :=
  let pipeline := pipeline ++ survey_commands survey in
  _cache_maps_for_survey (str_of_int (SurveyID survey));;
  ret pipeline.

Definition _cache_survey_data : M unit :=
  let pipeline := [DEL surveys_key] in
  get_bearer_token;;
  surveys_data ← http GetSurveys surveys;
  pipeline ← for_fold cache_survey surveys_data pipeline;
  execute (pipeline ++ [EXPIRE surveys_key SURVEY_TTL]);; ret tt.

(** *** Read path: surveys *)

Record map_view := { map_id : Z; map_name : string; map_image_id : Z }.

Record survey_view := {
  survey_id : Z; survey_name : string; survey_active : bool;
  survey_start_time : string; survey_end_time : string;
  survey_maps : list map_view
}.

Definition read_map (survey_id survey_map_id : string) : M map_view :=
  survey_map ← r_hgetall (survey_map_key survey_id survey_map_id);
  id ← getitem survey_map "id";
  id ← int id;
  name ← getitem survey_map "name";
  image_id ← getitem survey_map "image_id";
  image_id ← int image_id;
  ret {| map_id := id; map_name := name; map_image_id := image_id |}.

Definition read_survey (survey_id : string) : M survey_view :=
  survey_data ← r_hgetall (survey_key survey_id);
  id ← getitem survey_data "id";
  id ← int id;
  name ← getitem survey_data "name";
  active ← getitem survey_data "active";
  start_time ← getitem survey_data "start_time";
  end_time ← getitem survey_data "end_time";
  n ← r_llen (survey_maps_key survey_id);
  survey_map_ids ← r_lrange (survey_maps_key survey_id) 0 n;
  survey_maps ← for_fold
    (fun survey_maps survey_map_id =>
       m ← read_map survey_id survey_map_id;
       ret (survey_maps ++ [m]))
    survey_map_ids [];
  ret {| survey_id := id; survey_name := name;
         survey_active := _str2bool active;
         survey_start_time := start_time; survey_end_time := end_time;
         survey_maps := survey_maps |}.

Definition get_surveys : M (list survey_view) :=
  n ← r_llen surveys_key;
  (if n =? 0 then _cache_survey_data else ret tt);;
  n ← r_llen surveys_key;
  survey_ids ← r_lrange surveys_key 0 (n - 1);
  for_fold
    (fun surveys survey_id =>
       survey ← read_survey survey_id;
       ret (surveys ++ [survey]))
    survey_ids [].

(** *** Images *)

Definition _cache_image (image_id : string) : M unit :=
  get_bearer_token;;
  '(request, content_type) ← try_except_raise
    (request ← http (GetImage image_id) (fun u => images u image_id);
     match content_type_header request with
     | Some content_type => ret (request, content_type)
     | None => raise KeyError
     end)
    BadOccupEyeRequest;
  let image_b64 := b64encode (content request) in
  execute
    [ SET (image_base64_key image_id) image_b64;
      EXPIRE (image_base64_key image_id) IMAGE_TTL;
      SET (image_content_type_key image_id) content_type;
      EXPIRE (image_content_type_key image_id) IMAGE_TTL ];;
  ret tt.

(** The whole call at one clock reading; [get_image_at] below gives each
    round trip its own instant. *)
Definition get_image (image_id : string) : M (option string * option string) :=
  if negb (isdigit image_id) then raise BadOccupEyeRequest
  else
    cached ← r_exists (image_base64_key image_id);
    (if negb cached then _cache_image image_id else ret tt);;
    image_b64 ← r_get (image_base64_key image_id);
    content_type ← r_get (image_content_type_key image_id);
    ret (image_b64, content_type).

(** The clock has moved to [t]; nothing else has changed. *)
Definition at_instant (t : Q) : M unit :=
  fun w => (Return tt,
            {| access_token := access_token w;
               access_token_expiry := access_token_expiry w;
               r := r w; clock := t; upstream := upstream w;
               sent := sent w; executed := executed w |}).

(** [get_image] with the instants of its round trips. The source makes
    them one after the other: EXISTS is answered at the clock of the world,
    the populator runs at [t1], the first GET is answered at [t2] and the
    second at [t3]. *)
Definition get_image_at (t1 t2 t3 : Q) (image_id : string)
    : M (option string * option string) :=
  if negb (isdigit image_id) then raise BadOccupEyeRequest
  else
    cached ← r_exists (image_base64_key image_id);
    at_instant t1;;
    (if negb cached then _cache_image image_id else ret tt);;
    at_instant t2;;
    image_b64 ← r_get (image_base64_key image_id);
    at_instant t3;;
    content_type ← r_get (image_content_type_key image_id);
    ret (image_b64, content_type).

(** *** Sensor state populator *)

Definition sensor_state_commands (survey_id : string) (sensor_data : sensor_json)
    : list command :=
  let hardware_id := str_of_int (HardwareID sensor_data) in
  [ HMSET (sensor_data_key survey_id hardware_id)
      [ ("hardware_id", hardware_id);
        ("sensor_id", str_of_int (SensorID sensor_data)) ];
    HMSET (sensor_status_key survey_id hardware_id)
      [ ("id", hardware_id);
        ("last_trigger_type", LastTriggerType sensor_data);
        ("last_trigger_timestamp", LastTriggerTime sensor_data) ];
    RPUSH (survey_sensors_key survey_id) hardware_id;
    EXPIRE (sensor_data_key survey_id hardware_id) SURVEY_TTL;
    EXPIRE (sensor_status_key survey_id hardware_id) SENSOR_STATUS_TTL ].

Definition _cache_all_survey_sensor_states (survey_id : string) : M unit :=
  get_bearer_token;;
  all_sensors_data ← http (GetSurveySensorsLatest survey_id)
                       (fun u => survey_sensors_latest u survey_id);
  let pipeline :=
    [DEL (survey_sensors_key survey_id)]
    ++ flat_map (sensor_state_commands survey_id) all_sensors_data
    ++ [EXPIRE (survey_sensors_key survey_id) SURVEY_TTL] in
  execute pipeline;; ret tt.

Definition map_sensor_commands (survey_id map_id : string)
    (map_sensor_data : map_item_json) : list command :=
  let hardware_id := str_of_int (item_HardwareID map_sensor_data) in
  let properties_key := sensor_properties_key survey_id map_id hardware_id in
  [ RPUSH (map_sensors_key survey_id map_id) hardware_id;
    HMSET properties_key
      [ ("id", hardware_id);
        ("x_pos", X map_sensor_data);
        ("y_pos", Y map_sensor_data) ];
    EXPIRE properties_key SURVEY_TTL ].

Definition _cache_sensors_for_map (survey_id map_id : string) : M unit :=
  get_bearer_token;;
  all_map_sensors_data ← http (GetMap map_id) (fun u => map_items u map_id);
  let pipeline :=
    [DEL (map_sensors_key survey_id map_id)]
    ++ flat_map (map_sensor_commands survey_id map_id) all_map_sensors_data
    ++ [EXPIRE (map_sensors_key survey_id map_id) SENSOR_STATUS_TTL] in
  execute pipeline;; ret tt.

(** *** Read path: sensors *)

(** An [OrderedDict] from hardware id to the sensor's fields. *)
Fixpoint odict_set (d : list (string * gmap string string)) (k : string)
    (v : gmap string string) : list (string * gmap string string) :=
  match d with
  | [] => [(k, v)]
  | (k', v') :: d' =>
      if String.eqb k' k then (k, v) :: d' else (k', v') :: odict_set d' k v
  end.

Fixpoint odict_get (d : list (string * gmap string string)) (k : string)
    : option (gmap string string) :=
  match d with
  | [] => None
  | (k', v') :: d' => if String.eqb k' k then Some v' else odict_get d' k
  end.

(** [sensors[key][field] = v] *)
Definition odict_setitem (sensors : list (string * gmap string string))
    (key field v : string) : M (list (string * gmap string string)) :=
  match odict_get sensors key with
  | Some fields => ret (odict_set sensors key (<[field := v]> fields))
  | None => raise KeyError
  end.

Definition as_dict (rep : reply) : M (gmap string string) :=
  match rep with Dict h => ret h | _ => raise ResponseError end.

Record map_sensors_view := {
  map_data : gmap string string;
  sensors : list (string * gmap string string)
}.

(** The body of [for map_id in maps]. *)
Definition get_map_sensors (survey_id : string) (return_states : bool)
    (map_id : string) : M map_sensors_view :=
  n ← r_llen (map_sensors_key survey_id map_id);
  (if n =? 0 then _cache_sensors_for_map survey_id map_id else ret tt);;
  n ← r_llen (map_sensors_key survey_id map_id);
  sensor_hw_ids ← r_lrange (map_sensors_key survey_id map_id) 0 n;
  results ← execute
    (map (fun sensor_id => HGETALL (sensor_properties_key survey_id map_id sensor_id))
         sensor_hw_ids);
  sensors ← for_fold
    (fun sensors result =>
       result ← as_dict result;
       id ← getitem result "id";
       ret (odict_set sensors id result))
    results [];
  sensors ←
    (if return_states then
       match sensor_hw_ids with
       | [] => raise IndexError
       | first :: _ =>
           status ← r_get (first_sensor_status_key survey_id map_id first);
           (if negb (truthy_opt status)
            then _cache_all_survey_sensor_states survey_id else ret tt);;
           results ← execute
             (map (fun sensor_id => HGETALL (sensor_status_key survey_id sensor_id))
                  sensor_hw_ids);
           for_fold
             (fun sensors result =>
                result ← as_dict result;
                if bool_decide (result = ∅) then ret sensors
                else
                  timestamp ← getitem result "last_trigger_timestamp";
                  id ← getitem result "id";
                  sensors ← odict_setitem sensors id "last_trigger_timestamp" timestamp;
                  type ← getitem result "last_trigger_type";
                  id ← getitem result "id";
                  odict_setitem sensors id "last_trigger_type" type)
             results sensors
       end
     else ret sensors);
  map_data ← r_hgetall (survey_map_key survey_id map_id);
  execute [];;
  ret {| map_data := map_data; sensors := sensors |}.

Definition get_survey_sensors (survey_id : string) (return_states : bool)
    : M (list map_sensors_view) :=
  if negb (isdigit survey_id) then raise BadOccupEyeRequest
  else
    n ← r_llen (survey_maps_key survey_id);
    (if n =? 0 then _cache_survey_data else ret tt);;
    n ← r_llen (survey_maps_key survey_id);
    if n =? 0 then raise BadOccupEyeRequest
    else
      n ← r_llen (survey_maps_key survey_id);
      maps ← r_lrange (survey_maps_key survey_id) 0 n;
      for_fold
        (fun data map_id =>
           m ← get_map_sensors survey_id return_states map_id;
           ret (data ++ [m]))
        maps [].

End OccupEyeApi.

(** ** What the statements speak of: key segments, kinds of values,
    credentials, cache contents *)

Module Cache.
Import Py Redis Upstream OccupEyeApi.

Fixpoint no_colon (s : string) : bool :=
  match s with
  | EmptyString => true
  | String c s' => negb (Ascii.eqb c ":") && no_colon s'
  end.

Fixpoint join (segments : list string) : string :=
  match segments with
  | [] => ""
  | [a] => a
  | a :: rest => a +:+ String ":" (join rest)
  end.

Fixpoint split (s : string) : list string :=
  match s with
  | EmptyString => [""]
  | String c s' =>
      if Ascii.eqb c ":" then "" :: split s'
      else match split s' with
           | seg :: rest => String c seg :: rest
           | [] => [String c ""]
           end
  end.

Inductive kind := KString | KList | KHash.

Definition kind_of (v : rvalue) : kind :=
  match v with
  | RString _ => KString
  | RList _ => KList
  | RHash _ => KHash
  end.

Definition kind_eqb (a b : kind) : bool :=
  match a, b with
  | KString, KString | KList, KList | KHash, KHash => true
  | _, _ => false
  end.

(** The kind of value the class keeps under a key, read off the key's
    segments; [None] for a key the class never uses. *)
Definition key_kind (k : string) : option kind :=
  match split k with
  | [a; b] =>
      if String.eqb a "occupeye" then
        if String.eqb b "surveys" then Some KList
        else if String.eqb b "access_token" then Some KString
        else if String.eqb b "access_token_expiry" then Some KString
        else None
      else None
  | [a; b; _] =>
      if String.eqb a "occupeye" && String.eqb b "surveys" then Some KHash
      else None
  | [a; b; _; c] =>
      if String.eqb a "occupeye" then
        if String.eqb b "surveys" then
          if String.eqb c "maps" || String.eqb c "sensors" then Some KList
          else None
        else if String.eqb b "image" then
          if String.eqb c "base64" || String.eqb c "content_type"
          then Some KString else None
        else None
      else None
  | [a; b; _; c; _] =>
      if String.eqb a "occupeye" && String.eqb b "surveys" && String.eqb c "maps"
      then Some KHash else None
  | [a; b; _; c; _; e] =>
      if String.eqb a "occupeye" && String.eqb b "surveys" then
        if String.eqb c "maps" && String.eqb e "sensors" then Some KList
        else if String.eqb c "sensors"
                && (String.eqb e "data" || String.eqb e "status")
        then Some KHash
        else None
      else None
  | [a; b; _; c; _; e; _; g] =>
      if String.eqb a "occupeye" && String.eqb b "surveys"
         && String.eqb c "maps" && String.eqb e "sensors" then
        if String.eqb g "properties" then Some KHash
        else if String.eqb g "status" then Some KString
        else None
      else None
  | _ => None
  end.

Definition key_of (c : command) : string :=
  match c with
  | GET k | SET k _ | EXISTS k | DEL k | EXPIRE k _ | LLEN k
  | LRANGE k _ _ | LPUSH k _ | RPUSH k _ | HMSET k _ | HGETALL k => k
  end.

(** The kind of value a command needs; [None] for a command that works
    on every kind. *)
Definition cmd_kind (c : command) : option kind :=
  match c with
  | GET _ | SET _ _ => Some KString
  | LLEN _ | LRANGE _ _ _ | LPUSH _ _ | RPUSH _ _ => Some KList
  | HMSET _ _ | HGETALL _ => Some KHash
  | EXISTS _ | DEL _ | EXPIRE _ _ => None
  end.

Definition cmd_ok (c : command) : Prop :=
  match cmd_kind c with
  | Some kd => key_kind (key_of c) = Some kd
  | None => True
  end.

(** Every stored value has the kind of its key. *)
Definition well_kinded (d : gmap string entry) : Prop :=
  forall k e kd,
    d !! k = Some e -> key_kind k = Some kd -> kind_of (value e) = kd.

(** *** Credentials *)

(** The instance holds a credential that exists and has not expired. *)
Definition authenticated (w : World) : Prop :=
  exists t e,
    access_token w = Some t /\ t <> ""
    /\ access_token_expiry w = Some e /\ (clock w <= inject_Z e)%Q.

(** [get_bearer_token] can succeed: either the credential held is valid, or
    the token endpoint answers (and a credential that exists comes with an
    expiry to compare the clock with). *)
Definition can_authenticate (w : World) : Prop :=
  authenticated w
  \/ (is_Some (token (upstream w))
      /\ (truthy_opt (access_token w) = true -> is_Some (access_token_expiry w))).

(** What a call of [get_bearer_token] may change. *)
Definition token_frame (w w' : World) : Prop :=
  clock w' = clock w
  /\ upstream w' = upstream w
  /\ (forall k, k <> "occupeye:access_token" ->
                k <> "occupeye:access_token_expiry" ->
                r w' !! k = r w !! k)
  /\ (well_kinded (r w) -> well_kinded (r w'))
  /\ can_authenticate w'.

(** The entry under [k] is set to expire at instant [t]. *)
Definition expires (d : gmap string entry) (k : string) (t : Q) : Prop :=
  exists e, d !! k = Some e /\ expires_at e = Some t.

(** Both records of sensor [s] of survey [survey_id] carry the expiry that
    a state refresh at instant [now] assigns. *)
Definition sensor_expiries (now : Q) (survey_id : string) (s : sensor_json)
    (d : gmap string entry) : Prop :=
  expires d (sensor_status_key survey_id (str_of_int (HardwareID s)))
    (now + inject_Z SENSOR_STATUS_TTL)%Q
  /\ expires d (sensor_data_key survey_id (str_of_int (HardwareID s)))
       (now + inject_Z SURVEY_TTL)%Q.

(** *** What the survey populator leaves in the cache *)

(** The list under [k] reads as [l]; an empty list is an absent key. *)
Definition list_at (now : Q) (d : gmap string entry) (k : string)
    (l : list string) : Prop :=
  match l with
  | [] => lookup now d k = None
  | _ => exists t, lookup now d k = Some (Entry (RList l) t)
  end.

(** The record of map [map_id] of survey [survey_id] can be read back. *)
Definition map_stored (now : Q) (d : gmap string entry)
    (survey_id map_id : string) : Prop :=
  exists h t id name image_id,
    lookup now d (survey_map_key survey_id map_id) = Some (Entry (RHash h) t)
    /\ h !! "id" = Some (str_of_int id)
    /\ h !! "name" = Some name
    /\ h !! "image_id" = Some (str_of_int image_id).

(** The map list of survey [survey_id] and every record it names can be
    read back. *)
Definition maps_stored (now : Q) (d : gmap string entry)
    (survey_id : string) : Prop :=
  exists ids : list Z,
    list_at now d (survey_maps_key survey_id) (map str_of_int ids)
    /\ Forall (fun i => map_stored now d survey_id (str_of_int i)) ids.

(** The record of survey [s] is in the cache. *)
Definition survey_stored (now : Q) (d : gmap string entry) (s : survey_json)
    : Prop :=
  exists h t,
    lookup now d (survey_key (str_of_int (SurveyID s))) = Some (Entry (RHash h) t)
    /\ h !! "id" = Some (str_of_int (SurveyID s))
    /\ h !! "name" = Some (Name s)
    /\ h !! "active" = Some (str_of_bool (Active s))
    /\ h !! "start_time" = Some (StartTime s)
    /\ h !! "end_time" = Some (EndTime s).

(** The survey that upstream listed last under [id]: its record is the one
    a refresh leaves in the cache. *)
Definition last_with_id (ss : list survey_json) (id : Z) : option survey_json :=
  find (fun s => SurveyID s =? id) (rev ss).

(** The cache after the commands of the surveys [ss] have run: the survey
    list holds their ids, last first, and under each id the record of the
    survey listed last with it. *)
Definition surveys_written (now : Q) (ss : list survey_json)
    (d : gmap string entry) : Prop :=
  list_at now d surveys_key (rev (map (fun s => str_of_int (SurveyID s)) ss))
  /\ forall s, In s ss ->
       exists s', last_with_id ss (SurveyID s) = Some s' /\ survey_stored now d s'.

(** View [v] is what [get_surveys] reads back for survey [s] of the upstream
    list [ss]: its id, and the fields of the survey listed last with it. *)
Definition survey_read_back (ss : list survey_json) (s : survey_json)
    (v : survey_view) : Prop :=
  survey_id v = SurveyID s
  /\ exists s',
       last_with_id ss (SurveyID s) = Some s'
       /\ survey_name v = Name s'
       /\ survey_active v = Active s'
       /\ survey_start_time v = StartTime s'
       /\ survey_end_time v = EndTime s'.

(** *** Images *)

Fixpoint starts_with (p s : string) {struct p} : bool :=
  match p with
  | EmptyString => true
  | String a p' =>
      match s with
      | EmptyString => false
      | String b s' => Ascii.eqb a b && starts_with p' s'
      end
  end.

Definition is_image_key (k : string) : bool := starts_with "occupeye:image:" k.

(** Commands that change the database. *)
Definition writes (c : command) : bool :=
  match c with
  | SET _ _ | DEL _ | EXPIRE _ _ | LPUSH _ _ | RPUSH _ _ | HMSET _ _ => true
  | GET _ | EXISTS _ | LLEN _ | LRANGE _ _ _ | HGETALL _ => false
  end.

(** A command that leaves the entries of every image as they are. *)
Definition spares_images (c : command) : Prop :=
  writes c = false \/ is_image_key (key_of c) = false.

(** The two entries of image [image_id] are both absent, or both strings
    with one expiry instant. *)
Definition image_pair (d : gmap string entry) (image_id : string) : Prop :=
  (d !! image_base64_key image_id = None
   /\ d !! image_content_type_key image_id = None)
  \/ (exists b c t,
        d !! image_base64_key image_id = Some (Entry (RString b) t)
        /\ d !! image_content_type_key image_id = Some (Entry (RString c) t)).

Definition images_paired (d : gmap string entry) : Prop :=
  forall image_id, no_colon image_id = true -> image_pair d image_id.

Definition pairs_kept (w w' : World) : Prop :=
  images_paired (r w) -> images_paired (r w').

(** The worlds that arise from an empty database through the public
    methods of instances of the class, while time passes and the upstream
    service changes. *)
Inductive reachable : World -> Prop :=
| reachable_empty w :
    r w = ∅ -> reachable w
| reachable_env w w' :
    reachable w -> r w' = r w -> reachable w'
| reachable_init w test_mode :
    reachable w -> reachable (init test_mode w).2
| reachable_get_bearer_token w :
    reachable w -> reachable (get_bearer_token w).2
| reachable_get_surveys w :
    reachable w -> reachable (get_surveys w).2
| reachable_get_image w image_id :
    reachable w -> reachable (get_image image_id w).2
| reachable_get_survey_sensors w survey_id return_states :
    reachable w -> reachable (get_survey_sensors survey_id return_states w).2.

(** The clock and the upstream service are the same in both worlds, and
    the request log has only grown. *)
Definition same_env (w w' : World) : Prop :=
  clock w' = clock w /\ upstream w' = upstream w
  /\ (forall q, In q (sent w) -> In q (sent w')).

(** The reply to [LLEN k] in world [w]. *)
Definition llen (w : World) (k : string) : reply :=
  (exec (clock w) (r w) (LLEN k)).2.

(** *** Relations and predicates of the further properties *)

(** The database, the clock and the request log are as they were. *)
Definition untouched (w w' : World) : Prop :=
  r w' = r w /\ clock w' = clock w /\ sent w' = sent w.

(** The round trips made between [w] and [w'] carry only commands that
    satisfy [P]. *)
Definition issues (P : command -> Prop) (w w' : World) : Prop :=
  exists batches,
    executed w' = executed w ++ batches /\ Forall (Forall P) batches.

(** Commands on the two keys of the credential, on the keys of the survey
    family, on the two keys of one image. *)
Definition on_credential (c : command) : Prop :=
  key_of c = "occupeye:access_token" \/ key_of c = "occupeye:access_token_expiry".

Definition on_surveys (c : command) : Prop :=
  on_credential c \/ starts_with "occupeye:surveys" (key_of c) = true.

Definition on_image (image_id : string) (c : command) : Prop :=
  on_credential c
  \/ key_of c = image_base64_key image_id
  \/ key_of c = image_content_type_key image_id.

(** The requests of a log other than credential exchanges, oldest first. *)
Definition data_requests (log : list request) : list request :=
  List.filter (fun q => negb (request_eqb q PostToken)) log.

(** No request other than a credential exchange has gone out. *)
Definition same_data (w w' : World) : Prop :=
  data_requests (sent w') = data_requests (sent w).

(** The entry under key [k] is as it was. *)
Definition keeps (k : string) (w w' : World) : Prop :=
  r w' !! k = r w !! k.

(** Every entry without an expiry lies under a key that satisfies [U]. *)
Definition persistent_within (U : string -> Prop) (d : gmap string entry) : Prop :=
  forall k e, d !! k = Some e -> expires_at e = None -> U k.

Definition credential_key (k : string) : Prop :=
  k = "occupeye:access_token" \/ k = "occupeye:access_token_expiry".

(** A batch that leaves no entry without an expiry outside [U], whatever
    else may be kept without one. *)
Definition settles (U : string -> Prop) (cs : list command) : Prop :=
  forall V : string -> Prop,
    (forall k, U k -> V k) ->
    forall now d,
      persistent_within V d -> persistent_within V (exec_all now d cs).1.

Definition expiring_kept (w w' : World) : Prop :=
  persistent_within credential_key (r w) ->
  persistent_within credential_key (r w').

(** The position record of map item [it] can be read back. *)
Definition position_stored (now : Q) (d : gmap string entry)
    (survey_id map_id : string) (it : map_item_json) : Prop :=
  exists h t,
    lookup now d
      (sensor_properties_key survey_id map_id (str_of_int (item_HardwareID it)))
    = Some (Entry (RHash h) t)
    /\ h !! "id" = Some (str_of_int (item_HardwareID it))
    /\ h !! "x_pos" = Some (X it)
    /\ h !! "y_pos" = Some (Y it).

(** The entry of the result of [get_survey_sensors] for map item [it]. *)
Definition position_read_back (it : map_item_json)
    (kv : string * gmap string string) : Prop :=
  kv.1 = str_of_int (item_HardwareID it)
  /\ kv.2 !! "id" = Some (str_of_int (item_HardwareID it))
  /\ kv.2 !! "x_pos" = Some (X it)
  /\ kv.2 !! "y_pos" = Some (Y it).

(** What [get_surveys] returns for a map and for a survey that upstream
    reports. *)
Definition map_view_of (mp : map_json) : map_view :=
  {| map_id := MapID mp; map_name := MapName mp; map_image_id := ImageID mp |}.

Definition survey_view_of (s : survey_json) (ms : list map_json) : survey_view :=
  {| survey_id := SurveyID s; survey_name := Name s; survey_active := Active s;
     survey_start_time := StartTime s; survey_end_time := EndTime s;
     survey_maps := map map_view_of ms |}.

(** The record of map [mp] of survey [survey_id] is in the cache. *)
Definition map_stored_as (now : Q) (d : gmap string entry) (survey_id : string)
    (mp : map_json) : Prop :=
  exists h t,
    lookup now d (survey_map_key survey_id (str_of_int (MapID mp)))
    = Some (Entry (RHash h) t)
    /\ h !! "id" = Some (str_of_int (MapID mp))
    /\ h !! "name" = Some (MapName mp)
    /\ h !! "image_id" = Some (str_of_int (ImageID mp)).

(** The map list of survey [survey_id] names the maps [ms], in this order,
    and their records are in the cache. *)
Definition maps_stored_as (now : Q) (d : gmap string entry) (survey_id : string)
    (ms : list map_json) : Prop :=
  list_at now d (survey_maps_key survey_id)
    (map (fun mp => str_of_int (MapID mp)) ms)
  /\ Forall (map_stored_as now d survey_id) ms.

(** The status record of sensor [st] of survey [survey_id] can be read
    back. *)
Definition status_stored (now : Q) (d : gmap string entry) (survey_id : string)
    (st : sensor_json) : Prop :=
  exists h t,
    lookup now d (sensor_status_key survey_id (str_of_int (HardwareID st)))
    = Some (Entry (RHash h) t)
    /\ h !! "id" = Some (str_of_int (HardwareID st))
    /\ h !! "last_trigger_type" = Some (LastTriggerType st)
    /\ h !! "last_trigger_timestamp" = Some (LastTriggerTime st).

(** The fields of a sensor once the state [st] has been merged in. *)
Definition with_state (st : sensor_json) (fields : gmap string string)
    : gmap string string :=
  <["last_trigger_type" := LastTriggerType st]>
    (<["last_trigger_timestamp" := LastTriggerTime st]> fields).

(** The entry of the result of [get_survey_sensors] for map item [it] whose
    latest state is [st]. *)
Definition state_read_back (st : sensor_json) (it : map_item_json)
    (kv : string * gmap string string) : Prop :=
  position_read_back it kv
  /\ kv.2 !! "last_trigger_type" = Some (LastTriggerType st)
  /\ kv.2 !! "last_trigger_timestamp" = Some (LastTriggerTime st).

End Cache.

(** ** Example deployments *)

Module Scenario.
Import Py Redis Upstream OccupEyeApi.

(** A service whose every endpoint fails. *)
Definition offline : service := {|
  token := None;
  surveys := None;
  maps := fun _ => None;
  images := fun _ => None;
  survey_sensors_latest := fun _ => None;
  map_items := fun _ => None
|}.

(** A fresh instance in test mode, an empty cache, at second 1000. *)
Definition cold (u : service) : World := {|
  access_token := None;
  access_token_expiry := None;
  r := ∅;
  clock := inject_Z 1000;
  upstream := u;
  sent := [];
  executed := []
|}.

(** An instance holding credential [t] that expires at second [e]. *)
Definition holding (t : string) (e : Z) (now : Q) (u : service) : World := {|
  access_token := Some t;
  access_token_expiry := Some e;
  r := ∅;
  clock := now;
  upstream := u;
  sent := [];
  executed := []
|}.

(** The token endpoint issues an empty credential, valid for an hour. *)
Definition issues_empty_token : service := {|
  token := Some {| access_token_field := ""; expires_in := 3600 |};
  surveys := None;
  maps := fun _ => None;
  images := fun _ => None;
  survey_sensors_latest := fun _ => None;
  map_items := fun _ => None
|}.

(** A deployment with two surveys. Survey 42 has two maps with one sensor
    each; every endpoint answers. *)
Definition campus : service := {|
  token := Some {| access_token_field := "tok"; expires_in := 3600 |};
  surveys := Some
    [ {| SurveyID := 42; Active := true; Name := "Library";
         StartTime := "2018-01-01"; EndTime := "2019-01-01" |};
      {| SurveyID := 7; Active := false; Name := "Science";
         StartTime := "2017-01-01"; EndTime := "2018-01-01" |} ];
  maps := fun survey_id =>
    if String.eqb survey_id "42" then
      Some [ {| MapID := 1; MapName := "Floor 1"; ImageID := 10 |};
             {| MapID := 2; MapName := "Floor 2"; ImageID := 11 |} ]
    else Some [];
  images := fun _ =>
    Some {| content_type_header := Some "image/png";
            content := [Byte.x4d; Byte.x61; Byte.x6e] |};
  survey_sensors_latest := fun _ =>
    Some [ {| HardwareID := 100; SensorID := 5;
              LastTriggerType := "Occupied"; LastTriggerTime := "t1" |};
           {| HardwareID := 200; SensorID := 6;
              LastTriggerType := "Absent"; LastTriggerTime := "t2" |} ];
  map_items := fun map_id =>
    if String.eqb map_id "1" then
      Some [ {| item_HardwareID := 100; X := "1.0"; Y := "2.0" |} ]
    else
      Some [ {| item_HardwareID := 200; X := "3.0"; Y := "4.0" |} ]
|}.

(** Survey 42 with one map holding one sensor. *)
Definition one_room : service := {|
  token := Some {| access_token_field := "tok"; expires_in := 3600 |};
  surveys := Some
    [ {| SurveyID := 42; Active := true; Name := "Library";
         StartTime := "2018-01-01"; EndTime := "2019-01-01" |} ];
  maps := fun _ => Some [ {| MapID := 1; MapName := "Floor 1"; ImageID := 10 |} ];
  images := fun _ => None;
  survey_sensors_latest := fun _ =>
    Some [ {| HardwareID := 100; SensorID := 5;
              LastTriggerType := "Occupied"; LastTriggerTime := "t1" |} ];
  map_items := fun _ =>
    Some [ {| item_HardwareID := 100; X := "1.0"; Y := "2.0" |} ]
|}.

(** Survey 42 with one map on which upstream reports no sensor. *)
Definition empty_room : service := {|
  token := Some {| access_token_field := "tok"; expires_in := 3600 |};
  surveys := Some
    [ {| SurveyID := 42; Active := true; Name := "Library";
         StartTime := "2018-01-01"; EndTime := "2019-01-01" |} ];
  maps := fun _ => Some [ {| MapID := 1; MapName := "Floor 1"; ImageID := 10 |} ];
  images := fun _ => None;
  survey_sensors_latest := fun _ => Some [];
  map_items := fun _ => Some []
|}.

(** The one-character id made of the superscript two (code point 178). *)
Definition superscript_two : string := String "178"%char EmptyString.

(** The cache that [get_image "7"] has filled at second 1000, read again
    at second 173800, the instant at which the two entries of the image
    expire. *)
Definition image_expiring : World :=
  (at_instant (inject_Z 173800)
     (get_image "7" (cold campus)).2).2.

(** The deployment of [campus] while the maps of survey 7 cannot be
    fetched. *)
Definition maps_unavailable : service := {|
  token := token campus;
  surveys := surveys campus;
  maps := fun survey_id =>
    if String.eqb survey_id "42" then maps campus survey_id else None;
  images := images campus;
  survey_sensors_latest := survey_sensors_latest campus;
  map_items := map_items campus
|}.

(** A deployment that lists no survey. *)
Definition no_surveys : service := {|
  token := Some {| access_token_field := "tok"; expires_in := 3600 |};
  surveys := Some [];
  maps := fun _ => Some [];
  images := fun _ => None;
  survey_sensors_latest := fun _ => Some [];
  map_items := fun _ => Some []
|}.

End Scenario.

Import Py Redis Upstream OccupEyeApi Cache.

(** ** Input validation *)

Lemma isdigit_non_digit (s : string) (c : ascii) :
  In c (list_ascii_of_string s) -> char_isdigit c = false -> isdigit s = false.
Proof.
  intros Hin Hc. destruct s as [|a s]; [reflexivity|].
  unfold isdigit. apply not_true_is_false. intros Hall.
  rewrite forallb_forall in Hall. specialize (Hall c Hin). congruence.
Qed.

(** C2, as stated, fails, even when it is weakened to: the call raises
    [BadOccupEyeRequest] or at least sends nothing upstream. An id may hold
    a character that is not a decimal digit and pass the guard:
    [str.isdigit] accepts the superscript two, and for the id made of it
    [get_image] returns an image after sending requests upstream. *)
Lemma get_image_accepts_superscript_digit :
  ~ (forall (image_id : string) (c : ascii) (w : World),
       In c (list_ascii_of_string image_id) ->
       char_isdecimal c = false ->
       (get_image image_id w).1 = Raise BadOccupEyeRequest
       \/ sent (get_image image_id w).2 = sent w).
Proof.
  intros claim.
  destruct (claim Scenario.superscript_two "178"%char
              (Scenario.cold Scenario.campus)) as [H|H].
  - simpl. auto.
  - reflexivity.
  - vm_compute in H. discriminate.
  - vm_compute in H. discriminate.
Qed.

(** C2, amended. An image id with a character that [str.isdigit] does not
    accept makes [get_image] raise [BadOccupEyeRequest] in an unchanged
    world: no Redis round trip has been made and no request has been sent
    upstream. *)
Theorem get_image_rejects_non_digit (image_id : string) (c : ascii) (w : World) :
  In c (list_ascii_of_string image_id) ->
  char_isdigit c = false ->
  get_image image_id w = (Raise BadOccupEyeRequest, w).
Proof.
  intros Hin Hc. unfold get_image.
  rewrite (isdigit_non_digit image_id c Hin Hc). reflexivity.
Qed.

Lemma get_image_rejects_non_digit_witness :
  get_image "4a" (Scenario.cold Scenario.offline)
  = (Raise BadOccupEyeRequest, Scenario.cold Scenario.offline).
Proof.
  apply (get_image_rejects_non_digit "4a" "a"%char).
  - simpl. auto.
  - reflexivity.
Defined.

(** ** Token manager *)

Lemma truthy_nonempty (s : string) : s <> "" -> truthy s = true.
Proof. destruct s; [congruence|reflexivity]. Qed.

Section TokenManager.

Variable w : World.
Variable t : string.
Variable e : Z.
Hypothesis Htoken : access_token w = Some t.
Hypothesis Hexists : t <> "".
Hypothesis Hexpiry : access_token_expiry w = Some e.

Lemma token_valid_eq :
  token_valid w = (Return (Qle_bool (clock w) (inject_Z e)), w).
Proof.
  unfold token_valid, get_access_token, get_access_token_expiry, time_now.
  unfold mbind, M_bind, bind. rewrite Htoken. simpl.
  rewrite (truthy_nonempty t Hexists). simpl. rewrite Hexpiry.
  destruct (Qle_bool (clock w) (inject_Z e)); reflexivity.
Qed.

Lemma get_bearer_token_cached :
  (clock w <= inject_Z e)%Q ->
  get_bearer_token w = (Return ("Bearer " +:+ t), w).
Proof.
  intros Hle. apply Qle_bool_iff in Hle.
  unfold get_bearer_token, mbind, M_bind, bind.
  rewrite token_valid_eq, Hle. simpl.
  unfold get_access_token. rewrite Htoken. reflexivity.
Qed.

End TokenManager.

(** C9. For a credential that exists, [token_valid] answers [False] exactly
    when the clock is strictly past the stored expiry; when the clock equals
    the expiry the credential is valid and [get_bearer_token] returns it
    without an exchange (the world, and with it the request log, is
    unchanged). *)
Theorem token_valid_strict (w : World) (t : string) (e : Z) :
  access_token w = Some t ->
  t <> "" ->
  access_token_expiry w = Some e ->
  (token_valid w = (Return false, w) <-> (inject_Z e < clock w)%Q)
  /\ ((clock w == inject_Z e)%Q ->
      token_valid w = (Return true, w)
      /\ get_bearer_token w = (Return ("Bearer " +:+ t), w)).
Proof.
  intros Ht Hne He. split.
  - rewrite (token_valid_eq w t e Ht Hne He). split.
    + intros Heq. apply Qnot_le_lt. intros Hle.
      apply Qle_bool_iff in Hle. congruence.
    + intros Hlt. apply Qlt_not_le in Hlt.
      destruct (Qle_bool (clock w) (inject_Z e)) eqn:Hb; [|reflexivity].
      apply Qle_bool_iff in Hb. contradiction.
  - intros Heq. assert (Hle : (clock w <= inject_Z e)%Q).
    { rewrite Heq. apply Qle_refl. }
    split.
    + rewrite (token_valid_eq w t e Ht Hne He).
      apply Qle_bool_iff in Hle. rewrite Hle. reflexivity.
    + apply (get_bearer_token_cached w t e Ht Hne He Hle).
Qed.

Lemma token_valid_strict_witness :
  let w := Scenario.holding "tok" 1000 (inject_Z 1000) Scenario.offline in
  (token_valid w = (Return false, w) <-> (inject_Z 1000 < clock w)%Q)
  /\ ((clock w == inject_Z 1000)%Q ->
      token_valid w = (Return true, w)
      /\ get_bearer_token w = (Return ("Bearer " +:+ "tok"), w)).
Proof.
  apply (token_valid_strict
           (Scenario.holding "tok" 1000 (inject_Z 1000) Scenario.offline)
           "tok" 1000).
  - reflexivity.
  - discriminate.
  - reflexivity.
Defined.

Lemma get_bearer_token_returns (w w1 : World) (bearer : string) :
  get_bearer_token w = (Return bearer, w1) ->
  exists t e,
    access_token w1 = Some t
    /\ access_token_expiry w1 = Some e
    /\ bearer = "Bearer " +:+ t.
Proof.
  unfold get_bearer_token, token_valid, get_token, http, r_set, redis,
    set_access_token, set_access_token_expiry, get_access_token,
    get_access_token_expiry, time_now, mbind, M_bind, bind, ret.
  destruct (access_token w) as [t|] eqn:Ht; simpl.
  - destruct (truthy t) eqn:Htr; simpl.
    + destruct (access_token_expiry w) as [e|] eqn:He; simpl; [|discriminate].
      destruct (Qle_bool (clock w) (inject_Z e)); simpl.
      * rewrite Ht. intros [= <- <-]. eauto.
      * destruct (token (upstream w)); simpl; [|discriminate].
        intros [= <- <-]. simpl. eauto.
    + destruct (token (upstream w)); simpl; [|discriminate].
      intros [= <- <-]. simpl. eauto.
  - destruct (token (upstream w)); simpl; [|discriminate].
    intros [= <- <-]. simpl. eauto.
Qed.

(** C3, as stated, fails: when the exchange yields an empty credential,
    [get_bearer_token] returns, and the next call inside the expiry window
    exchanges again. *)
Lemma get_bearer_token_reexchanges_empty_credential :
  ~ (forall (w w1 w2 : World) (bearer : string) (e : Z),
       get_bearer_token w = (Return bearer, w1) ->
       access_token w2 = access_token w1 ->
       access_token_expiry w2 = access_token_expiry w1 ->
       access_token_expiry w1 = Some e ->
       (clock w2 <= inject_Z e)%Q ->
       get_bearer_token w2 = (Return bearer, w2)).
Proof.
  intros claim.
  pose (w := Scenario.cold Scenario.issues_empty_token).
  pose (w1 := snd (get_bearer_token w)).
  assert (H : get_bearer_token w1 = (Return "Bearer ", w1)).
  { apply (claim w w1 w1 "Bearer " 4600); try reflexivity.
    vm_compute. discriminate. }
  apply (f_equal (fun p => length (sent (snd p)))) in H.
  vm_compute in H. discriminate.
Qed.

(** C3, amended. After [get_bearer_token] has returned with a non-empty
    credential, a call by an instance with the same attributes, made while
    the clock is not past the stored expiry, returns the same bearer string
    in an unchanged world: no exchange takes place. *)
Theorem get_bearer_token_idempotent
    (w w1 w2 : World) (bearer : string) (e : Z) :
  get_bearer_token w = (Return bearer, w1) ->
  access_token w1 <> Some "" ->
  access_token w2 = access_token w1 ->
  access_token_expiry w2 = access_token_expiry w1 ->
  access_token_expiry w1 = Some e ->
  (clock w2 <= inject_Z e)%Q ->
  get_bearer_token w2 = (Return bearer, w2).
Proof.
  intros Hfirst Hne Htok Hexp He Hle.
  destruct (get_bearer_token_returns w w1 bearer Hfirst) as (t & e' & Ht & He' & ->).
  apply (get_bearer_token_cached w2 t e).
  - congruence.
  - intros ->. congruence.
  - congruence.
  - exact Hle.
Qed.

Lemma get_bearer_token_idempotent_witness :
  let w1 := (get_bearer_token (Scenario.cold Scenario.campus)).2 in
  get_bearer_token w1 = (Return "Bearer tok", w1).
Proof.
  apply (get_bearer_token_idempotent
           (Scenario.cold Scenario.campus)
           (get_bearer_token (Scenario.cold Scenario.campus)).2
           (get_bearer_token (Scenario.cold Scenario.campus)).2
           "Bearer tok" 4600).
  - vm_compute. reflexivity.
  - vm_compute. discriminate.
  - reflexivity.
  - reflexivity.
  - vm_compute. reflexivity.
  - vm_compute. discriminate.
Defined.


(** ** Splitting keys into segments *)

Lemma split_no_colon (a : string) : no_colon a = true -> split a = [a].
Proof.
  induction a as [|c a IH]; simpl; [done|].
  destruct (Ascii.eqb c ":"); simpl; [done|].
  intros H. by rewrite IH.
Qed.

Lemma split_app (a r : string) :
  no_colon a = true -> split (a +:+ String ":" r) = a :: split r.
Proof.
  induction a as [|c a IH]; simpl; [done|].
  destruct (Ascii.eqb c ":"); simpl; [done|].
  intros H. by rewrite IH.
Qed.

Lemma split_join (l : list string) :
  l <> [] -> forallb no_colon l = true -> split (join l) = l.
Proof.
  induction l as [|a l IH]; [done|]. intros _ H.
  simpl in H. apply andb_true_iff in H as [Ha Hl].
  destruct l as [|b l].
  - simpl. by apply split_no_colon.
  - change (join (a :: b :: l)) with (a +:+ String ":" (join (b :: l))).
    rewrite split_app by done. f_equal. by apply IH.
Qed.


(** ** Commands and the kinds of values *)

Lemma well_kinded_insert (d : gmap string entry) (k : string) (e : entry) :
  well_kinded d ->
  (forall kd, key_kind k = Some kd -> kind_of (value e) = kd) ->
  well_kinded (<[k := e]> d).
Proof.
  intros Hd He k' e' kd Hl Hk.
  destruct (decide (k = k')) as [<-|Hne].
  - rewrite lookup_insert_eq in Hl. injection Hl as <-. by apply He.
  - rewrite lookup_insert_ne in Hl by done. by eapply Hd.
Qed.

Lemma well_kinded_delete (d : gmap string entry) (k : string) :
  well_kinded d -> well_kinded (delete k d).
Proof.
  intros Hd k' e' kd Hl Hk.
  destruct (decide (k = k')) as [<-|Hne].
  - by rewrite lookup_delete_eq in Hl.
  - rewrite lookup_delete_ne in Hl by done. by eapply Hd.
Qed.

Lemma lookup_Some_raw (now : Q) (d : gmap string entry) (k : string) (e : entry) :
  lookup now d k = Some e -> d !! k = Some e.
Proof.
  unfold lookup. destruct (d !! k) as [e'|]; [|done].
  destruct (live now e'); [|done]. done.
Qed.

Lemma exec_ok (now : Q) (d : gmap string entry) (c : command) :
  well_kinded d -> cmd_ok c ->
  well_kinded (exec now d c).1 /\ is_error (exec now d c).2 = false.
Proof.
  intros Hd Hc. unfold cmd_ok in Hc.
  destruct c as [k|k v|k|k|k s|k|k a b|k v|k v|k m|k]; simpl in *.
  - (* GET *)
    destruct (lookup now d k) as [[[s'|l|h] t]|] eqn:Hl; simpl; [done|..|done];
      apply lookup_Some_raw in Hl; by specialize (Hd _ _ _ Hl Hc).
  - (* SET *)
    split; [|done]. apply well_kinded_insert; [done|]. simpl. congruence.
  - (* EXISTS *)
    by destruct (lookup now d k).
  - (* DEL *)
    destruct (lookup now d k); simpl; (split; [by apply well_kinded_delete|done]).
  - (* EXPIRE *)
    destruct (lookup now d k) as [e|] eqn:Hl; simpl; [|done].
    apply lookup_Some_raw in Hl.
    destruct (s <=? 0); simpl; (split; [|done]).
    + by apply well_kinded_delete.
    + apply well_kinded_insert; [done|]. simpl. intros kd Hkd. by eapply Hd.
  - (* LLEN *)
    destruct (lookup now d k) as [[[s'|l|h] t]|] eqn:Hl; simpl; try done;
      apply lookup_Some_raw in Hl; by specialize (Hd _ _ _ Hl Hc).
  - (* LRANGE *)
    destruct (lookup now d k) as [[[s'|l|h] t]|] eqn:Hl; simpl; try done;
      apply lookup_Some_raw in Hl; by specialize (Hd _ _ _ Hl Hc).
  - (* LPUSH *)
    destruct (lookup now d k) as [[[s'|l|h] t]|] eqn:Hl; simpl;
      try (apply lookup_Some_raw in Hl; by specialize (Hd _ _ _ Hl Hc));
      (split; [|done]); apply well_kinded_insert; try done; simpl; congruence.
  - (* RPUSH *)
    destruct (lookup now d k) as [[[s'|l|h] t]|] eqn:Hl; simpl;
      try (apply lookup_Some_raw in Hl; by specialize (Hd _ _ _ Hl Hc));
      (split; [|done]); apply well_kinded_insert; try done; simpl; congruence.
  - (* HMSET *)
    destruct (lookup now d k) as [[[s'|l|h] t]|] eqn:Hl; simpl;
      try (apply lookup_Some_raw in Hl; by specialize (Hd _ _ _ Hl Hc));
      (split; [|done]); apply well_kinded_insert; try done; simpl; congruence.
  - (* HGETALL *)
    destruct (lookup now d k) as [[[s'|l|h] t]|] eqn:Hl; simpl; try done;
      apply lookup_Some_raw in Hl; by specialize (Hd _ _ _ Hl Hc).
Qed.

Lemma exec_all_ok (now : Q) (cs : list command) (d : gmap string entry) :
  well_kinded d -> Forall cmd_ok cs ->
  well_kinded (exec_all now d cs).1
  /\ existsb is_error (exec_all now d cs).2 = false.
Proof.
  revert d. induction cs as [|c cs IH]; intros d Hd Hcs; simpl; [done|].
  apply Forall_cons in Hcs as [Hc Hcs].
  destruct (exec_ok now d c Hd Hc) as [Hd1 He1].
  destruct (exec now d c) as [d1 rep] eqn:E. simpl in *.
  destruct (IH d1 Hd1 Hcs) as [Hd2 He2].
  destruct (exec_all now d1 cs) as [d2 reps]. simpl in *.
  by rewrite He1, He2.
Qed.

Lemma exec_frame (now : Q) (d : gmap string entry) (c : command) (k : string) :
  key_of c <> k -> (exec now d c).1 !! k = d !! k.
Proof.
  intros Hne.
  destruct c as [k'|k' v|k'|k'|k' s|k'|k' a b|k' v|k' v|k' m|k']; simpl in *;
    destruct (lookup now d k') as [[[s'|l|h] t]|]; simpl;
    try destruct (s <=? 0); simpl;
    rewrite ?lookup_insert_ne, ?lookup_delete_ne by done; done.
Qed.

Lemma exec_all_frame (now : Q) (cs : list command) (d : gmap string entry)
    (k : string) :
  Forall (fun c => key_of c <> k) cs -> (exec_all now d cs).1 !! k = d !! k.
Proof.
  revert d. induction cs as [|c cs IH]; intros d Hcs; simpl; [done|].
  apply Forall_cons in Hcs as [Hc Hcs].
  pose proof (exec_frame now d c k Hc) as H1.
  destruct (exec now d c) as [d1 rep]. simpl in *.
  specialize (IH d1 Hcs).
  destruct (exec_all now d1 cs) as [d2 reps]. simpl in *. congruence.
Qed.

(** ** The state probe of [get_survey_sensors] *)

(** C1. On survey 42 with one map and one sensor, a first call with states
    requested refreshes the survey's states once and returns the sensor with
    its trigger type and timestamp. The sensor's status record is then in
    the cache, yet a second call at the same instant refreshes again: the
    probe reads a key under [maps:<map>:sensors:] that no populator writes.
    With two maps, one call refreshes the survey's states twice. *)
Theorem get_survey_sensors_probe_never_hits :
  let q := GetSurveySensorsLatest "42" in
  let first := get_survey_sensors "42" true (Scenario.cold Scenario.one_room) in
  let second := get_survey_sensors "42" true first.2 in
  let both := get_survey_sensors "42" true (Scenario.cold Scenario.campus) in
  count_requests q (sent first.2) = 1%nat
  /\ (exists m,
        first.1 = Return [m]
        /\ (exists fields,
              sensors m = [("100", fields)]
              /\ fields !! "last_trigger_type" = Some "Occupied"
              /\ fields !! "last_trigger_timestamp" = Some "t1"))
  /\ (exists h t,
        lookup (clock first.2) (r first.2) (sensor_status_key "42" "100")
        = Some (Entry (RHash h) t))
  /\ lookup (clock first.2) (r first.2) (first_sensor_status_key "42" "1" "100")
     = None
  /\ count_requests q (sent second.2) = 2%nat
  /\ (exists m1 m2, both.1 = Return [m1; m2])
  /\ count_requests q (sent both.2) = 2%nat.
Proof.
  cbv zeta. split; [|split; [|split; [|split; [|split; [|split]]]]].
  - by vm_compute.
  - destruct (get_survey_sensors "42" true (Scenario.cold Scenario.one_room)).1
      as [[|m [|]]|] eqn:E; try (vm_compute in E; discriminate).
    exists m. split; [done|].
    assert (Hm : Return [m] = (get_survey_sensors "42" true
                                 (Scenario.cold Scenario.one_room)).1) by done.
    vm_compute in Hm. injection Hm as ->. eexists. split; [reflexivity|].
    split; by vm_compute.
  - destruct (lookup _ _ _) as [[[|l|h] t]|] eqn:E; try (vm_compute in E; discriminate).
    by exists h, t.
  - by vm_compute.
  - by vm_compute.
  - destruct (get_survey_sensors "42" true (Scenario.cold Scenario.campus)).1
      as [[|m1 [|m2 [|]]]|] eqn:E; try (vm_compute in E; discriminate).
    by exists m1, m2.
  - by vm_compute.
Qed.

Lemma app_colon_inj (a b x y : string) :
  no_colon a = true -> no_colon b = true ->
  a +:+ String ":" x = b +:+ String ":" y -> a = b /\ x = y.
Proof.
  revert b. induction a as [|c a IH]; intros [|c' b]; simpl.
  - intros _ _ [= ->]. done.
  - intros _ Hb [= <- _]. done.
  - intros Ha _ [= -> _]. done.
  - intros Ha Hb [= <- E].
    apply andb_true_iff in Ha as [_ Ha]. apply andb_true_iff in Hb as [_ Hb].
    destruct (IH b Ha Hb E) as [-> ->]. done.
Qed.

(** The key that [get_survey_sensors] probes is the status key of no
    sensor of any survey. *)
Lemma probed_key_is_no_status_key
    (survey_id map_id sensor_id survey_id' hardware_id : string) :
  no_colon survey_id = true -> no_colon survey_id' = true ->
  first_sensor_status_key survey_id map_id sensor_id
  <> sensor_status_key survey_id' hardware_id.
Proof.
  intros Hs Hs' E. unfold first_sensor_status_key, sensor_status_key in E.
  apply String.app_inj in E.
  apply (app_colon_inj survey_id survey_id') in E as [_ E]; [|done..].
  discriminate.
Qed.

(** ** Reasoning about methods *)

Lemma bind_eq {A B} (m : M A) (k : A -> M B) (w : World) :
  (m ≫= k) w
  = match m w with
    | (Return a, w') => k a w'
    | (Raise e, w') => (Raise e, w')
    end.
Proof. reflexivity. Qed.

Lemma bind_return {A B} (m : M A) (k : A -> M B) (w w' : World) (a : A) :
  m w = (Return a, w') -> (m ≫= k) w = k a w'.
Proof. intros H. by rewrite bind_eq, H. Qed.

(** A relation between the world before and the world after that holds
    whatever the method does. *)
Definition preserves {A} (F : World -> World -> Prop) (m : M A) : Prop :=
  forall w, F w (m w).2.

Section Preserves.

Context (F : World -> World -> Prop) `{!PreOrder F}.

Lemma preserves_ret {A} (a : A) : preserves F (ret a).
Proof. intros w. simpl. reflexivity. Qed.

Lemma preserves_raise {A} (e : exn) : preserves F (@raise A e).
Proof. intros w. simpl. reflexivity. Qed.

Lemma preserves_bind {A B} (m : M A) (k : A -> M B) :
  preserves F m -> (forall a, preserves F (k a)) -> preserves F (m ≫= k).
Proof.
  intros Hm Hk w. rewrite bind_eq. specialize (Hm w).
  destruct (m w) as [[a|e] w']; simpl in *; [|done].
  etrans; [exact Hm|apply Hk].
Qed.

Lemma preserves_for_fold {A S} (body : S -> A -> M S) (xs : list A) (acc : S) :
  (forall acc x, preserves F (body acc x)) -> preserves F (for_fold body xs acc).
Proof.
  intros Hbody. revert acc. induction xs as [|x xs IH]; intros acc; simpl.
  - apply preserves_ret.
  - apply preserves_bind; [apply Hbody|]. intros acc'. apply IH.
Qed.

Lemma preserves_try_except_raise {A} (m : M A) (e : exn) :
  preserves F m -> preserves F (try_except_raise m e).
Proof.
  intros Hm w. unfold try_except_raise. specialize (Hm w).
  by destruct (m w) as [[a|e'] w'].
Qed.

End Preserves.

(** The state of the world that the primitive effects leave alone. *)
Lemma redis_world (c : command) (w : World) :
  (redis c w).2 = round_trip [c] (exec (clock w) (r w) c).1 w.
Proof.
  unfold redis. destruct (exec (clock w) (r w) c) as [d rep].
  by destruct (is_error rep).
Qed.

Lemma execute_world (cs : list command) (w : World) :
  cs <> [] ->
  (execute cs w).2 = round_trip cs (exec_all (clock w) (r w) cs).1 w.
Proof.
  intros Hne. unfold execute. rewrite bool_decide_eq_false_2 by done.
  destruct (exec_all (clock w) (r w) cs) as [d reps].
  by destruct (existsb is_error reps).
Qed.

(** *** The request log *)

Definition same_count (q : request) (w w' : World) : Prop :=
  count_requests q (sent w') = count_requests q (sent w).

Global Instance same_count_preorder (q : request) : PreOrder (same_count q).
Proof.
  split.
  - intros w. reflexivity.
  - intros w1 w2 w3 H12 H23. unfold same_count in *. congruence.
Qed.

Lemma count_requests_snoc (q x : request) (log : list request) :
  count_requests q (log ++ [x])
  = (count_requests q log + (if request_eqb q x then 1 else 0))%nat.
Proof.
  unfold count_requests. rewrite List.filter_app, length_app. f_equal.
  simpl. by destruct (request_eqb q x).
Qed.

Lemma same_count_redis (q : request) (c : command) :
  preserves (same_count q) (redis c).
Proof. intros w. rewrite redis_world. reflexivity. Qed.

Lemma same_count_execute (q : request) (cs : list command) :
  preserves (same_count q) (execute cs).
Proof.
  intros w. destruct (decide (cs = [])) as [->|Hne].
  - reflexivity.
  - rewrite execute_world by done. reflexivity.
Qed.

Lemma same_count_http {A} (q req : request) (answer : service -> option A) :
  request_eqb q req = false -> preserves (same_count q) (http req answer).
Proof.
  intros Hne w. unfold http, same_count.
  destruct (answer (upstream w)); simpl;
    rewrite count_requests_snoc, Hne; lia.
Qed.

Ltac preserves_step :=
  lazymatch goal with
  | |- PreOrder _ => apply _
  | |- forall _, _ => intros ?
  | |- preserves _ (ret _) => apply preserves_ret
  | |- preserves _ (raise _) => apply preserves_raise
  | |- preserves _ (_ ≫= _) => apply preserves_bind
  | |- preserves _ (for_fold _ _ _) => apply preserves_for_fold
  | |- preserves _ (try_except_raise _ _) => apply preserves_try_except_raise
  | |- preserves _ (match ?x with _ => _ end) => destruct x
  end.

Ltac same_count_step :=
  first
    [ apply same_count_redis
    | apply same_count_execute
    | apply same_count_http; reflexivity
    | preserves_step
    | (unfold preserves; intros ?; unfold same_count; reflexivity) ].

Lemma same_count_r_llen (q : request) (k : string) :
  preserves (same_count q) (r_llen k).
Proof. unfold r_llen. repeat same_count_step. Qed.

Lemma same_count_get_bearer_token (q : request) :
  request_eqb q PostToken = false -> preserves (same_count q) get_bearer_token.
Proof.
  intros Hq. unfold get_bearer_token, token_valid, get_token, r_set.
  repeat first [apply same_count_http; exact Hq | same_count_step].
Qed.

Lemma same_count_cache_maps_for_survey (survey_id : string) :
  preserves (same_count GetSurveys) (_cache_maps_for_survey survey_id).
Proof.
  unfold _cache_maps_for_survey.
  repeat first [apply same_count_get_bearer_token; reflexivity | same_count_step].
Qed.

Lemma cache_survey_data_requests_once (w w' : World) :
  _cache_survey_data w = (Return tt, w') ->
  count_requests GetSurveys (sent w') = S (count_requests GetSurveys (sent w)).
Proof.
  unfold _cache_survey_data. rewrite bind_eq.
  pose proof (same_count_get_bearer_token GetSurveys eq_refl w) as Hb.
  destruct (get_bearer_token w) as [[b|e] w1]; [|discriminate].
  simpl in Hb. rewrite bind_eq. unfold http at 1.
  destruct (surveys (upstream w1)) as [ss|]; [|discriminate].
  match goal with |- ?m _ = _ -> _ =>
    assert (Hrest : preserves (same_count GetSurveys) m)
  end.
  { repeat first [ apply same_count_cache_maps_for_survey
                 | progress unfold cache_survey
                 | same_count_step ]. }
  intros Heq. specialize (Hrest (requested GetSurveys w1)).
  rewrite Heq in Hrest. unfold same_count in *. simpl in *.
  rewrite Hrest, count_requests_snoc. simpl. lia.
Qed.

(** ** Surveys that do not exist *)

(** C7. For a digits-only survey id whose map list is empty,
    [get_survey_sensors] runs the survey refresh, which sends the surveys
    request exactly once; when the refresh completes and the map list is
    still empty, the call raises [BadOccupEyeRequest]. *)
Theorem get_survey_sensors_unknown_survey
    (w w' : World) (survey_id : string) (return_states : bool) :
  isdigit survey_id = true ->
  (r_llen (survey_maps_key survey_id) w).1 = Return 0 ->
  _cache_survey_data (r_llen (survey_maps_key survey_id) w).2 = (Return tt, w') ->
  (r_llen (survey_maps_key survey_id) w').1 = Return 0 ->
  (get_survey_sensors survey_id return_states w).1 = Raise BadOccupEyeRequest
  /\ count_requests GetSurveys (sent (get_survey_sensors survey_id return_states w).2)
     = S (count_requests GetSurveys (sent w)).
Proof.
  intros Hd Hempty Hrefresh Hstill.
  pose proof (cache_survey_data_requests_once _ _ Hrefresh) as Hcount.
  pose proof (same_count_r_llen GetSurveys (survey_maps_key survey_id) w) as H1.
  pose proof (same_count_r_llen GetSurveys (survey_maps_key survey_id) w') as H2.
  unfold get_survey_sensors. rewrite Hd. simpl.
  rewrite bind_eq.
  destruct (r_llen (survey_maps_key survey_id) w) as [o1 w1]. simpl in *.
  subst o1. simpl. rewrite bind_eq, Hrefresh. rewrite bind_eq.
  destruct (r_llen (survey_maps_key survey_id) w') as [o2 w2]. simpl in *.
  subst o2. simpl. split; [done|].
  unfold same_count in *. congruence.
Qed.

Lemma get_survey_sensors_unknown_survey_witness :
  let w := Scenario.cold Scenario.campus in
  (get_survey_sensors "99" true w).1 = Raise BadOccupEyeRequest
  /\ count_requests GetSurveys (sent (get_survey_sensors "99" true w).2)
     = S (count_requests GetSurveys (sent w)).
Proof.
  apply (get_survey_sensors_unknown_survey
           (Scenario.cold Scenario.campus)
           (_cache_survey_data
              (r_llen (survey_maps_key "99") (Scenario.cold Scenario.campus)).2).2
           "99" true).
  - reflexivity.
  - reflexivity.
  - vm_compute. reflexivity.
  - vm_compute. reflexivity.
Defined.

(** ** Obtaining the bearer token *)

Lemma key_kind_access_token : key_kind "occupeye:access_token" = Some KString.
Proof. reflexivity. Qed.

Lemma key_kind_access_token_expiry :
  key_kind "occupeye:access_token_expiry" = Some KString.
Proof. reflexivity. Qed.

Lemma classic_authenticated (w : World) : authenticated w \/ ~ authenticated w.
Proof.
  unfold authenticated.
  destruct (access_token w) as [t|]; [|right; intros (?&?&?&_); discriminate].
  destruct (access_token_expiry w) as [e|];
    [|right; intros (?&?&_&_&?&_); discriminate].
  destruct (decide (t = "")) as [->|Hne].
  { right. intros (?&?&[= <-]&?&_). done. }
  destruct (Qle_bool (clock w) (inject_Z e)) eqn:Hle.
  - left. exists t, e. repeat split; try done. by apply Qle_bool_iff.
  - right. intros (?&?&_&_&[= <-]&Hle'). apply Qle_bool_iff in Hle'. congruence.
Qed.

Lemma get_bearer_token_ok (w : World) :
  can_authenticate w ->
  exists b w', get_bearer_token w = (Return b, w') /\ token_frame w w'.
Proof.
  intros Hcan.
  assert (Hvalid : authenticated w -> 
            exists b, get_bearer_token w = (Return b, w)).
  { intros (t & e & Ht & Hne & He & Hle).
    exists ("Bearer " +:+ t). by apply (get_bearer_token_cached w t e). }
  assert (Hexch : forall tj, token (upstream w) = Some tj ->
            token_valid w = (Return false, w) ->
            exists b w', get_bearer_token w = (Return b, w') /\ token_frame w w').
  { intros tj Htj Hinv.
    unfold get_bearer_token. rewrite bind_eq, Hinv. simpl.
    unfold get_token, http, r_set, redis, set_access_token,
      set_access_token_expiry, get_access_token, time_now, mbind, M_bind, bind, ret.
    rewrite Htj. simpl. eexists _, _. split; [reflexivity|].
    unfold token_frame. simpl. split; [done|]. split; [done|].
    split; [|split].
    - intros k Hk1 Hk2. by rewrite !lookup_insert_ne.
    - intros Hwk. apply well_kinded_insert; [apply well_kinded_insert; [done|]|];
        simpl; intros kd Hkd.
      + rewrite key_kind_access_token in Hkd. congruence.
      + rewrite key_kind_access_token_expiry in Hkd. congruence.
    - right. simpl. split; [by rewrite Htj|]. eauto. }
  destruct (classic_authenticated w) as [Hauth|Hnot].
  - destruct (Hvalid Hauth) as [b Hb]. exists b, w. split; [done|].
    unfold token_frame. split_and!; eauto.
  - destruct Hcan as [Hauth|[[tj Htj] Hexp]]; [contradiction|].
    apply (Hexch tj Htj).
    unfold token_valid, get_access_token, get_access_token_expiry, time_now,
      mbind, M_bind, bind, ret.
    destruct (access_token w) as [t|] eqn:Ht; simpl; [|done].
    destruct (truthy t) eqn:Htr; simpl; [|done].
    destruct (Hexp Htr) as [e He]. rewrite He.
    destruct (Qle_bool (clock w) (inject_Z e)) eqn:Hle; simpl; [|done].
    exfalso. apply Hnot. exists t, e. repeat split; try done.
    + intros ->. discriminate.
    + by apply Qle_bool_iff.
Qed.

(** ** Reading lists from the cache *)

Lemma r_llen_eq (k : string) (w : World) :
  r_llen k w
  = (match llen w k with
     | Integer n => Return n
     | _ => Raise ResponseError
     end,
     round_trip [LLEN k] (r w) w).
Proof.
  unfold r_llen, llen, redis, mbind, M_bind, bind. simpl.
  by destruct (lookup (clock w) (r w) k) as [[[s|l|h] t]|].
Qed.

Lemma r_lrange_eq (k : string) (start stop : Z) (w : World) :
  r_lrange k start stop w
  = (match (exec (clock w) (r w) (LRANGE k start stop)).2 with
     | Array l => Return l
     | _ => Raise ResponseError
     end,
     round_trip [LRANGE k start stop] (r w) w).
Proof.
  unfold r_lrange, redis, mbind, M_bind, bind. simpl.
  by destruct (lookup (clock w) (r w) k) as [[[s|l|h] t]|].
Qed.

Lemma llen_list (w : World) (k : string) (l : list string) (t : option Q) :
  lookup (clock w) (r w) k = Some (Entry (RList l) t) ->
  llen w k = Integer (Z.of_nat (length l)).
Proof. unfold llen. simpl. by intros ->. Qed.

Lemma llen_zero_lrange (w : World) (k : string) (start stop : Z) :
  llen w k = Integer 0 ->
  (exec (clock w) (r w) (LRANGE k start stop)).2 = Array [].
Proof.
  unfold llen. simpl.
  destruct (lookup (clock w) (r w) k) as [[[s|l|h] t]|]; simpl; try done.
  intros [= Hl]. destruct l; [|done]. unfold lrange_slice. simpl.
  f_equal. destruct (_ || _); [done|]. by rewrite drop_nil, take_nil.
Qed.

Lemma lrange_slice_all (l : list string) :
  lrange_slice l 0 (Z.of_nat (length l)) = l.
Proof.
  unfold lrange_slice. destruct l as [|x l]; [done|].
  cbv zeta. rewrite (proj2 (Z.ltb_ge 0 0)) by lia.
  rewrite (proj2 (Z.ltb_ge (Z.of_nat (length (x :: l))) 0)) by lia.
  rewrite Z.min_r by lia.
  rewrite (proj2 (Z.ltb_ge _ 0)) by (simpl length; lia).
  rewrite (proj2 (Z.leb_gt _ 0)) by (simpl length; lia).
  simpl orb. cbv iota. rewrite drop_0.
  apply take_ge. simpl length. lia.
Qed.

(** ** Maps without sensors *)

Lemma exec_del_expire (now : Q) (d : gmap string entry) (k : string) (ttl : Z) :
  exists reps,
    exec_all now d [DEL k; EXPIRE k ttl] = (delete k d, reps)
    /\ existsb is_error reps = false.
Proof.
  simpl. assert (Hgone : lookup now (delete k d) k = None).
  { unfold lookup. by rewrite lookup_delete_eq. }
  destruct (lookup now d k); simpl; rewrite Hgone; eauto.
Qed.

Lemma cache_sensors_for_map_empty (w : World) (survey_id map_id : string) :
  map_items (upstream w) map_id = Some [] ->
  can_authenticate w ->
  exists w',
    _cache_sensors_for_map survey_id map_id w = (Return tt, w')
    /\ clock w' = clock w
    /\ r w' !! map_sensors_key survey_id map_id = None.
Proof.
  intros Hup Hcan. unfold _cache_sensors_for_map.
  destruct (get_bearer_token_ok w Hcan) as (b & w1 & Hb & Hclock & Hups & Hfr & _).
  rewrite (bind_return _ _ _ _ _ Hb). rewrite bind_eq. unfold http.
  rewrite Hups, Hup. simpl flat_map. rewrite bind_eq.
  unfold execute. rewrite bool_decide_eq_false_2 by done.
  destruct (exec_del_expire (clock (requested (GetMap map_id) w1))
              (r (requested (GetMap map_id) w1))
              (map_sensors_key survey_id map_id) SENSOR_STATUS_TTL)
    as (reps & Hx & Hok).
  simpl app. rewrite Hx, Hok. simpl. eexists. split; [reflexivity|]. simpl.
  split; [done|]. apply lookup_delete_eq.
Qed.

Lemma lookup_absent (now : Q) (d : gmap string entry) (k : string) :
  d !! k = None -> lookup now d k = None.
Proof. unfold lookup. by intros ->. Qed.

Lemma get_map_sensors_empty_index_error
    (w : World) (survey_id map_id : string) :
  llen w (map_sensors_key survey_id map_id) = Integer 0 ->
  map_items (upstream w) map_id = Some [] ->
  can_authenticate w ->
  (get_map_sensors survey_id true map_id w).1 = Raise IndexError.
Proof.
  intros Hempty Hup Hcan. unfold get_map_sensors.
  rewrite bind_eq, r_llen_eq, Hempty. simpl Z.eqb. cbv iota.
  set (w1 := round_trip _ _ w).
  destruct (cache_sensors_for_map_empty w1 survey_id map_id Hup Hcan)
    as (w2 & Hrefresh & Hclock & Hgone).
  rewrite bind_eq, Hrefresh.
  assert (Hlen : llen w2 (map_sensors_key survey_id map_id) = Integer 0).
  { unfold llen. simpl. by rewrite (lookup_absent _ _ _ Hgone). }
  rewrite bind_eq, r_llen_eq, Hlen.
  set (w3 := round_trip _ _ w2).
  rewrite bind_eq, r_lrange_eq.
  assert (Hlen3 : llen w3 (map_sensors_key survey_id map_id) = Integer 0) by done.
  rewrite (llen_zero_lrange w3 _ 0 0 Hlen3). reflexivity.
Qed.

Lemma get_survey_sensors_first_map_index_error
    (w : World) (survey_id map_id : string) (rest : list string)
    (t : option Q) :
  isdigit survey_id = true ->
  lookup (clock w) (r w) (survey_maps_key survey_id)
  = Some (Entry (RList (map_id :: rest)) t) ->
  llen w (map_sensors_key survey_id map_id) = Integer 0 ->
  map_items (upstream w) map_id = Some [] ->
  can_authenticate w ->
  (get_survey_sensors survey_id true w).1 = Raise IndexError.
Proof.
  intros Hd Hmaps Hempty Hup Hcan. unfold get_survey_sensors.
  rewrite Hd. cbn [negb].
  pose proof (llen_list w _ _ _ Hmaps) as Hlen.
  rewrite bind_eq, r_llen_eq, Hlen.
  set (n := Z.of_nat (length (map_id :: rest))).
  assert (Hn : (n =? 0) = false) by (apply Z.eqb_neq; subst n; simpl length; lia).
  rewrite Hn. simpl ret. rewrite bind_eq. unfold ret at 1.
  set (w1 := round_trip _ _ w).
  assert (Hlen1 : llen w1 (survey_maps_key survey_id) = Integer n) by exact Hlen.
  rewrite bind_eq, r_llen_eq, Hlen1, Hn.
  set (w2 := round_trip _ _ w1).
  assert (Hlen2 : llen w2 (survey_maps_key survey_id) = Integer n) by exact Hlen.
  rewrite bind_eq, r_llen_eq, Hlen2.
  set (w3 := round_trip _ _ w2).
  rewrite bind_eq, r_lrange_eq.
  assert (Hrange : (exec (clock w3) (r w3) (LRANGE (survey_maps_key survey_id) 0 n)).2
                   = Array (map_id :: rest)).
  { simpl. rewrite Hmaps. simpl. f_equal. apply lrange_slice_all. }
  rewrite Hrange.
  set (w4 := round_trip _ _ w3).
  simpl for_fold. rewrite bind_eq, bind_eq.
  pose proof (get_map_sensors_empty_index_error w4 survey_id map_id Hempty Hup Hcan)
    as Hbody.
  destruct (get_map_sensors survey_id true map_id w4) as [o w5].
  simpl in Hbody. by subst o.
Qed.

(** C10. With states requested, for a map whose sensor list is empty and
    stays empty after the position refresh (upstream reports no sensors for
    it), the body of the loop over maps raises [IndexError]; a call of
    [get_survey_sensors] whose first map is such a map therefore raises
    [IndexError], not [BadOccupEyeRequest]. *)
Theorem get_survey_sensors_empty_map_index_error
    (w : World) (survey_id map_id : string) :
  llen w (map_sensors_key survey_id map_id) = Integer 0 ->
  map_items (upstream w) map_id = Some [] ->
  can_authenticate w ->
  (get_map_sensors survey_id true map_id w).1 = Raise IndexError
  /\ forall rest t,
       isdigit survey_id = true ->
       lookup (clock w) (r w) (survey_maps_key survey_id)
       = Some (Entry (RList (map_id :: rest)) t) ->
       (get_survey_sensors survey_id true w).1 = Raise IndexError.
Proof.
  intros Hempty Hup Hcan. split.
  - by apply get_map_sensors_empty_index_error.
  - intros rest t Hd Hmaps.
    by apply (get_survey_sensors_first_map_index_error w survey_id map_id rest t).
Qed.

Lemma get_survey_sensors_empty_map_index_error_witness :
  let w := (get_surveys (Scenario.cold Scenario.empty_room)).2 in
  (get_map_sensors "42" true "1" w).1 = Raise IndexError
  /\ (get_survey_sensors "42" true w).1 = Raise IndexError.
Proof.
  destruct (get_survey_sensors_empty_map_index_error
              (get_surveys (Scenario.cold Scenario.empty_room)).2 "42" "1")
    as [Hbody Hcall].
  - vm_compute. reflexivity.
  - vm_compute. reflexivity.
  - left. exists "tok", 4600. split; [|split; [|split]].
    + vm_compute. reflexivity.
    + discriminate.
    + vm_compute. reflexivity.
    + vm_compute. discriminate.
  - split; [exact Hbody|].
    apply (Hcall [] (Some (inject_Z 1000 + inject_Z 86400)%Q)).
    + vm_compute. reflexivity.
    + vm_compute. reflexivity.
Defined.

(** ** Decimal renderings and key segments *)

Lemma no_colon_uint (d : Decimal.uint) :
  no_colon (NilEmpty.string_of_uint d) = true.
Proof. induction d; simpl; done. Qed.

Lemma no_colon_str_of_int (z : Z) : no_colon (str_of_int z) = true.
Proof.
  unfold str_of_int, NilZero.string_of_int, NilZero.string_of_uint.
  destruct (Z.to_int z) as [d|d]; destruct d; simpl; try done;
    apply no_colon_uint.
Qed.

Lemma no_colon_isdigit (s : string) : isdigit s = true -> no_colon s = true.
Proof.
  unfold isdigit. destruct s as [|c s]; [done|].
  generalize (String c s). clear. intros s.
  induction s as [|c s IH]; simpl; [done|].
  intros H. apply andb_true_iff in H as [Hc Hs].
  rewrite (IH Hs), andb_true_r.
  destruct (Ascii.eqb_spec c ":") as [->|]; [|done]. by vm_compute in Hc.
Qed.

Lemma int_of_str_of_int (z : Z) : int_of_str (str_of_int z) = Some z.
Proof.
  unfold int_of_str, str_of_int. rewrite NilZero.isi.
  - simpl. by rewrite DecimalZ.of_to.
  - destruct z; simpl; try done.
    intros [= Hu]. by apply DecimalPos.Unsigned.to_uint_nonnil in Hu.
  - destruct z; simpl; try done.
    intros [= Hu]. by apply DecimalPos.Unsigned.to_uint_nonnil in Hu.
Qed.

Lemma str_of_int_inj (a b : Z) : str_of_int a = str_of_int b -> a = b.
Proof.
  intros H. apply (f_equal int_of_str) in H.
  rewrite !int_of_str_of_int in H. congruence.
Qed.

(** ** The clock and the service during a call *)

Global Instance same_env_preorder : PreOrder same_env.
Proof.
  split.
  - by intros w.
  - intros w1 w2 w3 (H1 & H2 & H3) (H4 & H5 & H6). split_and!; try congruence.
    auto.
Qed.

Lemma same_env_redis (c : command) : preserves same_env (redis c).
Proof. intros w. rewrite redis_world. done. Qed.

Lemma same_env_execute (cs : list command) : preserves same_env (execute cs).
Proof.
  intros w. destruct (decide (cs = [])) as [->|Hne]; [done|].
  rewrite execute_world by done. done.
Qed.

Lemma same_env_http {A} (req : request) (answer : service -> option A) :
  preserves same_env (http req answer).
Proof.
  intros w. unfold http.
  destruct (answer (upstream w)); simpl; (split_and!; [done|done|]);
    intros q Hq; apply in_or_app; by left.
Qed.

Ltac same_env_step :=
  first
    [ apply same_env_redis
    | apply same_env_execute
    | apply same_env_http
    | preserves_step
    | (unfold preserves; intros ?; done) ].

Lemma same_env_get_bearer_token : preserves same_env get_bearer_token.
Proof.
  unfold get_bearer_token, token_valid, get_token, r_set.
  repeat same_env_step.
Qed.

(** ** Expiry of sensor records *)

Lemma exec_all_app (now : Q) (cs1 cs2 : list command) (d : gmap string entry) :
  (exec_all now d (cs1 ++ cs2)).1
  = (exec_all now (exec_all now d cs1).1 cs2).1.
Proof.
  revert d. induction cs1 as [|c cs1 IH]; intros d; simpl; [done|].
  destruct (exec now d c) as [d1 rep]. specialize (IH d1).
  destruct (exec_all now d1 (cs1 ++ cs2)) as [d2 reps].
  destruct (exec_all now d1 cs1) as [d3 reps3]. simpl in *.
  by destruct (exec_all now d3 cs2).
Qed.

Lemma exec_all_nil (now : Q) (d : gmap string entry) :
  (exec_all now d []).1 = d.
Proof. reflexivity. Qed.

Lemma exec_all_cons (now : Q) (c : command) (cs : list command)
    (d : gmap string entry) :
  (exec_all now d (c :: cs)).1 = (exec_all now (exec now d c).1 cs).1.
Proof.
  simpl. destruct (exec now d c) as [d1 rep]. simpl.
  by destruct (exec_all now d1 cs).
Qed.

Lemma lookup_frame (now : Q) (d : gmap string entry) (c : command) (k : string) :
  key_of c <> k -> lookup now (exec now d c).1 k = lookup now d k.
Proof. intros H. unfold lookup. by rewrite exec_frame. Qed.

Lemma exec_hmset_live (now : Q) (d : gmap string entry) (k : string)
    (mapping : list (string * string)) :
  is_Some (lookup now (exec now d (HMSET k mapping)).1 k).
Proof.
  simpl. destruct (lookup now d k) as [[[s|l|h] t]|] eqn:Hl; simpl;
    try (rewrite Hl; eauto; fail).
  - unfold lookup. rewrite lookup_insert_eq.
    unfold lookup in Hl. destruct (d !! k) as [e|]; [|done].
    destruct (live now e) eqn:Hlive; [|done]. injection Hl as ->.
    unfold live in *. simpl in *. rewrite Hlive. eauto.
  - unfold lookup. rewrite lookup_insert_eq. simpl. eauto.
Qed.

Lemma exec_expire_assigns (now : Q) (d : gmap string entry) (k : string)
    (seconds : Z) :
  is_Some (lookup now d k) -> 0 < seconds ->
  expires (exec now d (EXPIRE k seconds)).1 k (now + inject_Z seconds)%Q.
Proof.
  intros [e He] Hpos. simpl. rewrite He.
  rewrite (proj2 (Z.leb_gt seconds 0)) by lia. simpl.
  eexists. rewrite lookup_insert_eq. split; [reflexivity|done].
Qed.

Lemma expires_frame (now : Q) (d : gmap string entry) (c : command)
    (k : string) (t : Q) :
  key_of c <> k -> expires d k t -> expires (exec now d c).1 k t.
Proof. intros Hne [e [He Ht]]. exists e. by rewrite exec_frame. Qed.

Lemma sensor_suffix_split (h suffix : string) :
  no_colon h = true -> no_colon suffix = true ->
  split (h +:+ String ":" suffix) = [h; suffix].
Proof. intros Hh Hs. by rewrite split_app, split_no_colon. Qed.

Lemma sensor_data_key_inj (survey_id h h' : string) :
  no_colon h = true -> no_colon h' = true ->
  sensor_data_key survey_id h = sensor_data_key survey_id h' -> h = h'.
Proof.
  intros Hh Hh' H. unfold sensor_data_key in H.
  do 3 apply String.app_inj in H. apply (f_equal split) in H.
  rewrite !sensor_suffix_split in H by done. congruence.
Qed.

Lemma sensor_status_key_inj (survey_id h h' : string) :
  no_colon h = true -> no_colon h' = true ->
  sensor_status_key survey_id h = sensor_status_key survey_id h' -> h = h'.
Proof.
  intros Hh Hh' H. unfold sensor_status_key in H.
  do 3 apply String.app_inj in H. apply (f_equal split) in H.
  rewrite !sensor_suffix_split in H by done. congruence.
Qed.

Lemma sensor_data_status_ne (survey_id h h' : string) :
  no_colon h = true -> no_colon h' = true ->
  sensor_data_key survey_id h <> sensor_status_key survey_id h'.
Proof.
  intros Hh Hh' H. unfold sensor_data_key, sensor_status_key in H.
  do 3 apply String.app_inj in H. apply (f_equal split) in H.
  rewrite !sensor_suffix_split in H by done. congruence.
Qed.

Lemma survey_sensors_key_ne_data (survey_id h : string) :
  survey_sensors_key survey_id <> sensor_data_key survey_id h.
Proof.
  intros H. unfold survey_sensors_key, sensor_data_key in H.
  do 2 apply String.app_inj in H. discriminate.
Qed.

Lemma survey_sensors_key_ne_status (survey_id h : string) :
  survey_sensors_key survey_id <> sensor_status_key survey_id h.
Proof.
  intros H. unfold survey_sensors_key, sensor_status_key in H.
  do 2 apply String.app_inj in H. discriminate.
Qed.

Lemma two_hashes_expire (now : Q) (d : gmap string entry)
    (kd ks kl v : string) (fd fs : list (string * string)) (td ts : Z) :
  kd <> ks -> kl <> kd -> kl <> ks -> 0 < td -> 0 < ts ->
  let d' := (exec_all now d
               [HMSET kd fd; HMSET ks fs; RPUSH kl v; EXPIRE kd td; EXPIRE ks ts]).1 in
  expires d' ks (now + inject_Z ts)%Q /\ expires d' kd (now + inject_Z td)%Q.
Proof.
  intros Hds Hld Hls Htd Hts. cbv zeta.
  rewrite !exec_all_cons, exec_all_nil.
  set (d1 := (exec now d (HMSET kd fd)).1).
  set (d2 := (exec now d1 (HMSET ks fs)).1).
  set (d3 := (exec now d2 (RPUSH kl v)).1).
  set (d4 := (exec now d3 (EXPIRE kd td)).1).
  assert (H1 : is_Some (lookup now d3 kd)).
  { subst d3 d2. rewrite !lookup_frame by done. apply exec_hmset_live. }
  assert (H2 : is_Some (lookup now d4 ks)).
  { subst d4 d3. rewrite !lookup_frame by done. apply exec_hmset_live. }
  split.
  - by apply exec_expire_assigns.
  - apply expires_frame; [cbn [key_of]; congruence|]. by apply exec_expire_assigns.
Qed.

Section SensorExpiry.

Variable now : Q.
Variable survey_id : string.

Lemma sensor_commands_assign (s : sensor_json) (d : gmap string entry) :
  sensor_expiries now survey_id s
    (exec_all now d (sensor_state_commands survey_id s)).1.
Proof.
  unfold sensor_state_commands. set (h := str_of_int (HardwareID s)).
  assert (Hh : no_colon h = true) by apply no_colon_str_of_int.
  apply two_hashes_expire.
  - by apply sensor_data_status_ne.
  - apply survey_sensors_key_ne_data.
  - apply survey_sensors_key_ne_status.
  - done.
  - done.
Qed.

Lemma sensor_commands_keep (s s' : sensor_json) (d : gmap string entry) :
  sensor_expiries now survey_id s d ->
  sensor_expiries now survey_id s (exec_all now d (sensor_state_commands survey_id s')).1.
Proof.
  intros Hd.
  destruct (decide (str_of_int (HardwareID s) = str_of_int (HardwareID s')))
    as [Heq|Hne].
  - unfold sensor_expiries. rewrite Heq. apply sensor_commands_assign.
  - unfold sensor_state_commands, sensor_expiries in *.
    set (h := str_of_int (HardwareID s)) in *.
    set (h' := str_of_int (HardwareID s')) in *.
    assert (Hh : no_colon h = true) by apply no_colon_str_of_int.
    assert (Hh' : no_colon h' = true) by apply no_colon_str_of_int.
    pose proof (sensor_data_status_ne survey_id h h' Hh Hh').
    pose proof (sensor_data_status_ne survey_id h' h Hh' Hh).
    pose proof (survey_sensors_key_ne_data survey_id h).
    pose proof (survey_sensors_key_ne_status survey_id h).
    assert (sensor_data_key survey_id h' <> sensor_data_key survey_id h)
      by (intros E; by apply sensor_data_key_inj in E).
    assert (sensor_status_key survey_id h' <> sensor_status_key survey_id h)
      by (intros E; by apply sensor_status_key_inj in E).
    rewrite !exec_all_cons, exec_all_nil.
    destruct Hd as [Hs Hdat].
    split; repeat (apply expires_frame; [cbn [key_of]; congruence|]); done.
Qed.

Lemma sensor_commands_keep_all (s : sensor_json) (all : list sensor_json)
    (d : gmap string entry) :
  sensor_expiries now survey_id s d ->
  sensor_expiries now survey_id s
    (exec_all now d (flat_map (sensor_state_commands survey_id) all)).1.
Proof.
  revert d. induction all as [|s' all IH]; intros d Hd; cbn [flat_map]; [done|].
  rewrite exec_all_app. apply IH. by apply sensor_commands_keep.
Qed.

Lemma sensor_commands_assign_all (s : sensor_json) (all : list sensor_json)
    (d : gmap string entry) :
  In s all ->
  sensor_expiries now survey_id s
    (exec_all now d (flat_map (sensor_state_commands survey_id) all)).1.
Proof.
  revert d. induction all as [|s' all IH]; intros d Hin; [done|].
  cbn [flat_map]. rewrite exec_all_app. destruct Hin as [->|Hin].
  - apply sensor_commands_keep_all, sensor_commands_assign.
  - by apply IH.
Qed.

Lemma sensor_pipeline_assigns (s : sensor_json) (all : list sensor_json)
    (d : gmap string entry) :
  In s all ->
  sensor_expiries now survey_id s
    (exec_all now d
       ([DEL (survey_sensors_key survey_id)]
        ++ flat_map (sensor_state_commands survey_id) all
        ++ [EXPIRE (survey_sensors_key survey_id) SURVEY_TTL])).1.
Proof.
  intros Hin. rewrite exec_all_app, (exec_all_app _ (flat_map _ _)).
  pose proof (sensor_commands_assign_all s all
                (exec_all now d [DEL (survey_sensors_key survey_id)]).1 Hin)
    as [Hs Hd].
  pose proof (survey_sensors_key_ne_data survey_id (str_of_int (HardwareID s))).
  pose proof (survey_sensors_key_ne_status survey_id (str_of_int (HardwareID s))).
  rewrite exec_all_cons, exec_all_nil.
  split; (apply expires_frame; [cbn [key_of]; congruence|done]).
Qed.

End SensorExpiry.

(** C6. After a state refresh, the status record of every sensor that
    upstream listed expires 60 seconds after the refresh and its data record
    86400 seconds after it: the status record's time to live is strictly the
    shorter one. *)
Theorem sensor_status_ttl_shorter
    (w w' : World) (survey_id : string) (all : list sensor_json)
    (s : sensor_json) :
  _cache_all_survey_sensor_states survey_id w = (Return tt, w') ->
  survey_sensors_latest (upstream w) survey_id = Some all ->
  In s all ->
  sensor_expiries (clock w) survey_id s (r w')
  /\ SENSOR_STATUS_TTL = 60 /\ SURVEY_TTL = 86400
  /\ (clock w + inject_Z SENSOR_STATUS_TTL < clock w + inject_Z SURVEY_TTL)%Q.
Proof.
  intros Hrun Hup Hin. split; [|split; [done|split; [done|]]].
  - unfold _cache_all_survey_sensor_states in Hrun. rewrite bind_eq in Hrun.
    pose proof (same_env_get_bearer_token w) as (Hclock & Hups & _).
    destruct (get_bearer_token w) as [[b|e] w1]; [|discriminate].
    simpl in Hclock, Hups. rewrite bind_eq in Hrun. unfold http in Hrun.
    rewrite Hups, Hup in Hrun. rewrite bind_eq in Hrun.
    unfold execute in Hrun. rewrite bool_decide_eq_false_2 in Hrun by done.
    pose proof (sensor_pipeline_assigns (clock w1) survey_id s all (r w1) Hin)
      as Hassign.
    change (clock (requested (GetSurveySensorsLatest survey_id) w1))
      with (clock w1) in Hrun.
    change (r (requested (GetSurveySensorsLatest survey_id) w1))
      with (r w1) in Hrun.
    destruct (exec_all (clock w1) (r w1) _) as [d reps].
    destruct (existsb is_error reps); [discriminate|].
    injection Hrun as <-. rewrite <- Hclock. exact Hassign.
  - apply Qplus_lt_r. reflexivity.
Qed.

Lemma sensor_status_ttl_shorter_witness :
  let w := Scenario.cold Scenario.campus in
  let s := {| HardwareID := 200; SensorID := 6;
              LastTriggerType := "Absent"; LastTriggerTime := "t2" |} in
  sensor_expiries (clock w) "42" s (r (_cache_all_survey_sensor_states "42" w).2)
  /\ SENSOR_STATUS_TTL = 60 /\ SURVEY_TTL = 86400
  /\ (clock w + inject_Z SENSOR_STATUS_TTL < clock w + inject_Z SURVEY_TTL)%Q.
Proof.
  apply (sensor_status_ttl_shorter
           (Scenario.cold Scenario.campus)
           (_cache_all_survey_sensor_states "42" (Scenario.cold Scenario.campus)).2
           "42"
           [ {| HardwareID := 100; SensorID := 5;
                LastTriggerType := "Occupied"; LastTriggerTime := "t1" |};
             {| HardwareID := 200; SensorID := 6;
                LastTriggerType := "Absent"; LastTriggerTime := "t2" |} ]).
  - vm_compute. reflexivity.
  - vm_compute. reflexivity.
  - simpl. auto.
Defined.

(** ** The segments of the survey keys *)

Lemma split_surveys_key : split surveys_key = ["occupeye"; "surveys"].
Proof. reflexivity. Qed.

Lemma split_survey_key (s : string) :
  no_colon s = true -> split (survey_key s) = ["occupeye"; "surveys"; s].
Proof.
  intros Hs. change (survey_key s) with (join ["occupeye"; "surveys"; s]).
  apply split_join; [done|]. simpl. by rewrite Hs.
Qed.

Lemma split_survey_maps_key (s : string) :
  no_colon s = true ->
  split (survey_maps_key s) = ["occupeye"; "surveys"; s; "maps"].
Proof.
  intros Hs.
  change (survey_maps_key s) with (join ["occupeye"; "surveys"; s; "maps"]).
  apply split_join; [done|]. simpl. by rewrite Hs.
Qed.

Lemma split_survey_map_key (s m : string) :
  no_colon s = true -> no_colon m = true ->
  split (survey_map_key s m) = ["occupeye"; "surveys"; s; "maps"; m].
Proof.
  intros Hs Hm.
  change (survey_map_key s m) with (join ["occupeye"; "surveys"; s; "maps"; m]).
  apply split_join; [done|]. simpl. by rewrite Hs, Hm.
Qed.

Lemma split_image_base64_key (i : string) :
  no_colon i = true ->
  split (image_base64_key i) = ["occupeye"; "image"; i; "base64"].
Proof.
  intros Hi.
  change (image_base64_key i) with (join ["occupeye"; "image"; i; "base64"]).
  apply split_join; [done|]. simpl. by rewrite Hi.
Qed.

Lemma split_image_content_type_key (i : string) :
  no_colon i = true ->
  split (image_content_type_key i) = ["occupeye"; "image"; i; "content_type"].
Proof.
  intros Hi.
  change (image_content_type_key i)
    with (join ["occupeye"; "image"; i; "content_type"]).
  apply split_join; [done|]. simpl. by rewrite Hi.
Qed.

Create HintDb segments discriminated.
Global Hint Resolve no_colon_str_of_int no_colon_isdigit : segments.

(** Decides whether two keys of the survey families are equal, from their
    segments. *)
Ltac split_keys E :=
  apply (f_equal split) in E;
  rewrite ?split_surveys_key, ?split_survey_key, ?split_survey_maps_key,
    ?split_survey_map_key, ?split_image_base64_key,
    ?split_image_content_type_key in E by auto with segments.

Ltac key_ne :=
  let E := fresh "E" in
  intros E; split_keys E; first [discriminate E | congruence].

Lemma key_kind_survey_key (s : string) :
  no_colon s = true -> key_kind (survey_key s) = Some KHash.
Proof. intros Hs. unfold key_kind. by rewrite split_survey_key. Qed.

Lemma key_kind_survey_maps_key (s : string) :
  no_colon s = true -> key_kind (survey_maps_key s) = Some KList.
Proof. intros Hs. unfold key_kind. by rewrite split_survey_maps_key. Qed.

Lemma key_kind_survey_map_key (s m : string) :
  no_colon s = true -> no_colon m = true ->
  key_kind (survey_map_key s m) = Some KHash.
Proof. intros Hs Hm. unfold key_kind. by rewrite split_survey_map_key. Qed.

(** ** What a command leaves under its own key *)

Lemma lookup_live (now : Q) (d : gmap string entry) (k : string) (e : entry) :
  lookup now d k = Some e -> live now e = true.
Proof.
  unfold lookup. destruct (d !! k) as [e'|]; [|done].
  destruct (live now e') eqn:H; [|done]. by intros [= <-].
Qed.

Lemma lookup_insert_live (now : Q) (d : gmap string entry) (k : string) (e : entry) :
  live now e = true -> lookup now (<[k := e]> d) k = Some e.
Proof. intros H. unfold lookup. by rewrite lookup_insert_eq, H. Qed.

Lemma live_after_expire (now : Q) (v : rvalue) (seconds : Z) :
  0 <= seconds -> live now (Entry v (Some (now + inject_Z seconds)%Q)) = true.
Proof.
  intros H. unfold live. simpl. apply Qle_bool_iff.
  rewrite <- (Qplus_0_r now) at 1. apply Qplus_le_r.
  change 0%Q with (inject_Z 0). by rewrite <- Zle_Qle.
Qed.

Lemma lookup_hmset (now : Q) (d : gmap string entry) (k : string)
    (mapping : list (string * string)) :
  (lookup now d k = None \/ exists h t, lookup now d k = Some (Entry (RHash h) t)) ->
  exists h t,
    lookup now (exec now d (HMSET k mapping)).1 k
    = Some (Entry (RHash (hash_update mapping h)) t).
Proof.
  intros [Hl|(h & t & Hl)]; simpl; rewrite Hl; simpl.
  - exists ∅, None. by apply lookup_insert_live.
  - exists h, t. apply lookup_insert_live.
    by apply lookup_live in Hl.
Qed.

Lemma lookup_expire (now : Q) (d : gmap string entry) (k : string)
    (seconds : Z) (e : entry) :
  0 < seconds -> lookup now d k = Some e ->
  lookup now (exec now d (EXPIRE k seconds)).1 k
  = Some (Entry (value e) (Some (now + inject_Z seconds)%Q)).
Proof.
  intros Hpos Hl. simpl. rewrite Hl.
  rewrite (proj2 (Z.leb_gt seconds 0)) by lia. simpl.
  apply lookup_insert_live, live_after_expire. lia.
Qed.

Lemma lookup_expire_absent (now : Q) (d : gmap string entry) (k : string)
    (seconds : Z) :
  lookup now d k = None ->
  lookup now (exec now d (EXPIRE k seconds)).1 k = None.
Proof. intros Hl. simpl. by rewrite Hl. Qed.

Lemma lookup_del (now : Q) (d : gmap string entry) (k : string) :
  lookup now (exec now d (DEL k)).1 k = None.
Proof.
  simpl. destruct (lookup now d k); simpl; unfold lookup;
    by rewrite lookup_delete_eq.
Qed.

Lemma kinded_hash (now : Q) (d : gmap string entry) (k : string) :
  well_kinded d -> key_kind k = Some KHash ->
  lookup now d k = None
  \/ exists h t, lookup now d k = Some (Entry (RHash h) t).
Proof.
  intros Hd Hk. destruct (lookup now d k) as [[v t]|] eqn:Hl; [|by left].
  right. pose proof (Hd _ _ _ (lookup_Some_raw _ _ _ _ Hl) Hk) as Hv.
  destruct v; try discriminate. eauto.
Qed.

Lemma lookup_rpush (now : Q) (d : gmap string entry) (k v : string)
    (l : list string) :
  list_at now d k l ->
  list_at now (exec now d (RPUSH k v)).1 k (l ++ [v]).
Proof.
  intros Hl. assert (Hne : exists x l', l ++ [v] = x :: l').
  { destruct l; simpl; eauto. }
  destruct Hne as (x & l' & Hxl). unfold list_at. rewrite Hxl, <- Hxl.
  destruct l as [|y l]; simpl in Hl |- *.
  - rewrite Hl. simpl. exists None. by apply lookup_insert_live.
  - destruct Hl as [t Hl]. rewrite Hl. simpl. exists t.
    apply lookup_insert_live. by apply lookup_live in Hl.
Qed.

Lemma lookup_lpush (now : Q) (d : gmap string entry) (k v : string)
    (l : list string) :
  list_at now d k l ->
  list_at now (exec now d (LPUSH k v)).1 k (v :: l).
Proof.
  intros Hl. unfold list_at.
  destruct l as [|y l]; simpl in Hl |- *.
  - rewrite Hl. simpl. exists None. by apply lookup_insert_live.
  - destruct Hl as [t Hl]. rewrite Hl. simpl. exists t.
    apply lookup_insert_live. by apply lookup_live in Hl.
Qed.

Lemma list_at_expire (now : Q) (d : gmap string entry) (k : string)
    (l : list string) (seconds : Z) :
  0 < seconds -> list_at now d k l ->
  list_at now (exec now d (EXPIRE k seconds)).1 k l.
Proof.
  intros Hpos Hl. destruct l as [|y l]; unfold list_at in *.
  - by apply lookup_expire_absent.
  - destruct Hl as [t Hl]. eexists. by rewrite (lookup_expire _ _ _ _ _ Hpos Hl).
Qed.

Lemma list_at_frame (now : Q) (d : gmap string entry) (c : command)
    (k : string) (l : list string) :
  key_of c <> k -> list_at now d k l -> list_at now (exec now d c).1 k l.
Proof. intros Hne. unfold list_at. by rewrite lookup_frame. Qed.

Lemma map_stored_frame (now : Q) (d : gmap string entry) (c : command)
    (survey_id map_id : string) :
  key_of c <> survey_map_key survey_id map_id ->
  map_stored now d survey_id map_id ->
  map_stored now (exec now d c).1 survey_id map_id.
Proof. intros Hne. unfold map_stored. by rewrite lookup_frame. Qed.

Lemma map_stored_expire (now : Q) (d : gmap string entry)
    (survey_id map_id : string) (seconds : Z) :
  0 < seconds ->
  map_stored now d survey_id map_id ->
  map_stored now (exec now d (EXPIRE (survey_map_key survey_id map_id) seconds)).1
    survey_id map_id.
Proof.
  intros Hpos (h & t & id & name & img & Hl & Hid & Hname & Himg).
  exists h, (Some (now + inject_Z seconds)%Q), id, name, img.
  by rewrite (lookup_expire _ _ _ _ _ Hpos Hl).
Qed.

(** ** The map batch of one survey *)

Section MapsBatch.

Variable now : Q.
Variable sid : string.
Hypothesis Hsid : no_colon sid = true.

Lemma maps_commands_ok (m : map_json) : Forall cmd_ok (maps_commands sid m).
Proof.
  unfold maps_commands. repeat constructor; unfold cmd_ok; simpl.
  - apply key_kind_survey_map_key; auto with segments.
  - by apply key_kind_survey_maps_key.
Qed.

Lemma maps_pipeline_ok (ms : list map_json) :
  Forall cmd_ok
    ([DEL (survey_maps_key sid)]
     ++ flat_map (maps_commands sid) ms
     ++ [EXPIRE (survey_maps_key sid) SURVEY_TTL]).
Proof.
  apply Forall_app. split; [by repeat constructor|].
  apply Forall_app. split; [|by repeat constructor].
  induction ms as [|m ms IH]; cbn [flat_map]; [constructor|].
  apply Forall_app. split; [apply maps_commands_ok|done].
Qed.

Lemma map_fields_stored (m : map_json) (h : gmap string string) :
  let h' := hash_update
              [ ("id", str_of_int (MapID m)); ("name", MapName m);
                ("image_id", str_of_int (ImageID m)) ] h in
  h' !! "id" = Some (str_of_int (MapID m))
  /\ h' !! "name" = Some (MapName m)
  /\ h' !! "image_id" = Some (str_of_int (ImageID m)).
Proof.
  cbv zeta. unfold hash_update. simpl. split_and!.
  - do 2 rewrite lookup_insert_ne by done. by rewrite lookup_insert_eq.
  - rewrite lookup_insert_ne by done. by rewrite lookup_insert_eq.
  - by rewrite lookup_insert_eq.
Qed.

Lemma maps_step (l : list Z) (m : map_json) (d : gmap string entry) :
  well_kinded d ->
  list_at now d (survey_maps_key sid) (map str_of_int l) ->
  Forall (fun i => map_stored now d sid (str_of_int i)) l ->
  let d' := (exec_all now d (maps_commands sid m)).1 in
  list_at now d' (survey_maps_key sid) (map str_of_int (l ++ [MapID m]))
  /\ Forall (fun i => map_stored now d' sid (str_of_int i)) (l ++ [MapID m]).
Proof.
  intros Hd Hlist Hall. cbv zeta. unfold maps_commands.
  rewrite !exec_all_cons, exec_all_nil.
  set (K := survey_map_key sid (str_of_int (MapID m))).
  set (L := survey_maps_key sid) in *.
  set (f := [("id", _); _; _]).
  assert (HKL : K <> L) by (subst K L; key_ne).
  assert (HK : key_kind K = Some KHash)
    by (apply key_kind_survey_map_key; auto with segments).
  set (d1 := (exec now d (HMSET K f)).1).
  set (d2 := (exec now d1 (RPUSH L (str_of_int (MapID m)))).1).
  assert (Hnew1 : map_stored now d1 sid (str_of_int (MapID m))).
  { destruct (lookup_hmset now d K f (kinded_hash now d K Hd HK)) as (h & t & Hl).
    destruct (map_fields_stored m h) as (H1 & H2 & H3).
    by exists (hash_update f h), t, (MapID m), (MapName m), (ImageID m). }
  assert (Hstep : forall i,
            map_stored now d sid (str_of_int i) \/ i = MapID m ->
            map_stored now (exec now d2 (EXPIRE K SURVEY_TTL)).1 sid (str_of_int i)).
  { intros i Hi.
    destruct (decide (i = MapID m)) as [->|Hne].
    - apply map_stored_expire; [done|].
      apply map_stored_frame; [cbn [key_of]; subst K L; key_ne|]. done.
    - destruct Hi as [Hi|Hi]; [|done].
      assert (Hk : K <> survey_map_key sid (str_of_int i)).
      { subst K. intros E. split_keys E. injection E as E.
        by apply str_of_int_inj in E. }
      repeat (apply map_stored_frame; [cbn [key_of]; try done; subst L; key_ne|]).
      done. }
  split.
  - rewrite map_app. simpl map.
    apply list_at_frame; [done|]. apply lookup_rpush.
    by apply list_at_frame.
  - apply Forall_app. split.
    + eapply Forall_impl; [exact Hall|]. intros i Hi. apply Hstep. by left.
    + constructor; [|constructor]. apply Hstep. by right.
Qed.

Lemma maps_steps (ms : list map_json) (l : list Z) (d : gmap string entry) :
  well_kinded d ->
  list_at now d (survey_maps_key sid) (map str_of_int l) ->
  Forall (fun i => map_stored now d sid (str_of_int i)) l ->
  let d' := (exec_all now d (flat_map (maps_commands sid) ms)).1 in
  list_at now d' (survey_maps_key sid) (map str_of_int (l ++ map MapID ms))
  /\ Forall (fun i => map_stored now d' sid (str_of_int i)) (l ++ map MapID ms).
Proof.
  revert l d. induction ms as [|m ms IH]; intros l d Hd Hlist Hall; cbv zeta.
  - simpl. by rewrite app_nil_r.
  - cbn [flat_map map]. rewrite exec_all_app.
    destruct (maps_step l m d Hd Hlist Hall) as [Hlist' Hall'].
    pose proof (exec_all_ok now (maps_commands sid m) d Hd (maps_commands_ok m))
      as [Hd' _].
    specialize (IH (l ++ [MapID m]) _ Hd' Hlist' Hall').
    by rewrite <- app_assoc in IH.
Qed.

Lemma maps_batch_stores (ms : list map_json) (d : gmap string entry) :
  well_kinded d ->
  maps_stored now
    (exec_all now d
       ([DEL (survey_maps_key sid)]
        ++ flat_map (maps_commands sid) ms
        ++ [EXPIRE (survey_maps_key sid) SURVEY_TTL])).1
    sid.
Proof.
  intros Hd. rewrite exec_all_app, (exec_all_app _ (flat_map _ _)).
  rewrite exec_all_cons, exec_all_nil.
  set (d0 := (exec now d (DEL (survey_maps_key sid))).1).
  assert (Hd0 : well_kinded d0).
  { apply (exec_ok now d (DEL (survey_maps_key sid)) Hd). exact I. }
  assert (Hl0 : list_at now d0 (survey_maps_key sid) (map str_of_int []))
    by apply lookup_del.
  destruct (maps_steps ms [] d0 Hd0 Hl0 (List.Forall_nil _)) as [Hlist Hall].
  simpl app in Hlist, Hall.
  exists (map MapID ms). rewrite exec_all_cons, exec_all_nil. split.
  - by apply list_at_expire.
  - eapply Forall_impl; [exact Hall|]. intros i Hi.
    apply map_stored_frame; [cbn [key_of]; key_ne|done].
Qed.

End MapsBatch.

(** ** The survey batch *)

Lemma survey_stored_frame (now : Q) (d : gmap string entry) (c : command)
    (s : survey_json) :
  key_of c <> survey_key (str_of_int (SurveyID s)) ->
  survey_stored now d s -> survey_stored now (exec now d c).1 s.
Proof. intros Hne. unfold survey_stored. by rewrite lookup_frame. Qed.

Lemma survey_fields_stored (s : survey_json) (h : gmap string string) :
  let h' := hash_update
              [ ("id", str_of_int (SurveyID s));
                ("active", str_of_bool (Active s));
                ("name", Name s);
                ("start_time", StartTime s);
                ("end_time", EndTime s) ] h in
  h' !! "id" = Some (str_of_int (SurveyID s))
  /\ h' !! "name" = Some (Name s)
  /\ h' !! "active" = Some (str_of_bool (Active s))
  /\ h' !! "start_time" = Some (StartTime s)
  /\ h' !! "end_time" = Some (EndTime s).
Proof.
  cbv zeta. unfold hash_update. simpl. split_and!.
  - do 4 rewrite lookup_insert_ne by done. by rewrite lookup_insert_eq.
  - do 2 rewrite lookup_insert_ne by done. by rewrite lookup_insert_eq.
  - do 3 rewrite lookup_insert_ne by done. by rewrite lookup_insert_eq.
  - do 1 rewrite lookup_insert_ne by done. by rewrite lookup_insert_eq.
  - by rewrite lookup_insert_eq.
Qed.

Lemma last_with_id_snoc (ss : list survey_json) (s0 : survey_json) (id : Z) :
  last_with_id (ss ++ [s0]) id
  = if SurveyID s0 =? id then Some s0 else last_with_id ss id.
Proof. unfold last_with_id. by rewrite rev_unit. Qed.

Lemma last_with_id_id (ss : list survey_json) (id : Z) (s : survey_json) :
  last_with_id ss id = Some s -> SurveyID s = id.
Proof.
  unfold last_with_id. intros H. apply find_some in H as [_ H].
  by apply Z.eqb_eq in H.
Qed.

Lemma last_with_id_in (ss : list survey_json) (id : Z) (s : survey_json) :
  last_with_id ss id = Some s -> In s ss.
Proof.
  unfold last_with_id. intros H. apply find_some in H as [H _].
  by apply in_rev in H.
Qed.

Section SurveyBatch.

Variable now : Q.

Lemma survey_commands_ok (s : survey_json) : Forall cmd_ok (survey_commands s).
Proof.
  unfold survey_commands. repeat constructor; unfold cmd_ok; simpl.
  - apply key_kind_survey_key; auto with segments.
Qed.

Lemma survey_pipeline_ok (ss : list survey_json) :
  Forall cmd_ok
    ([DEL surveys_key] ++ flat_map survey_commands ss
     ++ [EXPIRE surveys_key SURVEY_TTL]).
Proof.
  apply Forall_app. split; [by repeat constructor|].
  apply Forall_app. split; [|by repeat constructor].
  induction ss as [|s ss IH]; cbn [flat_map]; [constructor|].
  apply Forall_app. split; [apply survey_commands_ok|done].
Qed.

Lemma survey_step (ss : list survey_json) (s0 : survey_json)
    (d : gmap string entry) :
  well_kinded d ->
  surveys_written now ss d ->
  surveys_written now (ss ++ [s0]) (exec_all now d (survey_commands s0)).1.
Proof.
  intros Hd [Hlist Hall]. unfold survey_commands.
  rewrite !exec_all_cons, exec_all_nil.
  set (K := survey_key (str_of_int (SurveyID s0))).
  set (f := [("id", _); _; _; _; _]).
  assert (HKL : K <> surveys_key) by (subst K; key_ne).
  assert (HK : key_kind K = Some KHash)
    by (apply key_kind_survey_key; auto with segments).
  set (d1 := (exec now d (HMSET K f)).1).
  set (d2 := (exec now d1 (EXPIRE K SURVEY_TTL)).1).
  assert (Hnew : survey_stored now d2 s0).
  { destruct (lookup_hmset now d K f (kinded_hash now d K Hd HK)) as (h & t & Hl).
    destruct (survey_fields_stored s0 h) as (H1 & H2 & H3 & H4 & H5).
    exists (hash_update f h), (Some (now + inject_Z SURVEY_TTL)%Q).
    split; [|done]. subst d2. fold K.
    by rewrite (lookup_expire now d1 K SURVEY_TTL _ eq_refl Hl). }
  split.
  - rewrite List.map_app. cbn [map]. rewrite rev_unit. apply lookup_lpush.
    by do 2 (apply list_at_frame; [done|]).
  - intros s Hin. rewrite last_with_id_snoc.
    destruct (Z.eqb_spec (SurveyID s0) (SurveyID s)) as [Heq|Hne].
    + exists s0. split; [done|].
      apply survey_stored_frame; [cbn [key_of]; subst K; key_ne|done].
    + apply in_app_or in Hin as [Hin|[<-|[]]]; [|done].
      destruct (Hall s Hin) as (s' & Hlast & Hs'). exists s'. split; [done|].
      pose proof (last_with_id_id _ _ _ Hlast) as Hid.
      assert (Hk : K <> survey_key (str_of_int (SurveyID s'))).
      { subst K. intros E. split_keys E. injection E as E.
        apply str_of_int_inj in E. congruence. }
      apply survey_stored_frame; [cbn [key_of]; key_ne|].
      by do 2 (apply survey_stored_frame; [done|]).
Qed.

Lemma survey_steps (ss : list survey_json) (d : gmap string entry) :
  well_kinded d ->
  surveys_written now [] d ->
  surveys_written now ss (exec_all now d (flat_map survey_commands ss)).1.
Proof.
  intros Hd H0. induction ss as [|s0 ss IH] using rev_ind; [done|].
  rewrite flat_map_app. cbn [flat_map]. rewrite app_nil_r, exec_all_app.
  apply survey_step; [|done].
  apply exec_all_ok; [done|].
  clear. induction ss as [|s ss IH]; cbn [flat_map]; [constructor|].
  apply Forall_app. split; [apply survey_commands_ok|done].
Qed.

Lemma survey_batch_writes (ss : list survey_json) (d : gmap string entry) :
  well_kinded d ->
  surveys_written now ss
    (exec_all now d
       ([DEL surveys_key] ++ flat_map survey_commands ss
        ++ [EXPIRE surveys_key SURVEY_TTL])).1.
Proof.
  intros Hd. rewrite exec_all_app, (exec_all_app _ (flat_map _ _)).
  rewrite exec_all_cons, exec_all_nil.
  set (d0 := (exec now d (DEL surveys_key)).1).
  assert (Hd0 : well_kinded d0).
  { apply (exec_ok now d (DEL surveys_key) Hd). exact I. }
  assert (H0 : surveys_written now [] d0).
  { split; [apply lookup_del|]. intros s []. }
  destruct (survey_steps ss d0 Hd0 H0) as [Hlist Hall].
  rewrite exec_all_cons, exec_all_nil. split.
  - by apply list_at_expire.
  - intros s Hin. destruct (Hall s Hin) as (s' & Hlast & Hs').
    exists s'. split; [done|].
    apply survey_stored_frame; [cbn [key_of]; key_ne|done].
Qed.

End SurveyBatch.

(** ** The map refresh of one survey *)

Lemma maps_stored_ext (now : Q) (d d' : gmap string entry) (sid : string) :
  d' !! survey_maps_key sid = d !! survey_maps_key sid ->
  (forall i, d' !! survey_map_key sid (str_of_int i)
             = d !! survey_map_key sid (str_of_int i)) ->
  maps_stored now d sid -> maps_stored now d' sid.
Proof.
  intros HL HK (ids & Hlist & Hall). exists ids. split.
  - unfold list_at, lookup in *. by rewrite HL.
  - eapply Forall_impl; [exact Hall|]. intros i.
    unfold map_stored, lookup. by rewrite HK.
Qed.

Lemma maps_pipeline_misses (sid : string) (ms : list map_json) (k : string) :
  k <> survey_maps_key sid ->
  (forall i, k <> survey_map_key sid (str_of_int i)) ->
  Forall (fun c => key_of c <> k)
    ([DEL (survey_maps_key sid)]
     ++ flat_map (maps_commands sid) ms
     ++ [EXPIRE (survey_maps_key sid) SURVEY_TTL]).
Proof.
  intros HL HK.
  apply Forall_app. split; [by repeat constructor|].
  apply Forall_app. split; [|by repeat constructor].
  induction ms as [|m ms IH]; cbn [flat_map]; [constructor|].
  apply Forall_app. split; [|done].
  unfold maps_commands. repeat constructor; cbn [key_of]; try done;
    intros E; by apply (HK (MapID m)).
Qed.

Lemma survey_pipeline_misses (ss : list survey_json) (k : string) :
  k <> surveys_key ->
  (forall i, k <> survey_key (str_of_int i)) ->
  Forall (fun c => key_of c <> k)
    ([DEL surveys_key] ++ flat_map survey_commands ss
     ++ [EXPIRE surveys_key SURVEY_TTL]).
Proof.
  intros HL HK.
  apply Forall_app. split; [by repeat constructor|].
  apply Forall_app. split; [|by repeat constructor].
  induction ss as [|s ss IH]; cbn [flat_map]; [constructor|].
  apply Forall_app. split; [|done].
  unfold survey_commands. repeat constructor; cbn [key_of]; try done;
    intros E; by apply (HK (SurveyID s)).
Qed.

Lemma maps_stored_token_frame (w w' : World) (sid : string) :
  no_colon sid = true ->
  token_frame w w' ->
  maps_stored (clock w) (r w) sid -> maps_stored (clock w) (r w') sid.
Proof.
  intros Hsid (_ & _ & Hfr & _). apply maps_stored_ext.
  - apply Hfr; unfold survey_maps_key; discriminate.
  - intros i. apply Hfr; unfold survey_map_key; discriminate.
Qed.

Lemma cache_maps_for_survey_ok (w : World) (sid : string) (ms : list map_json) :
  no_colon sid = true ->
  can_authenticate w ->
  well_kinded (r w) ->
  maps (upstream w) sid = Some ms ->
  exists w',
    _cache_maps_for_survey sid w = (Return tt, w')
    /\ same_env w w'
    /\ can_authenticate w'
    /\ well_kinded (r w')
    /\ maps_stored (clock w) (r w') sid
    /\ In (GetMaps sid) (sent w')
    /\ (forall sid', no_colon sid' = true -> sid' <> sid ->
          maps_stored (clock w) (r w) sid' -> maps_stored (clock w) (r w') sid').
Proof.
  intros Hsid Hcan Hwk Hmaps.
  destruct (get_bearer_token_ok w Hcan) as (b & w1 & Hb & Hframe).
  pose proof (same_env_get_bearer_token w) as Henv. rewrite Hb in Henv.
  simpl in Henv. destruct Henv as (Hclock & Hups & Hsent).
  pose proof Hframe as (_ & _ & Hfr & Hwk1 & Hcan1). specialize (Hwk1 Hwk).
  unfold _cache_maps_for_survey.
  rewrite (bind_return _ _ _ _ _ Hb), bind_eq. unfold http.
  rewrite Hups, Hmaps, bind_eq. unfold execute.
  rewrite bool_decide_eq_false_2 by done.
  change (clock (requested (GetMaps sid) w1)) with (clock w1).
  change (r (requested (GetMaps sid) w1)) with (r w1).
  set (pipeline := [DEL (survey_maps_key sid)] ++ _ ++ _).
  destruct (exec_all_ok (clock w1) pipeline (r w1) Hwk1
              (maps_pipeline_ok sid Hsid ms)) as [Hwk3 Hok].
  pose proof (maps_batch_stores (clock w1) sid Hsid ms (r w1) Hwk1) as Hst.
  fold pipeline in Hst.
  assert (Hmiss : forall sid', no_colon sid' = true -> sid' <> sid ->
            maps_stored (clock w1) (r w1) sid' ->
            maps_stored (clock w1) (exec_all (clock w1) (r w1) pipeline).1 sid').
  { intros sid' Hsid' Hne. apply maps_stored_ext.
    - apply exec_all_frame, maps_pipeline_misses; [key_ne|intros i; key_ne].
    - intros i. apply exec_all_frame, maps_pipeline_misses; [key_ne|].
      intros j. key_ne. }
  destruct (exec_all (clock w1) (r w1) pipeline) as [d3 reps].
  cbn [fst snd] in *. rewrite Hok. eexists. split; [reflexivity|].
  cbn [fst snd round_trip requested r clock upstream sent access_token
       access_token_expiry]. rewrite <- Hclock.
  split_and!; try done.
  - split_and!; try done. intros q Hq. apply in_or_app. left. by apply Hsent.
  - apply in_or_app. right. by left.
  - intros sid' Hsid' Hne Hst'. apply Hmiss; try done.
    rewrite Hclock. apply (maps_stored_token_frame w w1); try done.
    by rewrite <- Hclock.
Qed.

(** ** The survey refresh *)

Lemma cache_survey_eq (acc : list command) (s : survey_json) (w : World) :
  cache_survey acc s w
  = match _cache_maps_for_survey (str_of_int (SurveyID s)) w with
    | (Return _, w') => (Return (acc ++ survey_commands s), w')
    | (Raise e, w') => (Raise e, w')
    end.
Proof. reflexivity. Qed.

Lemma cache_maps_loop (ss : list survey_json) (w : World) (acc : list command)
    (stored : list Z) :
  can_authenticate w ->
  well_kinded (r w) ->
  (forall s, In s ss -> is_Some (maps (upstream w) (str_of_int (SurveyID s)))) ->
  Forall (fun i => maps_stored (clock w) (r w) (str_of_int i)) stored ->
  exists w',
    for_fold cache_survey ss acc w
    = (Return (acc ++ flat_map survey_commands ss), w')
    /\ same_env w w'
    /\ can_authenticate w'
    /\ well_kinded (r w')
    /\ Forall (fun i => maps_stored (clock w) (r w') (str_of_int i))
         (stored ++ map SurveyID ss)
    /\ (forall s, In s ss -> In (GetMaps (str_of_int (SurveyID s))) (sent w')).
Proof.
  revert w acc stored.
  induction ss as [|s ss IH]; intros w acc stored Hcan Hwk Hmaps Hstored.
  - exists w. simpl. rewrite !app_nil_r. split_and!; try done.
  - destruct (Hmaps s (or_introl eq_refl)) as [ms Hms].
    destruct (cache_maps_for_survey_ok w _ ms (no_colon_str_of_int _) Hcan Hwk Hms)
      as (w1 & Hrun & (Hclock & Hups & Hsent) & Hcan1 & Hwk1 & Hst & Hreq & Hkeep).
    assert (Hstored1 : Forall (fun i => maps_stored (clock w1) (r w1) (str_of_int i))
                         (stored ++ [SurveyID s])).
    { rewrite Hclock. apply Forall_app. split; [|by repeat constructor].
      eapply Forall_impl; [exact Hstored|]. intros i Hi.
      destruct (decide (i = SurveyID s)) as [->|Hne]; [done|].
      apply Hkeep; auto with segments.
      intros E. by apply str_of_int_inj in E. }
    destruct (IH w1 (acc ++ survey_commands s) (stored ++ [SurveyID s]) Hcan1 Hwk1)
      as (w2 & Hloop & (Hclock2 & Hups2 & Hsent2) & Hcan2 & Hwk2 & Hst2 & Hreq2);
      [|done|].
    { intros s' Hs'. rewrite Hups. apply Hmaps. by right. }
    exists w2. cbn [for_fold flat_map map].
    rewrite bind_eq, cache_survey_eq, Hrun, Hloop.
    rewrite <- !app_assoc in *. cbn [app] in Hst2. rewrite Hclock in Hst2.
    split_and!; try done; try congruence.
    + split_and!; try congruence. auto.
    + intros s' [<-|Hs']; auto.
Qed.

Lemma maps_stored_survey_batch (now : Q) (d : gmap string entry)
    (ss : list survey_json) (sid : string) :
  no_colon sid = true ->
  maps_stored now d sid ->
  maps_stored now
    (exec_all now d
       ([DEL surveys_key] ++ flat_map survey_commands ss
        ++ [EXPIRE surveys_key SURVEY_TTL])).1 sid.
Proof.
  intros Hsid. apply maps_stored_ext.
  - apply exec_all_frame, survey_pipeline_misses; [key_ne|intros i; key_ne].
  - intros i. apply exec_all_frame, survey_pipeline_misses; [key_ne|].
    intros j. key_ne.
Qed.

Lemma cache_survey_data_ok (w : World) (ss : list survey_json) :
  can_authenticate w ->
  well_kinded (r w) ->
  surveys (upstream w) = Some ss ->
  (forall s, In s ss -> is_Some (maps (upstream w) (str_of_int (SurveyID s)))) ->
  exists w',
    _cache_survey_data w = (Return tt, w')
    /\ same_env w w'
    /\ well_kinded (r w')
    /\ surveys_written (clock w) ss (r w')
    /\ (forall s, In s ss ->
          maps_stored (clock w) (r w') (str_of_int (SurveyID s)))
    /\ (forall s, In s ss -> In (GetMaps (str_of_int (SurveyID s))) (sent w')).
Proof.
  intros Hcan Hwk Hss Hmaps.
  destruct (get_bearer_token_ok w Hcan) as (b & w1 & Hb & Hframe).
  pose proof (same_env_get_bearer_token w) as Henv. rewrite Hb in Henv.
  simpl in Henv. destruct Henv as (Hclock & Hups & Hsent).
  pose proof Hframe as (_ & _ & Hfr & Hwk1 & Hcan1). specialize (Hwk1 Hwk).
  unfold _cache_survey_data.
  rewrite (bind_return _ _ _ _ _ Hb), bind_eq. unfold http.
  rewrite Hups, Hss, bind_eq.
  destruct (cache_maps_loop ss (requested GetSurveys w1) [DEL surveys_key] []
              Hcan1 Hwk1)
    as (w2 & Hloop & (Hclock2 & Hups2 & Hsent2) & Hcan2 & Hwk2 & Hst2 & Hreq2);
    [|constructor|].
  { intros s Hs. cbn [upstream requested]. rewrite Hups. by apply Hmaps. }
  rewrite Hloop, bind_eq. unfold execute.
  rewrite bool_decide_eq_false_2 by (by destruct (flat_map survey_commands ss)).
  rewrite <- app_assoc.
  set (pipeline := [DEL surveys_key] ++ _ ++ _).
  destruct (exec_all_ok (clock w2) pipeline (r w2) Hwk2 (survey_pipeline_ok ss))
    as [Hwk3 Hok].
  pose proof (survey_batch_writes (clock w2) ss (r w2) Hwk2) as Hwritten.
  fold pipeline in Hwritten.
  assert (Hkeep : forall s, In s ss ->
            maps_stored (clock w2) (exec_all (clock w2) (r w2) pipeline).1
              (str_of_int (SurveyID s))).
  { intros s Hs. apply maps_stored_survey_batch; [auto with segments|].
    cbn [app map] in Hst2. rewrite List.Forall_forall in Hst2.
    cbn [clock requested] in Hclock2, Hst2. rewrite Hclock2.
    apply Hst2. by apply in_map. }
  destruct (exec_all (clock w2) (r w2) pipeline) as [d3 reps].
  cbn [fst snd] in *. rewrite Hok. eexists. split; [reflexivity|].
  cbn [fst snd round_trip requested r clock upstream sent] in *.
  rewrite Hclock2, Hclock in *.
  split_and!; try done.
  unfold same_env. cbn [round_trip clock upstream sent].
  split_and!; try congruence. intros q Hq. apply Hsent2, in_or_app. left. auto.
Qed.

(** ** Reading the surveys back *)

Lemma lrange_slice_upto (l : list string) (stop : Z) :
  l <> [] -> Z.of_nat (length l) - 1 <= stop -> lrange_slice l 0 stop = l.
Proof.
  intros Hne Hstop. unfold lrange_slice.
  assert (Hlen : 0 < Z.of_nat (length l)) by (destruct l; [done|simpl length; lia]).
  cbv zeta. rewrite (proj2 (Z.ltb_ge 0 0)) by lia.
  rewrite (proj2 (Z.ltb_ge stop 0)) by lia.
  rewrite Z.min_r by lia.
  rewrite (proj2 (Z.ltb_ge _ 0)) by lia.
  rewrite (proj2 (Z.leb_gt _ 0)) by lia.
  cbn [orb]. rewrite drop_0. apply take_ge. lia.
Qed.

Lemma list_at_llen (w : World) (k : string) (l : list string) :
  list_at (clock w) (r w) k l -> llen w k = Integer (Z.of_nat (length l)).
Proof.
  unfold list_at, llen. simpl. destruct l as [|x l].
  - by intros ->.
  - by intros [t ->].
Qed.

Lemma list_at_lrange (w : World) (k : string) (l : list string) (stop : Z) :
  list_at (clock w) (r w) k l ->
  Z.of_nat (length l) - 1 <= stop ->
  (exec (clock w) (r w) (LRANGE k 0 stop)).2 = Array l.
Proof.
  unfold list_at. simpl. destruct l as [|x l].
  - by intros ->.
  - intros [t ->] Hstop. simpl. f_equal. by apply lrange_slice_upto.
Qed.

Lemma r_hgetall_hash (k : string) (w : World) (h : gmap string string)
    (t : option Q) :
  lookup (clock w) (r w) k = Some (Entry (RHash h) t) ->
  r_hgetall k w = (Return h, round_trip [HGETALL k] (r w) w).
Proof.
  intros Hl. unfold r_hgetall, redis, mbind, M_bind, bind. simpl.
  by rewrite Hl.
Qed.

Lemma getitem_found (d : gmap string string) (k v : string) (w : World) :
  d !! k = Some v -> getitem d k w = (Return v, w).
Proof. intros H. unfold getitem. by rewrite H. Qed.

Lemma int_str_of_int (z : Z) (w : World) : int (str_of_int z) w = (Return z, w).
Proof. unfold int. by rewrite int_of_str_of_int. Qed.

Lemma str2bool_str_of_bool (b : bool) : _str2bool (str_of_bool b) = b.
Proof. by destruct b; vm_compute. Qed.

Lemma read_map_ok (sid mid : string) (w : World) :
  map_stored (clock w) (r w) sid mid ->
  exists v w',
    read_map sid mid w = (Return v, w')
    /\ r w' = r w /\ clock w' = clock w /\ sent w' = sent w.
Proof.
  intros (h & t & id & name & img & Hl & Hid & Hname & Himg).
  unfold read_map. rewrite bind_eq, (r_hgetall_hash _ _ _ _ Hl).
  rewrite bind_eq, (getitem_found _ _ _ _ Hid).
  rewrite bind_eq, int_str_of_int.
  rewrite bind_eq, (getitem_found _ _ _ _ Hname).
  rewrite bind_eq, (getitem_found _ _ _ _ Himg).
  rewrite bind_eq, int_str_of_int. by eexists _, _.
Qed.

Lemma read_maps_ok (sid : string) (ids : list Z) (acc : list map_view) (w : World) :
  Forall (fun i => map_stored (clock w) (r w) sid (str_of_int i)) ids ->
  exists vs w',
    for_fold
      (fun survey_maps survey_map_id =>
         m ← read_map sid survey_map_id; ret (survey_maps ++ [m]))
      (map str_of_int ids) acc w
    = (Return vs, w')
    /\ r w' = r w /\ clock w' = clock w /\ sent w' = sent w.
Proof.
  revert acc w. induction ids as [|i ids IH]; intros acc w Hall.
  - by exists acc, w.
  - apply Forall_cons in Hall as [Hi Hall].
    destruct (read_map_ok sid _ w Hi) as (v & w1 & Hread & Hr & Hc & Hs).
    destruct (IH (acc ++ [v]) w1) as (vs & w2 & Hloop & Hr2 & Hc2 & Hs2).
    { by rewrite Hr, Hc. }
    exists vs, w2. cbn [map for_fold].
    rewrite bind_eq, bind_eq, Hread. unfold ret at 1. rewrite Hloop.
    split_and!; congruence.
Qed.

Lemma read_survey_ok (s : survey_json) (w : World) :
  survey_stored (clock w) (r w) s ->
  maps_stored (clock w) (r w) (str_of_int (SurveyID s)) ->
  exists v w',
    read_survey (str_of_int (SurveyID s)) w = (Return v, w')
    /\ r w' = r w /\ clock w' = clock w /\ sent w' = sent w
    /\ survey_id v = SurveyID s
    /\ survey_name v = Name s
    /\ survey_active v = Active s
    /\ survey_start_time v = StartTime s
    /\ survey_end_time v = EndTime s.
Proof.
  intros (h & t & Hl & Hid & Hname & Hactive & Hstart & Hend) (ids & Hlist & Hall).
  unfold read_survey. rewrite bind_eq, (r_hgetall_hash _ _ _ _ Hl).
  rewrite bind_eq, (getitem_found _ _ _ _ Hid).
  rewrite bind_eq, int_str_of_int.
  rewrite bind_eq, (getitem_found _ _ _ _ Hname).
  rewrite bind_eq, (getitem_found _ _ _ _ Hactive).
  rewrite bind_eq, (getitem_found _ _ _ _ Hstart).
  rewrite bind_eq, (getitem_found _ _ _ _ Hend).
  set (w1 := round_trip _ _ w).
  assert (Hlist1 : list_at (clock w1) (r w1)
                     (survey_maps_key (str_of_int (SurveyID s)))
                     (map str_of_int ids)) by exact Hlist.
  rewrite bind_eq, r_llen_eq, (list_at_llen _ _ _ Hlist1).
  set (w2 := round_trip _ _ w1).
  assert (Hlist2 : list_at (clock w2) (r w2)
                     (survey_maps_key (str_of_int (SurveyID s)))
                     (map str_of_int ids)) by exact Hlist.
  rewrite bind_eq, r_lrange_eq, (list_at_lrange _ _ _ _ Hlist2) by lia.
  set (w3 := round_trip _ _ w2).
  destruct (read_maps_ok (str_of_int (SurveyID s)) ids [] w3 Hall)
    as (vs & w4 & Hloop & Hr & Hc & Hs).
  rewrite bind_eq, Hloop. eexists _, w4. split; [reflexivity|].
  cbn [survey_id survey_name survey_active survey_start_time survey_end_time].
  rewrite str2bool_str_of_bool. by split_and!.
Qed.

Lemma read_surveys_ok (ss todo : list survey_json) (acc : list survey_view)
    (w : World) :
  (forall s, In s todo ->
     exists s', last_with_id ss (SurveyID s) = Some s'
                /\ survey_stored (clock w) (r w) s') ->
  (forall s, In s todo ->
     maps_stored (clock w) (r w) (str_of_int (SurveyID s))) ->
  exists vs w',
    for_fold
      (fun surveys survey_id =>
         survey ← read_survey survey_id; ret (surveys ++ [survey]))
      (map (fun s => str_of_int (SurveyID s)) todo) acc w
    = (Return (acc ++ vs), w')
    /\ sent w' = sent w
    /\ Forall2 (survey_read_back ss) todo vs.
Proof.
  revert acc w. induction todo as [|s todo IH]; intros acc w Hsurveys Hmaps.
  - exists [], w. rewrite app_nil_r. split_and!; [done|done|constructor].
  - destruct (Hsurveys s (or_introl eq_refl)) as (s' & Hlast & Hs').
    pose proof (last_with_id_id _ _ _ Hlast) as Hid.
    pose proof (Hmaps s (or_introl eq_refl)) as Hm. rewrite <- Hid in Hm.
    destruct (read_survey_ok s' w Hs' Hm)
      as (v & w1 & Hread & Hr & Hc & Hsent & Hv1 & Hv2 & Hv3 & Hv4 & Hv5).
    rewrite Hid in Hread.
    destruct (IH (acc ++ [v]) w1) as (vs & w2 & Hloop & Hsent2 & Hall).
    { intros x Hx. rewrite Hr, Hc. apply Hsurveys. by right. }
    { intros x Hx. rewrite Hr, Hc. apply Hmaps. by right. }
    exists (v :: vs), w2. cbn [map for_fold].
    rewrite bind_eq, bind_eq, Hread. unfold ret at 1. rewrite Hloop.
    rewrite <- app_assoc. split_and!; [done|congruence|].
    constructor; [|done]. split; [congruence|]. by exists s'.
Qed.

Lemma well_kinded_empty : well_kinded ∅.
Proof. intros k e kd H. by rewrite lookup_empty in H. Qed.

(** The part of [get_surveys] that follows the refresh. *)
Lemma get_surveys_read (w : World) (ss : list survey_json) :
  surveys_written (clock w) ss (r w) ->
  (forall s, In s ss -> maps_stored (clock w) (r w) (str_of_int (SurveyID s))) ->
  exists views w',
    (n ← r_llen surveys_key;
     survey_ids ← r_lrange surveys_key 0 (n - 1);
     for_fold
       (fun surveys survey_id =>
          survey ← read_survey survey_id; ret (surveys ++ [survey]))
       survey_ids []) w
    = (Return views, w')
    /\ sent w' = sent w
    /\ Forall2 (survey_read_back ss) (rev ss) views.
Proof.
  intros [Hlist Hstored] Hmst.
  set (ids := rev (map (fun s => str_of_int (SurveyID s)) ss)) in *.
  rewrite bind_eq, r_llen_eq, (list_at_llen _ _ _ Hlist).
  set (w3 := round_trip _ _ w).
  assert (Hlist3 : list_at (clock w3) (r w3) surveys_key ids) by exact Hlist.
  rewrite bind_eq, r_lrange_eq, (list_at_lrange _ _ _ _ Hlist3) by lia.
  set (w4 := round_trip _ _ w3).
  subst ids. rewrite <- map_rev.
  destruct (read_surveys_ok ss (rev ss) [] w4) as (vs & w5 & Hloop & Hsent5 & Hall).
  { intros s Hs. apply Hstored. by apply in_rev. }
  { intros s Hs. apply Hmst. by apply in_rev. }
  exists vs, w5. rewrite Hloop. by split_and!.
Qed.

(** Starting from an empty cache, [get_surveys] refreshes surveys and maps
    and reads every survey back, in the reverse of the upstream order. *)
Lemma get_surveys_fresh (w : World) (ss : list survey_json) :
  r w = ∅ ->
  can_authenticate w ->
  surveys (upstream w) = Some ss ->
  (forall s, In s ss -> is_Some (maps (upstream w) (str_of_int (SurveyID s)))) ->
  exists views w',
    get_surveys w = (Return views, w')
    /\ Forall2 (survey_read_back ss) (rev ss) views
    /\ count_requests GetSurveys (sent w') = S (count_requests GetSurveys (sent w))
    /\ (forall s, In s ss -> In (GetMaps (str_of_int (SurveyID s))) (sent w')).
Proof.
  intros Hempty Hcan Hss Hmaps. unfold get_surveys.
  assert (Hlen0 : llen w surveys_key = Integer 0).
  { unfold llen. simpl. unfold lookup. by rewrite Hempty, lookup_empty. }
  rewrite bind_eq, r_llen_eq, Hlen0. cbn [Z.eqb].
  set (w1 := round_trip _ _ w).
  assert (Hwk1 : well_kinded (r w1)).
  { subst w1. cbn [r round_trip]. rewrite Hempty. apply well_kinded_empty. }
  destruct (cache_survey_data_ok w1 ss Hcan Hwk1 Hss Hmaps)
    as (w2 & Hrun & (Hclock & Hups & Hsent) & Hwk2 & Hwritten & Hmst & Hreq).
  pose proof (cache_survey_data_requests_once _ _ Hrun) as Hcount.
  rewrite bind_eq, Hrun.
  change (clock w1) with (clock w) in *. rewrite <- Hclock in Hwritten, Hmst.
  destruct (get_surveys_read w2 ss Hwritten Hmst) as (vs & w5 & Hread & Hsent5 & Hall).
  exists vs, w5. rewrite Hread. split_and!; [done|done| |].
  - rewrite Hsent5. exact Hcount.
  - intros s Hs. rewrite Hsent5. by apply Hreq.
Qed.

(** A call of [get_surveys] that finds the surveys [ss] in the cache serves
    them from it. *)
Lemma get_surveys_cached (w : World) (ss : list survey_json) :
  ss <> [] ->
  surveys_written (clock w) ss (r w) ->
  (forall s, In s ss -> maps_stored (clock w) (r w) (str_of_int (SurveyID s))) ->
  exists views w',
    get_surveys w = (Return views, w')
    /\ sent w' = sent w
    /\ Forall2 (survey_read_back ss) (rev ss) views.
Proof.
  intros Hne Hwritten Hmst. unfold get_surveys.
  rewrite bind_eq, r_llen_eq, (list_at_llen _ _ _ (proj1 Hwritten)).
  rewrite length_rev, length_map.
  assert (Hn : (Z.of_nat (length ss) =? 0) = false).
  { apply Z.eqb_neq. destruct ss; [done|simpl length; lia]. }
  rewrite Hn, bind_eq. unfold ret at 1.
  apply (get_surveys_read (round_trip [LLEN surveys_key] (r w) w) ss Hwritten Hmst).
Qed.

(** ** Order and flags of the surveys read back *)

Lemma read_back_ids (ss todo : list survey_json) (views : list survey_view) :
  Forall2 (survey_read_back ss) todo views ->
  map survey_id views = map SurveyID todo.
Proof.
  induction 1 as [|s v todo views [Hid _] _ IH]; [done|].
  simpl. by rewrite Hid, IH.
Qed.

Lemma descending_rev_ascending (l : list Z) :
  Sorted Z.gt l -> Sorted Z.lt (rev l).
Proof.
  intros H. apply Sorted_reverse in H. rewrite rev_alt.
  change (rev_append l []) with (reverse l).
  induction H as [|x l' Hs IH Hhd]; constructor; [done|].
  destruct Hhd as [|y l'' Hxy]; constructor. unfold flip in Hxy. lia.
Qed.

(** C4. Starting from an empty cache, [get_surveys] sends the surveys
    request once and a maps request for every survey, and returns the
    surveys in the reverse of the upstream order; when upstream lists them
    by descending id, the result is in ascending id order. *)
Theorem get_surveys_ascending (w : World) (ss : list survey_json) :
  r w = ∅ ->
  can_authenticate w ->
  surveys (upstream w) = Some ss ->
  (forall s, In s ss -> is_Some (maps (upstream w) (str_of_int (SurveyID s)))) ->
  Sorted Z.gt (map SurveyID ss) ->
  exists views w',
    get_surveys w = (Return views, w')
    /\ count_requests GetSurveys (sent w') = S (count_requests GetSurveys (sent w))
    /\ (forall s, In s ss -> In (GetMaps (str_of_int (SurveyID s))) (sent w'))
    /\ map survey_id views = rev (map SurveyID ss)
    /\ Sorted Z.lt (map survey_id views).
Proof.
  intros Hempty Hcan Hss Hmaps Hdesc.
  destruct (get_surveys_fresh w ss Hempty Hcan Hss Hmaps)
    as (views & w' & Hrun & Hall & Hcount & Hreq).
  exists views, w'.
  assert (Hids : map survey_id views = rev (map SurveyID ss)).
  { rewrite (read_back_ids _ _ _ Hall). apply map_rev. }
  split_and!; try done. rewrite Hids. by apply descending_rev_ascending.
Qed.

Lemma get_surveys_ascending_witness :
  exists views w',
    get_surveys (Scenario.cold Scenario.campus) = (Return views, w')
    /\ count_requests GetSurveys (sent w')
       = S (count_requests GetSurveys (sent (Scenario.cold Scenario.campus)))
    /\ (forall s, In s [ {| SurveyID := 42; Active := true; Name := "Library";
                           StartTime := "2018-01-01"; EndTime := "2019-01-01" |};
                        {| SurveyID := 7; Active := false; Name := "Science";
                           StartTime := "2017-01-01"; EndTime := "2018-01-01" |} ] ->
          In (GetMaps (str_of_int (SurveyID s))) (sent w'))
    /\ map survey_id views = rev (map SurveyID
         [ {| SurveyID := 42; Active := true; Name := "Library";
              StartTime := "2018-01-01"; EndTime := "2019-01-01" |};
           {| SurveyID := 7; Active := false; Name := "Science";
              StartTime := "2017-01-01"; EndTime := "2018-01-01" |} ])
    /\ Sorted Z.lt (map survey_id views).
Proof.
  apply (get_surveys_ascending (Scenario.cold Scenario.campus)).
  - reflexivity.
  - right. split; [|discriminate]. vm_compute. eauto.
  - reflexivity.
  - intros s [<-|[<-|[]]]; vm_compute; eauto.
  - repeat constructor.
Defined.

(** C5. After the survey populator has run, [get_surveys] serves the
    surveys from the cache, and a survey that upstream listed with
    [Active = true] (the one listed last under its id, whose record is the
    one the cache keeps) is read back with the boolean [true]. *)
Theorem survey_active_round_trip
    (w : World) (ss : list survey_json) (s : survey_json) :
  well_kinded (r w) ->
  can_authenticate w ->
  surveys (upstream w) = Some ss ->
  (forall s, In s ss -> is_Some (maps (upstream w) (str_of_int (SurveyID s)))) ->
  last_with_id ss (SurveyID s) = Some s ->
  Active s = true ->
  exists w1 views w2,
    _cache_survey_data w = (Return tt, w1)
    /\ get_surveys w1 = (Return views, w2)
    /\ sent w2 = sent w1
    /\ (exists v, In v views /\ survey_id v = SurveyID s)
    /\ (forall v, In v views -> survey_id v = SurveyID s -> survey_active v = true).
Proof.
  intros Hwk Hcan Hss Hmaps Hlast Hactive.
  destruct (cache_survey_data_ok w ss Hcan Hwk Hss Hmaps)
    as (w1 & Hrun & (Hclock & Hups & Hsent) & Hwk1 & Hwritten & Hmst & Hreq).
  pose proof (last_with_id_in _ _ _ Hlast) as Hin.
  rewrite <- Hclock in Hwritten, Hmst.
  destruct (get_surveys_cached w1 ss) as (views & w2 & Hread & Hsent2 & Hall);
    [by destruct ss|done|done|].
  exists w1, views, w2. split_and!; try done.
  - apply in_rev in Hin. revert Hin. clear -Hall.
    induction Hall as [|x v todo views [Hid _] _ IH]; [done|].
    intros [->|Hin]; [exists v; split; [by left|done]|].
    destruct (IH Hin) as (v' & Hv' & Hid'). exists v'. split; [by right|done].
  - intros v Hv Hid. clear -Hall Hv Hid Hlast Hactive.
    induction Hall as [|x v' todo views [Hid' (s' & Hlast' & _ & Hact & _)] _ IH];
      [done|].
    destruct Hv as [->|Hv]; [|by apply IH].
    rewrite Hid in Hid'. rewrite <- Hid' in Hlast'. congruence.
Qed.

Lemma survey_active_round_trip_witness :
  let w := Scenario.cold Scenario.campus in
  let s := {| SurveyID := 42; Active := true; Name := "Library";
              StartTime := "2018-01-01"; EndTime := "2019-01-01" |} in
  exists w1 views w2,
    _cache_survey_data w = (Return tt, w1)
    /\ get_surveys w1 = (Return views, w2)
    /\ sent w2 = sent w1
    /\ (exists v, In v views /\ survey_id v = SurveyID s)
    /\ (forall v, In v views -> survey_id v = SurveyID s -> survey_active v = true).
Proof.
  apply (survey_active_round_trip (Scenario.cold Scenario.campus)
           [ {| SurveyID := 42; Active := true; Name := "Library";
                StartTime := "2018-01-01"; EndTime := "2019-01-01" |};
             {| SurveyID := 7; Active := false; Name := "Science";
                StartTime := "2017-01-01"; EndTime := "2018-01-01" |} ]).
  - apply well_kinded_empty.
  - right. split; [|discriminate]. vm_compute. eauto.
  - reflexivity.
  - intros s [<-|[<-|[]]]; vm_compute; eauto.
  - reflexivity.
  - reflexivity.
Defined.

(** ** The two entries of an image *)

Global Instance pairs_kept_preorder : PreOrder pairs_kept.
Proof.
  split.
  - intros w H. exact H.
  - intros w1 w2 w3 H12 H23 H. by apply H23, H12.
Qed.

Lemma exec_read (now : Q) (d : gmap string entry) (c : command) :
  writes c = false -> (exec now d c).1 = d.
Proof.
  destruct c; try discriminate; intros _; simpl;
    by destruct (lookup now d k) as [[[]]|].
Qed.

Lemma is_image_key_base64 (i : string) : is_image_key (image_base64_key i) = true.
Proof. reflexivity. Qed.

Lemma is_image_key_content_type (i : string) :
  is_image_key (image_content_type_key i) = true.
Proof. reflexivity. Qed.

Lemma images_paired_exec (now : Q) (d : gmap string entry) (c : command) :
  spares_images c -> images_paired d -> images_paired (exec now d c).1.
Proof.
  intros [Hread|Hkey] Hd; [by rewrite exec_read|].
  intros i Hi. unfold image_pair.
  rewrite !exec_frame; [by apply Hd| |].
  - intros E. rewrite E, is_image_key_content_type in Hkey. discriminate.
  - intros E. rewrite E, is_image_key_base64 in Hkey. discriminate.
Qed.

Lemma images_paired_exec_all (now : Q) (cs : list command) (d : gmap string entry) :
  Forall spares_images cs -> images_paired d ->
  images_paired (exec_all now d cs).1.
Proof.
  revert d. induction cs as [|c cs IH]; intros d Hcs Hd; [done|].
  apply Forall_cons in Hcs as [Hc Hcs]. rewrite exec_all_cons.
  apply IH; [done|]. by apply images_paired_exec.
Qed.

Lemma pairs_kept_redis (c : command) :
  spares_images c -> preserves pairs_kept (redis c).
Proof.
  intros Hc w. rewrite redis_world. intros H.
  by apply images_paired_exec.
Qed.

Lemma pairs_kept_execute (cs : list command) :
  Forall spares_images cs -> preserves pairs_kept (execute cs).
Proof.
  intros Hcs w. destruct (decide (cs = [])) as [->|Hne]; [by intros H|].
  rewrite execute_world by done. intros H. by apply images_paired_exec_all.
Qed.

Lemma Forall_flat_map {A B} (P : B -> Prop) (f : A -> list B) (l : list A) :
  (forall x, Forall P (f x)) -> Forall P (flat_map f l).
Proof.
  intros H. induction l as [|x l IH]; cbn [flat_map]; [constructor|].
  apply Forall_app. by split.
Qed.

Lemma Forall_map_all {A B} (P : B -> Prop) (f : A -> B) (l : list A) :
  (forall x, P (f x)) -> Forall P (map f l).
Proof. intros H. induction l; simpl; by constructor. Qed.

Ltac spares :=
  solve [ left; reflexivity | right; reflexivity ].

Ltac spares_all :=
  repeat first
    [ apply Forall_app; split
    | apply Forall_flat_map; intros ?
    | apply Forall_map_all; intros ?
    | apply Forall_cons; split
    | apply List.Forall_nil
    | spares ].

Ltac pairs_step :=
  first
    [ apply pairs_kept_redis; spares
    | apply pairs_kept_execute; spares_all
    | preserves_step
    | (unfold preserves, pairs_kept; intros ? H; exact H)
    | (unfold preserves, pairs_kept, http; intros ? H; case_match; exact H) ].

Lemma pairs_kept_get_token : preserves pairs_kept get_token.
Proof. unfold get_token, r_set. repeat pairs_step. Qed.

Lemma pairs_kept_get_bearer_token : preserves pairs_kept get_bearer_token.
Proof.
  unfold get_bearer_token, token_valid.
  repeat first [apply pairs_kept_get_token | pairs_step].
Qed.

Lemma pairs_kept_init (test_mode : bool) : preserves pairs_kept (init test_mode).
Proof.
  unfold init, r_get, int.
  repeat first [apply pairs_kept_get_token | pairs_step].
Qed.

Lemma pairs_kept_cache_maps_for_survey (survey_id : string) :
  preserves pairs_kept (_cache_maps_for_survey survey_id).
Proof.
  unfold _cache_maps_for_survey.
  repeat first [apply pairs_kept_get_bearer_token | pairs_step].
Qed.

Lemma pairs_kept_maps_loop (ss : list survey_json) (acc : list command)
    (w : World) :
  Forall spares_images acc ->
  images_paired (r w) ->
  let res := for_fold cache_survey ss acc w in
  images_paired (r res.2)
  /\ forall p, res.1 = Return p -> Forall spares_images p.
Proof.
  revert acc w. induction ss as [|s ss IH]; intros acc w Hacc Hw; cbv zeta.
  - simpl. split; [done|]. by intros p [= <-].
  - cbn [for_fold]. rewrite bind_eq, cache_survey_eq.
    pose proof (pairs_kept_cache_maps_for_survey
                  (str_of_int (SurveyID s)) w Hw) as Hw'.
    destruct (_cache_maps_for_survey (str_of_int (SurveyID s)) w)
      as [[[]|e] w'].
    + apply IH; [|done].
      apply Forall_app. split; [done|]. unfold survey_commands. spares_all.
    + split; [done|]. by intros p.
Qed.

Lemma pairs_kept_cache_survey_data : preserves pairs_kept _cache_survey_data.
Proof.
  unfold _cache_survey_data.
  apply preserves_bind; [apply _|apply pairs_kept_get_bearer_token|intros _].
  apply preserves_bind; [apply _|pairs_step|intros ss].
  unfold pairs_kept. intros w Hw. rewrite bind_eq.
  destruct (pairs_kept_maps_loop ss [DEL surveys_key] w) as [Hw1 Hp];
    [spares_all|done|].
  destruct (for_fold cache_survey ss [DEL surveys_key] w) as [[p|e] w1]; [|done].
  cbn [fst snd] in *. rewrite bind_eq.
  assert (Hall : Forall spares_images (p ++ [EXPIRE surveys_key SURVEY_TTL])).
  { apply Forall_app. split; [by apply Hp|spares_all]. }
  pose proof (pairs_kept_execute _ Hall w1 Hw1) as Hex.
  by destruct (execute _ w1) as [[reps|e] w2].
Qed.

Lemma pairs_kept_get_surveys : preserves pairs_kept get_surveys.
Proof.
  unfold get_surveys, read_survey, read_map, r_llen, r_lrange, r_hgetall,
    getitem, int.
  repeat first [apply pairs_kept_cache_survey_data | pairs_step].
Qed.

Lemma pairs_kept_cache_all_survey_sensor_states (survey_id : string) :
  preserves pairs_kept (_cache_all_survey_sensor_states survey_id).
Proof.
  unfold _cache_all_survey_sensor_states.
  repeat first [apply pairs_kept_get_bearer_token | pairs_step].
Qed.

Lemma pairs_kept_cache_sensors_for_map (survey_id map_id : string) :
  preserves pairs_kept (_cache_sensors_for_map survey_id map_id).
Proof.
  unfold _cache_sensors_for_map.
  repeat first [apply pairs_kept_get_bearer_token | pairs_step].
Qed.

Lemma pairs_kept_get_map_sensors (survey_id : string) (return_states : bool)
    (map_id : string) :
  preserves pairs_kept (get_map_sensors survey_id return_states map_id).
Proof.
  unfold get_map_sensors, r_llen, r_lrange, r_hgetall, r_get, as_dict,
    getitem, odict_setitem.
  repeat first [ apply pairs_kept_cache_sensors_for_map
               | apply pairs_kept_cache_all_survey_sensor_states
               | pairs_step ].
Qed.

Lemma pairs_kept_get_survey_sensors (survey_id : string) (return_states : bool) :
  preserves pairs_kept (get_survey_sensors survey_id return_states).
Proof.
  unfold get_survey_sensors, r_llen, r_lrange.
  repeat first [ apply pairs_kept_cache_survey_data
               | apply pairs_kept_get_map_sensors
               | pairs_step ].
Qed.

(** *** The image batch *)

Lemma exec_set_expire (now : Q) (d : gmap string entry) (k v : string)
    (seconds : Z) :
  0 < seconds ->
  (exec_all now d [SET k v; EXPIRE k seconds]).1
  = <[k := Entry (RString v) (Some (now + inject_Z seconds)%Q)]> d.
Proof.
  intros Hpos. rewrite !exec_all_cons, exec_all_nil.
  cbn [exec fst]. rewrite lookup_insert_live by done.
  rewrite (proj2 (Z.leb_gt seconds 0)) by lia. cbn [fst value].
  by rewrite insert_insert_eq.
Qed.

Lemma image_batch_eq (now : Q) (d : gmap string entry) (image_id b c : string) :
  (exec_all now d
     [ SET (image_base64_key image_id) b;
       EXPIRE (image_base64_key image_id) IMAGE_TTL;
       SET (image_content_type_key image_id) c;
       EXPIRE (image_content_type_key image_id) IMAGE_TTL ]).1
  = <[image_content_type_key image_id
        := Entry (RString c) (Some (now + inject_Z IMAGE_TTL)%Q)]>
      (<[image_base64_key image_id
           := Entry (RString b) (Some (now + inject_Z IMAGE_TTL)%Q)]> d).
Proof.
  change [SET (image_base64_key image_id) b; EXPIRE (image_base64_key image_id) IMAGE_TTL;
          SET (image_content_type_key image_id) c;
          EXPIRE (image_content_type_key image_id) IMAGE_TTL]
    with ([SET (image_base64_key image_id) b;
           EXPIRE (image_base64_key image_id) IMAGE_TTL]
          ++ [SET (image_content_type_key image_id) c;
              EXPIRE (image_content_type_key image_id) IMAGE_TTL]).
  rewrite exec_all_app. by rewrite !exec_set_expire.
Qed.

Lemma image_keys_ne (i j : string) :
  no_colon i = true -> no_colon j = true ->
  image_base64_key i <> image_content_type_key j.
Proof. intros Hi Hj. key_ne. Qed.

Lemma image_base64_key_inj (i j : string) :
  no_colon i = true -> no_colon j = true ->
  image_base64_key i = image_base64_key j -> i = j.
Proof. intros Hi Hj E. split_keys E. congruence. Qed.

Lemma image_content_type_key_inj (i j : string) :
  no_colon i = true -> no_colon j = true ->
  image_content_type_key i = image_content_type_key j -> i = j.
Proof. intros Hi Hj E. split_keys E. congruence. Qed.

Lemma image_batch_pairs (now : Q) (d : gmap string entry) (image_id b c : string) :
  no_colon image_id = true ->
  images_paired d ->
  images_paired
    (exec_all now d
       [ SET (image_base64_key image_id) b;
         EXPIRE (image_base64_key image_id) IMAGE_TTL;
         SET (image_content_type_key image_id) c;
         EXPIRE (image_content_type_key image_id) IMAGE_TTL ]).1.
Proof.
  intros Hid Hd j Hj. rewrite image_batch_eq. unfold image_pair.
  destruct (decide (j = image_id)) as [->|Hne].
  - right. exists b, c, (Some (now + inject_Z IMAGE_TTL)%Q).
    rewrite lookup_insert_ne by (apply not_eq_sym; by apply image_keys_ne).
    by rewrite !lookup_insert_eq.
  - assert (image_content_type_key image_id <> image_base64_key j)
      by (apply not_eq_sym; by apply image_keys_ne).
    assert (image_base64_key image_id <> image_base64_key j)
      by (intros E; apply image_base64_key_inj in E; done).
    assert (image_content_type_key image_id <> image_content_type_key j)
      by (intros E; apply image_content_type_key_inj in E; done).
    assert (image_base64_key image_id <> image_content_type_key j)
      by (by apply image_keys_ne).
    rewrite !lookup_insert_ne by done. by apply Hd.
Qed.

Lemma pairs_kept_cache_image (image_id : string) :
  no_colon image_id = true -> preserves pairs_kept (_cache_image image_id).
Proof.
  intros Hid. unfold _cache_image.
  apply preserves_bind; [apply _|apply pairs_kept_get_bearer_token|intros _].
  apply preserves_bind; [apply _|repeat pairs_step|intros [request content_type]].
  apply preserves_bind; [apply _| |intros ?; apply preserves_ret; apply _].
  intros w. rewrite execute_world by done. intros Hw.
  by apply image_batch_pairs.
Qed.

Lemma pairs_kept_get_image (image_id : string) :
  preserves pairs_kept (get_image image_id).
Proof.
  unfold get_image. destruct (isdigit image_id) eqn:Hd; cbn [negb].
  - unfold r_exists, r_get.
    repeat first [ apply pairs_kept_cache_image; by apply no_colon_isdigit
                 | pairs_step ].
  - apply preserves_raise. apply _.
Qed.

Lemma reachable_images_paired (w : World) : reachable w -> images_paired (r w).
Proof.
  induction 1 as [w Hempty|w w' _ IH Hr|w test_mode _ IH|w _ IH|w _ IH
                 |w image_id _ IH|w survey_id return_states _ IH].
  - intros i _. left. by rewrite Hempty, !lookup_empty.
  - by rewrite Hr.
  - by apply pairs_kept_init.
  - by apply pairs_kept_get_bearer_token.
  - by apply pairs_kept_get_surveys.
  - by apply pairs_kept_get_image.
  - by apply pairs_kept_get_survey_sensors.
Qed.

Lemma cache_image_writes (w w' : World) (image_id : string) :
  no_colon image_id = true ->
  _cache_image image_id w = (Return tt, w') ->
  exists b c earlier,
    clock w' = clock w
    /\ r w' !! image_base64_key image_id
       = Some (Entry (RString b) (Some (clock w + inject_Z IMAGE_TTL)%Q))
    /\ r w' !! image_content_type_key image_id
       = Some (Entry (RString c) (Some (clock w + inject_Z IMAGE_TTL)%Q))
    /\ executed w'
       = earlier
         ++ [[ SET (image_base64_key image_id) b;
               EXPIRE (image_base64_key image_id) IMAGE_TTL;
               SET (image_content_type_key image_id) c;
               EXPIRE (image_content_type_key image_id) IMAGE_TTL ]].
Proof.
  intros Hid. unfold _cache_image. rewrite bind_eq.
  pose proof (same_env_get_bearer_token w) as (Hclock & _ & _).
  destruct (get_bearer_token w) as [[bearer|e] w1]; [|discriminate].
  cbn [snd] in Hclock. rewrite bind_eq.
  unfold try_except_raise, http. rewrite bind_eq.
  destruct (images (upstream w1) image_id) as [request|]; [|discriminate].
  destruct (content_type_header request) as [content_type|]; [|discriminate].
  unfold ret at 1. rewrite bind_eq. unfold execute.
  rewrite bool_decide_eq_false_2 by done.
  set (w2 := requested (GetImage image_id) w1).
  pose proof (image_batch_eq (clock w2) (r w2) image_id
                (b64encode (content request)) content_type) as Hbatch.
  destruct (exec_all (clock w2) (r w2) _) as [d reps].
  cbn [fst] in Hbatch. destruct (existsb is_error reps); [discriminate|].
  intros [= <-]. exists (b64encode (content request)), content_type, (executed w1).
  cbn [round_trip clock r executed]. subst d w2. cbn [requested clock r executed].
  rewrite Hclock. split_and!; try done.
  - rewrite lookup_insert_ne by (apply not_eq_sym; by apply image_keys_ne).
    by rewrite lookup_insert_eq.
  - by rewrite lookup_insert_eq.
Qed.

Lemma image_pair_both_visible (now : Q) (d : gmap string entry) (image_id : string) :
  image_pair d image_id ->
  (lookup now d (image_base64_key image_id) = None
   /\ lookup now d (image_content_type_key image_id) = None)
  \/ (exists b c t,
        lookup now d (image_base64_key image_id) = Some (Entry (RString b) t)
        /\ lookup now d (image_content_type_key image_id)
           = Some (Entry (RString c) t)).
Proof.
  intros [[Hb Hc]|(b & c & t & Hb & Hc)]; unfold lookup; rewrite Hb, Hc.
  - by left.
  - unfold live. simpl. destruct t as [t|]; [|right; eauto].
    destruct (Qle_bool now t); [right; eauto|by left].
Qed.

Lemma r_get_string (k : string) (w : World) (v : string) (t : option Q) :
  lookup (clock w) (r w) k = Some (Entry (RString v) t) ->
  r_get k w = (Return (Some v), round_trip [GET k] (r w) w).
Proof.
  intros Hl. unfold r_get, redis, mbind, M_bind, bind. simpl. by rewrite Hl.
Qed.

(** *** The round trips of [get_image], each at its own instant *)

Lemma at_instant_now (w : World) : at_instant (clock w) w = (Return tt, w).
Proof. by destruct w. Qed.

Lemma r_at_instant (t : Q) (w : World) : r (at_instant t w).2 = r w.
Proof. reflexivity. Qed.

Lemma clock_cache_image (image_id : string) (w : World) :
  clock (_cache_image image_id w).2 = clock w.
Proof.
  unfold _cache_image. rewrite bind_eq.
  pose proof (same_env_get_bearer_token w) as (Hclock & _ & _).
  destruct (get_bearer_token w) as [[bearer|e] w1]; [|done].
  cbn [snd] in Hclock. rewrite bind_eq.
  unfold try_except_raise, http. rewrite bind_eq.
  destruct (images (upstream w1) image_id) as [request|]; [|done].
  destruct (content_type_header request) as [content_type|]; [|done].
  unfold ret at 1. rewrite bind_eq. unfold execute.
  rewrite bool_decide_eq_false_2 by done.
  destruct (exec_all _ _ _) as [d reps].
  by destruct (existsb is_error reps).
Qed.

(** When no time passes between its round trips, [get_image_at] is
    [get_image]. *)
Lemma get_image_at_now (image_id : string) (w : World) :
  get_image_at (clock w) (clock w) (clock w) image_id w = get_image image_id w.
Proof.
  unfold get_image_at, get_image. destruct (isdigit image_id); [|done].
  cbn [negb]. rewrite !(bind_eq (r_exists _)).
  destruct (r_exists (image_base64_key image_id) w) as [[cached|e] w1] eqn:Hex;
    [|done].
  assert (Hc1 : clock w1 = clock w).
  { revert Hex. unfold r_exists, redis. rewrite bind_eq.
    destruct (exec _ _ _) as [d rep]. cbn [fst snd].
    destruct (is_error rep); [discriminate|].
    destruct rep; try discriminate; by intros [= _ <-]. }
  rewrite <- Hc1 at 1. rewrite bind_eq, at_instant_now.
  rewrite !(bind_eq (if negb cached then _ else _)).
  pose proof (clock_cache_image image_id w1) as Hc2.
  assert (Hc3 : clock ((if negb cached then _cache_image image_id else ret tt) w1).2
                = clock w).
  { destruct cached; cbn [negb]; [done|]. by rewrite Hc2. }
  destruct ((if negb cached then _cache_image image_id else ret tt) w1)
    as [[[]|e] w2]; [|done].
  cbn [snd] in Hc3. rewrite <- Hc3 at 1. rewrite bind_eq, at_instant_now.
  rewrite !(bind_eq (r_get _)).
  destruct (r_get (image_base64_key image_id) w2) as [[b|e] w3] eqn:Hget; [|done].
  assert (Hc4 : clock w3 = clock w).
  { revert Hget. unfold r_get, redis. rewrite bind_eq.
    destruct (exec _ _ _) as [d rep]. cbn [fst snd].
    destruct (is_error rep); [discriminate|].
    destruct rep; try discriminate; intros [= _ <-]; exact Hc3. }
  rewrite <- Hc4. by rewrite bind_eq, at_instant_now.
Qed.

Lemma live_earlier (now now' : Q) (e : entry) :
  (now' <= now)%Q -> live now e = true -> live now' e = true.
Proof.
  unfold live. destruct (expires_at e) as [t|]; [|done].
  rewrite !Qle_bool_iff. intros H1 H2. by apply (Qle_trans _ now).
Qed.

Lemma lookup_of_raw (now : Q) (d : gmap string entry) (k : string) (e : entry) :
  d !! k = Some e -> live now e = true -> lookup now d k = Some e.
Proof. intros Hk Hl. unfold lookup. by rewrite Hk, Hl. Qed.

Lemma live_of_visible (now : Q) (d : gmap string entry) (k : string)
    (e : entry) :
  d !! k = Some e -> is_Some (lookup now d k) -> live now e = true.
Proof.
  intros Hk [e' He']. unfold lookup in He'. rewrite Hk in He'.
  by destruct (live now e).
Qed.

(** C8, as stated, fails: the read path does not always return both
    values or neither. It makes its two GETs in two round trips; on a cache
    that [get_image] itself has filled, when the entries expire between the
    two, it returns the payload without its content type: one entry seen,
    the other expired. *)
Lemma get_image_returns_payload_without_content_type :
  ~ (forall (w : World) (image_id : string) (t1 t2 t3 : Q)
            (o : option string * option string) (w' : World),
       reachable w ->
       isdigit image_id = true ->
       (clock w <= t1)%Q -> (t1 <= t2)%Q -> (t2 <= t3)%Q ->
       get_image_at t1 t2 t3 image_id w = (Return o, w') ->
       (exists b c, o = (Some b, Some c)) \/ o = (None, None)).
Proof.
  intros claim.
  assert (H : (exists b c : string, (Some "TWFu", @None string) = (Some b, Some c))
              \/ (Some "TWFu", @None string) = (None, None)).
  { apply (claim Scenario.image_expiring "7"
             (inject_Z 173800) (inject_Z 173800) (173800001 # 1000)
             (Some "TWFu", None)
             (get_image_at (inject_Z 173800) (inject_Z 173800)
                (173800001 # 1000) "7" Scenario.image_expiring).2).
    - apply (reachable_env (get_image "7" (Scenario.cold Scenario.campus)).2).
      + apply reachable_get_image. apply reachable_empty. reflexivity.
      + exact (r_at_instant _ _).
    - reflexivity.
    - unfold Scenario.image_expiring, at_instant. cbn [snd clock].
      apply Qle_refl.
    - apply Qle_refl.
    - apply Qle_bool_iff. vm_compute. reflexivity.
    - vm_compute. reflexivity. }
  destruct H as [(b & c & H)|H]; discriminate.
Qed.

(** C8, amended. On any cache the class has built, for a digits-only image
    id: the image populator, when it completes, leaves the payload and the
    content type as two string entries with one expiry instant (the clock
    plus [IMAGE_TTL]), written by one batch of four commands; at every
    instant the two entries are both visible or both gone; and [get_image],
    whose round trips are made at the clock, [t1], [t2] and [t3], returns
    the two values that the cache holds, provided the second GET comes no
    later than [IMAGE_TTL] after the populator and a payload that is
    visible when the call starts is still visible at the second GET. *)
Theorem image_entries_travel_together (w : World) (image_id : string) :
  reachable w ->
  isdigit image_id = true ->
  (forall w', _cache_image image_id w = (Return tt, w') ->
     exists b c earlier,
       r w' !! image_base64_key image_id
       = Some (Entry (RString b) (Some (clock w + inject_Z IMAGE_TTL)%Q))
       /\ r w' !! image_content_type_key image_id
          = Some (Entry (RString c) (Some (clock w + inject_Z IMAGE_TTL)%Q))
       /\ executed w'
          = earlier
            ++ [[ SET (image_base64_key image_id) b;
                  EXPIRE (image_base64_key image_id) IMAGE_TTL;
                  SET (image_content_type_key image_id) c;
                  EXPIRE (image_content_type_key image_id) IMAGE_TTL ]])
  /\ (forall now,
        is_Some (lookup now (r w) (image_base64_key image_id))
        <-> is_Some (lookup now (r w) (image_content_type_key image_id)))
  /\ (forall t1 t2 t3 o w',
        (t2 <= t3)%Q ->
        (t3 <= t1 + inject_Z IMAGE_TTL)%Q ->
        (is_Some (lookup (clock w) (r w) (image_base64_key image_id)) ->
         is_Some (lookup t3 (r w) (image_base64_key image_id))) ->
        get_image_at t1 t2 t3 image_id w = (Return o, w') ->
        exists b c t,
          o = (Some b, Some c)
          /\ r w' !! image_base64_key image_id = Some (Entry (RString b) t)
          /\ r w' !! image_content_type_key image_id
             = Some (Entry (RString c) t)).
Proof.
  intros Hreach Hdigit.
  pose proof (no_colon_isdigit _ Hdigit) as Hid.
  pose proof (reachable_images_paired w Hreach image_id Hid) as Hpair.
  split_and!.
  - intros w' Hrun.
    destruct (cache_image_writes w w' image_id Hid Hrun)
      as (b & c & earlier & _ & Hb & Hc & Hex).
    by exists b, c, earlier.
  - intros now.
    destruct (image_pair_both_visible now _ _ Hpair)
      as [[-> ->]|(b & c & t & -> & ->)]; [|done].
    split; intros [? ?]; discriminate.
  - intros t1 t2 t3 o w' H23 H31 Hstay. unfold get_image_at.
    rewrite Hdigit. cbn [negb].
    rewrite bind_eq. unfold r_exists. rewrite bind_eq. unfold redis.
    cbn [exec].
    destruct (image_pair_both_visible (clock w) _ _ Hpair)
      as [[Hb Hc]|(b & c & t & Hb & Hc)]; rewrite Hb; cbn [is_error fst snd].
    + set (w1 := round_trip _ _ w). unfold ret at 1. cbn [Z.eqb negb].
      rewrite bind_eq. unfold at_instant at 1.
      set (w1' := Build_World _ _ _ t1 _ _ _).
      rewrite bind_eq.
      destruct (_cache_image image_id w1') as [[[]|e] w2] eqn:Hrun; [|discriminate].
      destruct (cache_image_writes w1' w2 image_id Hid Hrun)
        as (b & c & earlier & Hclock & Hb2 & Hc2 & _).
      change (clock w1') with t1 in *.
      assert (Hlive : forall now v,
                (now <= t3)%Q ->
                live now (Entry v (Some (t1 + inject_Z IMAGE_TTL)%Q)) = true).
      { intros now v Hnow. unfold live. cbn [expires_at]. apply Qle_bool_iff.
        apply (Qle_trans _ t3); done. }
      rewrite bind_eq. unfold at_instant at 1.
      rewrite bind_eq, (r_get_string _ _ b (Some (t1 + inject_Z IMAGE_TTL)%Q));
        [|apply lookup_of_raw; [exact Hb2|by apply Hlive]].
      rewrite bind_eq. unfold at_instant at 1.
      rewrite bind_eq, (r_get_string _ _ c (Some (t1 + inject_Z IMAGE_TTL)%Q));
        [|apply lookup_of_raw; [exact Hc2|apply Hlive; apply Qle_refl]].
      intros [= <- <-]. exists b, c, (Some (t1 + inject_Z IMAGE_TTL)%Q).
      by split_and!.
    + pose proof (lookup_Some_raw _ _ _ _ Hb) as Hb0.
      pose proof (lookup_Some_raw _ _ _ _ Hc) as Hc0.
      assert (Hl3 : forall v, live t3 (Entry v t) = true).
      { intros v.
        pose proof (live_of_visible t3 _ _ _ Hb0 (Hstay (mk_is_Some _ _ Hb))).
        done. }
      set (w1 := round_trip _ _ w). unfold ret at 1. cbn [Z.eqb negb].
      rewrite bind_eq. unfold at_instant at 1.
      rewrite bind_eq. unfold ret at 1.
      rewrite bind_eq. unfold at_instant at 1.
      rewrite bind_eq, (r_get_string _ _ b t);
        [|apply lookup_of_raw; [exact Hb0|by apply (live_earlier t3)]].
      rewrite bind_eq. unfold at_instant at 1.
      rewrite bind_eq, (r_get_string _ _ c t);
        [|apply lookup_of_raw; [exact Hc0|apply Hl3]].
      intros [= <- <-]. exists b, c, t. by split_and!.
Qed.

Lemma image_entries_travel_together_witness :
  let w := (get_image "7" (Scenario.cold Scenario.campus)).2 in
  (forall w', _cache_image "7" w = (Return tt, w') ->
     exists b c earlier,
       r w' !! image_base64_key "7"
       = Some (Entry (RString b) (Some (clock w + inject_Z IMAGE_TTL)%Q))
       /\ r w' !! image_content_type_key "7"
          = Some (Entry (RString c) (Some (clock w + inject_Z IMAGE_TTL)%Q))
       /\ executed w'
          = earlier
            ++ [[ SET (image_base64_key "7") b;
                  EXPIRE (image_base64_key "7") IMAGE_TTL;
                  SET (image_content_type_key "7") c;
                  EXPIRE (image_content_type_key "7") IMAGE_TTL ]])
  /\ (forall now,
        is_Some (lookup now (r w) (image_base64_key "7"))
        <-> is_Some (lookup now (r w) (image_content_type_key "7")))
  /\ (forall t1 t2 t3 o w',
        (t2 <= t3)%Q ->
        (t3 <= t1 + inject_Z IMAGE_TTL)%Q ->
        (is_Some (lookup (clock w) (r w) (image_base64_key "7")) ->
         is_Some (lookup t3 (r w) (image_base64_key "7"))) ->
        get_image_at t1 t2 t3 "7" w = (Return o, w') ->
        exists b c t,
          o = (Some b, Some c)
          /\ r w' !! image_base64_key "7" = Some (Entry (RString b) t)
          /\ r w' !! image_content_type_key "7" = Some (Entry (RString c) t)).
Proof.
  apply (image_entries_travel_together
           (get_image "7" (Scenario.cold Scenario.campus)).2 "7").
  - apply reachable_get_image. by apply reachable_empty.
  - reflexivity.
Defined.

(** * Further properties

    ** The credential: exchange, persistence, construction *)

(** ** The exchange *)

Lemma get_token_exchanges (w : World) (tj : token_json) :
  token (upstream w) = Some tj ->
  exists w',
    get_token w = (Return tt, w')
    /\ access_token w' = Some (access_token_field tj)
    /\ access_token_expiry w' = Some (int_of_float (clock w) + expires_in tj)
    /\ r w'
       = <["occupeye:access_token_expiry"
             := Entry (RString (str_of_int (int_of_float (clock w) + expires_in tj)))
                  None]>
           (<["occupeye:access_token"
                := Entry (RString (access_token_field tj)) None]> (r w))
    /\ clock w' = clock w
    /\ upstream w' = upstream w
    /\ sent w' = sent w ++ [PostToken].
Proof.
  intros Htj.
  unfold get_token, http, r_set, redis, set_access_token, set_access_token_expiry,
    time_now, mbind, M_bind, bind, ret.
  rewrite Htj. simpl. eexists. split; [reflexivity|]. simpl. by split_and!.
Qed.

Lemma token_valid_stale (w : World) :
  access_token w = None \/ access_token w = Some ""
  \/ (exists e, access_token_expiry w = Some e /\ (inject_Z e < clock w)%Q) ->
  token_valid w = (Return false, w).
Proof.
  unfold token_valid, get_access_token, get_access_token_expiry, time_now,
    mbind, M_bind, bind, ret.
  intros [->|[->|(e & He & Hlt)]]; [done|done|].
  destruct (access_token w) as [t|]; [|done]. simpl.
  destruct (truthy t); [|done]. simpl. rewrite He.
  destruct (Qle_bool (clock w) (inject_Z e)) eqn:Hle; [|done].
  apply Qle_bool_iff in Hle. apply Qlt_not_le in Hlt. contradiction.
Qed.

(** X1. When the instance holds no credential, an empty one, or one whose
    expiry the clock has passed, and the token endpoint answers,
    [get_bearer_token] sends exactly one token request, returns the bearer
    string of the new credential, stores it with expiry
    [int(now) + expires_in] in its attributes, and writes both to Redis
    without a time to live. *)
Theorem get_bearer_token_replaces_stale (w : World) (tj : token_json) :
  access_token w = None \/ access_token w = Some ""
  \/ (exists e, access_token_expiry w = Some e /\ (inject_Z e < clock w)%Q) ->
  token (upstream w) = Some tj ->
  exists w',
    get_bearer_token w = (Return ("Bearer " +:+ access_token_field tj), w')
    /\ sent w' = sent w ++ [PostToken]
    /\ access_token w' = Some (access_token_field tj)
    /\ access_token_expiry w' = Some (int_of_float (clock w) + expires_in tj)
    /\ (forall now,
          lookup now (r w') "occupeye:access_token"
          = Some (Entry (RString (access_token_field tj)) None)
          /\ lookup now (r w') "occupeye:access_token_expiry"
             = Some (Entry (RString (str_of_int
                                       (int_of_float (clock w) + expires_in tj)))
                       None)).
Proof.
  intros Hstale Htj.
  destruct (get_token_exchanges w tj Htj)
    as (w' & Hrun & Htok & Hexp & Hr & Hclock & Hups & Hsent).
  exists w'. unfold get_bearer_token.
  rewrite bind_eq, (token_valid_stale w Hstale). cbn [negb].
  rewrite bind_eq, Hrun, bind_eq. unfold get_access_token. rewrite Htok.
  split_and!; try done.
  intros now. unfold lookup. rewrite Hr. split.
  - rewrite lookup_insert_ne by done. by rewrite lookup_insert_eq.
  - by rewrite lookup_insert_eq.
Qed.

Lemma get_bearer_token_replaces_stale_witness :
  let w := Scenario.holding "old" 500 (inject_Z 1000) Scenario.campus in
  exists w',
    get_bearer_token w = (Return "Bearer tok", w')
    /\ sent w' = [PostToken]
    /\ access_token w' = Some "tok"
    /\ access_token_expiry w' = Some 4600
    /\ (forall now,
          lookup now (r w') "occupeye:access_token"
          = Some (Entry (RString "tok") None)
          /\ lookup now (r w') "occupeye:access_token_expiry"
             = Some (Entry (RString "4600") None)).
Proof.
  apply (get_bearer_token_replaces_stale
           (Scenario.holding "old" 500 (inject_Z 1000) Scenario.campus)
           {| access_token_field := "tok"; expires_in := 3600 |}).
  - right. right. exists 500. split; [reflexivity|]. vm_compute. reflexivity.
  - reflexivity.
Defined.

Lemma clock_before_next_second (x : Q) (n : Z) :
  1 <= n -> (x <= inject_Z (int_of_float x + n))%Q.
Proof.
  intros Hn. destruct x as [a b]. unfold int_of_float, Qle. simpl.
  pose proof (Z.quot_rem' a (Z.pos b)) as Heq.
  assert (Hr : Z.rem a (Z.pos b) < Z.pos b).
  { pose proof (Z.rem_bound_abs a (Z.pos b)). lia. }
  nia.
Qed.

(** X2. A non-empty credential issued with a lifetime of at least one second is
    valid at the instant it is obtained: after [get_token], [token_valid]
    answers [True] and [get_bearer_token] returns the credential in an
    unchanged world. *)
Theorem fresh_token_is_valid (w : World) (tj : token_json) :
  token (upstream w) = Some tj ->
  access_token_field tj <> "" ->
  1 <= expires_in tj ->
  exists w1,
    get_token w = (Return tt, w1)
    /\ token_valid w1 = (Return true, w1)
    /\ get_bearer_token w1 = (Return ("Bearer " +:+ access_token_field tj), w1).
Proof.
  intros Htj Hne Hlife.
  destruct (get_token_exchanges w tj Htj)
    as (w1 & Hrun & Htok & Hexp & _ & Hclock & _).
  exists w1. split; [done|].
  pose proof (clock_before_next_second (clock w) (expires_in tj) Hlife) as Hle.
  rewrite <- Hclock in Hle at 1.
  split.
  - rewrite (token_valid_eq w1 _ _ Htok Hne Hexp).
    apply Qle_bool_iff in Hle. by rewrite Hle.
  - by apply (get_bearer_token_cached w1 _ _ Htok Hne Hexp).
Qed.

Lemma fresh_token_is_valid_witness :
  exists w1,
    get_token (Scenario.cold Scenario.campus) = (Return tt, w1)
    /\ token_valid w1 = (Return true, w1)
    /\ get_bearer_token w1 = (Return "Bearer tok", w1).
Proof.
  apply (fresh_token_is_valid (Scenario.cold Scenario.campus)
           {| access_token_field := "tok"; expires_in := 3600 |}).
  - reflexivity.
  - discriminate.
  - vm_compute. discriminate.
Defined.

Lemma truthy_str_of_int (z : Z) : truthy (str_of_int z) = true.
Proof.
  unfold str_of_int, NilZero.string_of_int, NilZero.string_of_uint.
  destruct (Z.to_int z) as [d|d]; [|done]. by destruct d.
Qed.

Lemma r_get_absent (k : string) (w : World) :
  lookup (clock w) (r w) k = None ->
  r_get k w = (Return None, round_trip [GET k] (r w) w).
Proof.
  intros Hl. unfold r_get, redis, mbind, M_bind, bind. simpl. by rewrite Hl.
Qed.

(** X3. What [get_token] writes to Redis, [__init__] reads back: after an
    exchange that yields a non-empty credential and a non-zero expiry, an
    instance constructed (not in test mode) on the same database holds that
    credential and that expiry, and constructing it sends no request. *)
Theorem init_restores_persisted_credential (w : World) (tj : token_json) :
  token (upstream w) = Some tj ->
  access_token_field tj <> "" ->
  int_of_float (clock w) + expires_in tj <> 0 ->
  exists w1,
    get_token w = (Return tt, w1)
    /\ forall w2,
         r w2 = r w1 ->
         exists w3,
           init false w2 = (Return tt, w3)
           /\ access_token w3 = Some (access_token_field tj)
           /\ access_token_expiry w3
              = Some (int_of_float (clock w) + expires_in tj)
           /\ sent w3 = sent w2.
Proof.
  intros Htj Hne Hnz.
  destruct (get_token_exchanges w tj Htj)
    as (w1 & Hrun & _ & _ & Hr & _). exists w1. split; [done|].
  intros w2 Hr2. set (e := int_of_float (clock w) + expires_in tj) in *.
  assert (Htk : lookup (clock w2) (r w2) "occupeye:access_token"
                = Some (Entry (RString (access_token_field tj)) None)).
  { unfold lookup. rewrite Hr2, Hr. rewrite lookup_insert_ne by done.
    by rewrite lookup_insert_eq. }
  assert (Hek : lookup (clock w2) (r w2) "occupeye:access_token_expiry"
                = Some (Entry (RString (str_of_int e)) None)).
  { unfold lookup. rewrite Hr2, Hr. by rewrite lookup_insert_eq. }
  unfold init, r_get, redis, set_access_token, set_access_token_expiry,
    get_access_token, get_access_token_expiry, int, mbind, M_bind, bind, ret.
  cbn [exec fst snd clock r round_trip access_token access_token_expiry].
  rewrite Htk. cbn [is_error fst snd clock r round_trip access_token
                    access_token_expiry exec].
  rewrite Hek. cbn [is_error fst snd clock r round_trip access_token
                    access_token_expiry].
  rewrite (truthy_str_of_int e), int_of_str_of_int.
  cbn [access_token access_token_expiry truthy_opt truthy_int_opt round_trip].
  rewrite truthy_nonempty by done.
  rewrite (proj2 (Z.eqb_neq e 0)) by done. cbn [negb orb].
  eexists. split; [reflexivity|]. by split_and!.
Qed.

Lemma init_restores_persisted_credential_witness :
  exists w1,
    get_token (Scenario.cold Scenario.campus) = (Return tt, w1)
    /\ forall w2,
         r w2 = r w1 ->
         exists w3,
           init false w2 = (Return tt, w3)
           /\ access_token w3 = Some "tok"
           /\ access_token_expiry w3 = Some 4600
           /\ sent w3 = sent w2.
Proof.
  apply (init_restores_persisted_credential (Scenario.cold Scenario.campus)
           {| access_token_field := "tok"; expires_in := 3600 |}).
  - reflexivity.
  - discriminate.
  - vm_compute. discriminate.
Defined.

(** X4. Constructed (not in test mode) on a database that holds neither the
    token nor its expiry, the instance sends exactly one token request and
    ends up holding the credential that upstream issued, which is then in
    Redis at every instant. *)
Theorem init_cold_exchanges_once (w : World) (tj : token_json) :
  lookup (clock w) (r w) "occupeye:access_token" = None ->
  lookup (clock w) (r w) "occupeye:access_token_expiry" = None ->
  token (upstream w) = Some tj ->
  exists w',
    init false w = (Return tt, w')
    /\ sent w' = sent w ++ [PostToken]
    /\ access_token w' = Some (access_token_field tj)
    /\ access_token_expiry w' = Some (int_of_float (clock w) + expires_in tj)
    /\ (forall now,
          lookup now (r w') "occupeye:access_token"
          = Some (Entry (RString (access_token_field tj)) None)).
Proof.
  intros Htk Hek Htj.
  unfold init, r_get, redis, set_access_token, set_access_token_expiry,
    get_access_token, get_access_token_expiry, int, mbind, M_bind, bind, ret.
  cbn [exec fst snd clock r round_trip access_token access_token_expiry].
  rewrite Htk. cbn [is_error fst snd clock r round_trip access_token
                    access_token_expiry exec].
  rewrite Hek. cbn [is_error fst snd clock r round_trip access_token
                    access_token_expiry truthy_opt negb orb].
  match goal with |- context [get_token ?w'] => set (w2 := w') end.
  destruct (get_token_exchanges w2 tj Htj)
    as (w' & Hrun & Htok & Hexp & Hr & _ & _ & Hsent).
  exists w'. split_and!; try done.
  intros now. unfold lookup. rewrite Hr, lookup_insert_ne by done.
  by rewrite lookup_insert_eq.
Qed.

Lemma init_cold_exchanges_once_witness :
  exists w',
    init false (Scenario.cold Scenario.campus) = (Return tt, w')
    /\ sent w' = [PostToken]
    /\ access_token w' = Some "tok"
    /\ access_token_expiry w' = Some 4600
    /\ (forall now,
          lookup now (r w') "occupeye:access_token"
          = Some (Entry (RString "tok") None)).
Proof.
  apply (init_cold_exchanges_once (Scenario.cold Scenario.campus)
           {| access_token_field := "tok"; expires_in := 3600 |}).
  - vm_compute. reflexivity.
  - vm_compute. reflexivity.
  - reflexivity.
Defined.

Lemma get_token_returns (w w' : World) :
  get_token w = (Return tt, w') ->
  is_Some (access_token w') /\ is_Some (access_token_expiry w').
Proof.
  unfold get_token, http, r_set, redis, set_access_token, set_access_token_expiry,
    time_now, mbind, M_bind, bind, ret.
  destruct (token (upstream w)); simpl; [|discriminate].
  intros [= <-]. simpl. eauto.
Qed.

Lemma token_valid_total (w : World) :
  (truthy_opt (access_token w) = true -> is_Some (access_token_expiry w)) ->
  exists b, token_valid w = (Return b, w).
Proof.
  intros H.
  unfold token_valid, get_access_token, get_access_token_expiry, time_now,
    mbind, M_bind, bind, ret.
  destruct (truthy_opt (access_token w)); cbn [negb]; [|eauto].
  destruct (H eq_refl) as [e ->].
  destruct (Qle_bool (clock w) (inject_Z e)); cbn [negb]; eauto.
Qed.

(** X5. After [__init__] has returned, [token_valid] returns a boolean: it never
    compares the clock with a missing expiry. In test mode the constructor
    leaves both attributes unset and touches neither Redis nor upstream;
    otherwise both attributes are set. *)
Theorem init_leaves_credential_usable (test_mode : bool) (w w' : World) :
  init test_mode w = (Return tt, w') ->
  (exists b, token_valid w' = (Return b, w'))
  /\ (if test_mode
      then access_token w' = None /\ access_token_expiry w' = None
           /\ r w' = r w /\ sent w' = sent w /\ executed w' = executed w
      else is_Some (access_token w') /\ is_Some (access_token_expiry w')).
Proof.
  destruct test_mode.
  - intros [= <-]. cbn. split; [|done]. by apply token_valid_total.
  - intros Hrun.
    assert (Hboth : is_Some (access_token w') /\ is_Some (access_token_expiry w')).
    { revert Hrun. unfold init. rewrite bind_eq.
      destruct (r_get "occupeye:access_token" w) as [[tok|e] w1]; [|discriminate].
      rewrite bind_eq. unfold set_access_token at 1. cbv beta iota.
      rewrite bind_eq.
      match goal with |- context [r_get _ ?x] => set (w2 := x) end.
      destruct (r_get "occupeye:access_token_expiry" w2) as [[expiry|e] w3];
        [|discriminate].
      rewrite bind_eq.
      match goal with |- context [match ?m w3 with _ => _ end] =>
        destruct (m w3) as [[[]|e] w4] eqn:Hset end; [|discriminate].
      rewrite bind_eq. unfold get_access_token at 1. cbv beta iota.
      rewrite bind_eq. unfold get_access_token_expiry at 1. cbv beta iota.
      destruct (truthy_opt (access_token w4)) eqn:Ht; cbn [negb orb].
      + destruct (truthy_int_opt (access_token_expiry w4)) eqn:He; cbn [negb].
        * intros [= <-]. split.
          -- by destruct (access_token w4).
          -- by destruct (access_token_expiry w4).
        * apply get_token_returns.
      + apply get_token_returns. }
    split; [|done]. apply token_valid_total. intros _. apply Hboth.
Qed.

Lemma init_leaves_credential_usable_witness :
  let w' := (init false (Scenario.cold Scenario.campus)).2 in
  (exists b, token_valid w' = (Return b, w'))
  /\ is_Some (access_token w') /\ is_Some (access_token_expiry w').
Proof.
  apply (init_leaves_credential_usable false (Scenario.cold Scenario.campus)
           (init false (Scenario.cold Scenario.campus)).2).
  vm_compute. reflexivity.
Defined.

(** ** Decoding booleans *)

Lemma char_lower_idempotent (c : ascii) : char_lower (char_lower c) = char_lower c.
Proof.
  destruct c as [[] [] [] [] [] [] [] []]; reflexivity.
Qed.

Lemma lower_idempotent (s : string) : lower (lower s) = lower s.
Proof.
  induction s as [|c s IH]; [done|]. simpl. by rewrite char_lower_idempotent, IH.
Qed.

(** X6. [_str2bool] does not depend on letter case, and decodes the text that
    the Redis client stores for a boolean back to that boolean. *)
Theorem str2bool_ignores_case (v : string) (b : bool) :
  _str2bool (lower v) = _str2bool v
  /\ _str2bool (str_of_bool b) = b.
Proof.
  split.
  - unfold _str2bool. by rewrite lower_idempotent.
  - by destruct b; vm_compute.
Qed.

(** ** Calls served from the cache *)

Global Instance untouched_preorder : PreOrder untouched.
Proof.
  split.
  - by intros w.
  - intros w1 w2 w3 (H1 & H2 & H3) (H4 & H5 & H6). split_and!; congruence.
Qed.

Lemma untouched_redis (c : command) :
  writes c = false -> preserves untouched (redis c).
Proof.
  intros Hc w. rewrite redis_world. split_and!; try done.
  cbn [r round_trip]. by apply exec_read.
Qed.

Lemma exec_all_read (now : Q) (cs : list command) (d : gmap string entry) :
  Forall (fun c => writes c = false) cs -> (exec_all now d cs).1 = d.
Proof.
  revert d. induction cs as [|c cs IH]; intros d Hcs; [done|].
  apply Forall_cons in Hcs as [Hc Hcs].
  by rewrite exec_all_cons, exec_read, IH.
Qed.

Lemma untouched_execute (cs : list command) :
  Forall (fun c => writes c = false) cs -> preserves untouched (execute cs).
Proof.
  intros Hcs w. destruct (decide (cs = [])) as [->|Hne]; [done|].
  rewrite execute_world by done. split_and!; try done.
  cbn [r round_trip]. by apply exec_all_read.
Qed.

Ltac reads_all :=
  repeat first
    [ apply Forall_map_all; intros ?
    | apply Forall_cons; split
    | apply List.Forall_nil
    | reflexivity ].

Ltac untouched_step :=
  first
    [ apply untouched_redis; reflexivity
    | apply untouched_execute; reads_all
    | preserves_step
    | (unfold preserves; intros ?; done) ].

Lemma untouched_r_llen (k : string) : preserves untouched (r_llen k).
Proof. unfold r_llen. repeat untouched_step. Qed.

Lemma untouched_r_lrange (k : string) (a b : Z) : preserves untouched (r_lrange k a b).
Proof. unfold r_lrange. repeat untouched_step. Qed.

Lemma untouched_r_hgetall (k : string) : preserves untouched (r_hgetall k).
Proof. unfold r_hgetall. repeat untouched_step. Qed.

Lemma untouched_read_survey (survey_id : string) :
  preserves untouched (read_survey survey_id).
Proof.
  unfold read_survey, read_map, getitem, int.
  repeat first [ apply untouched_r_llen | apply untouched_r_lrange
               | apply untouched_r_hgetall | untouched_step ].
Qed.

(** X7. When the survey list in the cache is not empty, [get_surveys] is served
    from the cache: whatever it returns or raises, it sends no request
    upstream and leaves the database as it was. *)
Theorem get_surveys_warm_reads_only (w : World) (n : Z) :
  llen w surveys_key = Integer n ->
  n <> 0 ->
  r (get_surveys w).2 = r w /\ sent (get_surveys w).2 = sent w.
Proof.
  intros Hlen Hn. unfold get_surveys.
  rewrite bind_eq, r_llen_eq, Hlen.
  rewrite (proj2 (Z.eqb_neq n 0)) by done. rewrite bind_eq. unfold ret at 1.
  match goal with |- context [?m (round_trip ?cs ?d w)] =>
    assert (Hrest : preserves untouched m)
  end.
  { repeat first [ apply untouched_r_llen | apply untouched_r_lrange
                 | apply untouched_read_survey | untouched_step ]. }
  destruct (Hrest (round_trip [LLEN surveys_key] (r w) w)) as (Hr & _ & Hs).
  split; [exact Hr|exact Hs].
Qed.

Lemma get_surveys_warm_reads_only_witness :
  let w := (get_surveys (Scenario.cold Scenario.campus)).2 in
  r (get_surveys w).2 = r w /\ sent (get_surveys w).2 = sent w.
Proof.
  apply (get_surveys_warm_reads_only
           (get_surveys (Scenario.cold Scenario.campus)).2 2).
  - vm_compute. reflexivity.
  - discriminate.
Defined.

Lemma llen_untouched (w w' : World) (k : string) :
  untouched w w' -> llen w' k = llen w k.
Proof. intros (Hr & Hc & _). unfold llen. by rewrite Hr, Hc. Qed.

Lemma get_map_sensors_positions_warm
    (w : World) (survey_id map_id : string) (n : Z) :
  llen w (map_sensors_key survey_id map_id) = Integer n ->
  n <> 0 ->
  untouched w (get_map_sensors survey_id false map_id w).2.
Proof.
  intros Hlen Hn. unfold get_map_sensors.
  rewrite bind_eq, r_llen_eq, Hlen.
  rewrite (proj2 (Z.eqb_neq n 0)) by done. rewrite bind_eq. unfold ret at 1.
  match goal with |- context [?m (round_trip ?cs ?d w)] =>
    assert (Hrest : preserves untouched m)
  end.
  { unfold as_dict, getitem.
    repeat first [ apply untouched_r_llen | apply untouched_r_lrange
                 | apply untouched_r_hgetall | untouched_step ]. }
  exact (Hrest (round_trip [LLEN (map_sensors_key survey_id map_id)] (r w) w)).
Qed.

Lemma sensors_loop_positions_warm (survey_id : string) (maps : list string)
    (acc : list map_sensors_view) (w0 w : World) :
  untouched w0 w ->
  (forall m, In m maps ->
     exists n, llen w0 (map_sensors_key survey_id m) = Integer n /\ n <> 0) ->
  untouched w0
    (for_fold
       (fun data map_id =>
          m ← get_map_sensors survey_id false map_id; ret (data ++ [m]))
       maps acc w).2.
Proof.
  revert acc w. induction maps as [|m maps IH]; intros acc w Hw Hwarm; [done|].
  cbn [for_fold]. rewrite bind_eq, bind_eq.
  destruct (Hwarm m (or_introl eq_refl)) as (n & Hlen & Hn).
  rewrite <- (llen_untouched w0 w _ Hw) in Hlen.
  pose proof (get_map_sensors_positions_warm w survey_id m n Hlen Hn) as Hstep.
  destruct (get_map_sensors survey_id false m w) as [[v|e] w1]; cbn [snd] in *.
  - unfold ret at 1. apply IH; [by etrans|]. intros m' Hm'. apply Hwarm. by right.
  - by etrans.
Qed.

(** X8. Without states, [get_survey_sensors] on a survey whose map list and
    whose sensor list of every map are in the cache sends no request
    upstream and leaves the database as it was. *)
Theorem get_survey_sensors_positions_from_cache
    (w : World) (survey_id : string) (maps : list string) (t : option Q) :
  isdigit survey_id = true ->
  lookup (clock w) (r w) (survey_maps_key survey_id) = Some (Entry (RList maps) t) ->
  maps <> [] ->
  (forall m, In m maps ->
     exists n, llen w (map_sensors_key survey_id m) = Integer n /\ n <> 0) ->
  r (get_survey_sensors survey_id false w).2 = r w
  /\ sent (get_survey_sensors survey_id false w).2 = sent w.
Proof.
  intros Hd Hmaps Hne Hwarm.
  cut (untouched w (get_survey_sensors survey_id false w).2).
  { by intros (Hr & _ & Hs). }
  unfold get_survey_sensors.
  rewrite Hd. cbn [negb].
  pose proof (llen_list w _ _ _ Hmaps) as Hlen.
  set (n := Z.of_nat (length maps)) in *.
  assert (Hn : (n =? 0) = false).
  { apply Z.eqb_neq. subst n. destruct maps; [done|simpl length; lia]. }
  rewrite bind_eq, r_llen_eq, Hlen, Hn. rewrite bind_eq. unfold ret at 1.
  set (w1 := round_trip _ _ w).
  assert (Hlen1 : llen w1 (survey_maps_key survey_id) = Integer n) by exact Hlen.
  rewrite bind_eq, r_llen_eq, Hlen1, Hn.
  set (w2 := round_trip _ _ w1).
  assert (Hlen2 : llen w2 (survey_maps_key survey_id) = Integer n) by exact Hlen.
  rewrite bind_eq, r_llen_eq, Hlen2.
  set (w3 := round_trip _ _ w2).
  rewrite bind_eq, r_lrange_eq.
  assert (Hrange : (exec (clock w3) (r w3) (LRANGE (survey_maps_key survey_id) 0 n)).2
                   = Array maps).
  { simpl. rewrite Hmaps. simpl. f_equal. apply lrange_slice_all. }
  rewrite Hrange.
  set (w4 := round_trip _ _ w3).
  assert (H4 : untouched w w4) by done.
  exact (sensors_loop_positions_warm survey_id maps [] w w4 H4 Hwarm).
Qed.

Lemma get_survey_sensors_positions_from_cache_witness :
  let w := (get_survey_sensors "42" false (Scenario.cold Scenario.campus)).2 in
  r (get_survey_sensors "42" false w).2 = r w
  /\ sent (get_survey_sensors "42" false w).2 = sent w.
Proof.
  apply (get_survey_sensors_positions_from_cache
           (get_survey_sensors "42" false (Scenario.cold Scenario.campus)).2
           "42" ["1"; "2"] (Some (inject_Z 1000 + inject_Z 86400)%Q)).
  - reflexivity.
  - vm_compute. reflexivity.
  - discriminate.
  - intros m [<-|[<-|[]]]; exists 1; (split; [vm_compute; reflexivity|discriminate]).
Defined.

(** ** The keys a method touches *)

Global Instance issues_preorder (P : command -> Prop) : PreOrder (issues P).
Proof.
  split.
  - intros w. exists []. by rewrite app_nil_r.
  - intros w1 w2 w3 (b1 & H1 & F1) (b2 & H2 & F2). exists (b1 ++ b2). split.
    + by rewrite H2, H1, app_assoc.
    + by apply Forall_app.
Qed.

Lemma issues_redis (P : command -> Prop) (c : command) :
  P c -> preserves (issues P) (redis c).
Proof.
  intros Hc w. rewrite redis_world. exists [[c]]. split; [done|].
  by repeat constructor.
Qed.

Lemma issues_execute (P : command -> Prop) (cs : list command) :
  Forall P cs -> preserves (issues P) (execute cs).
Proof.
  intros Hcs w. destruct (decide (cs = [])) as [->|Hne]; [reflexivity|].
  rewrite execute_world by done. exists [cs]. split; [done|].
  by repeat constructor.
Qed.

Lemma issues_http {A} (P : command -> Prop) (req : request)
    (answer : service -> option A) :
  preserves (issues P) (http req answer).
Proof.
  intros w. unfold http.
  destruct (answer (upstream w)); exists []; cbn; by rewrite app_nil_r.
Qed.

Ltac footprint :=
  solve [ left; left; reflexivity | left; right; reflexivity
        | left; reflexivity | right; reflexivity
        | right; left; reflexivity | right; right; reflexivity ].

Ltac footprint_all :=
  repeat first
    [ apply Forall_app; split
    | apply Forall_flat_map; intros ?
    | apply Forall_map_all; intros ?
    | apply Forall_cons; split
    | apply List.Forall_nil
    | footprint ].

Ltac issues_step :=
  first
    [ apply issues_redis; footprint
    | apply issues_execute; footprint_all
    | apply issues_http
    | preserves_step
    | (unfold preserves; intros ?; exists []; cbn; by rewrite app_nil_r) ].

Lemma issues_get_token : preserves (issues on_credential) get_token.
Proof. unfold get_token, r_set. repeat issues_step. Qed.

Lemma issues_get_bearer_token : preserves (issues on_credential) get_bearer_token.
Proof.
  unfold get_bearer_token, token_valid.
  repeat first [apply issues_get_token | issues_step].
Qed.

Lemma issues_init (test_mode : bool) : preserves (issues on_credential) (init test_mode).
Proof.
  unfold init, r_get, int.
  repeat first [apply issues_get_token | issues_step].
Qed.

Lemma issues_weaken (P Q : command -> Prop) {A} (m : M A) :
  (forall c, P c -> Q c) -> preserves (issues P) m -> preserves (issues Q) m.
Proof.
  intros HPQ Hm w. destruct (Hm w) as (b & Hb & Hall). exists b. split; [done|].
  eapply Forall_impl; [exact Hall|]. intros cs Hcs.
  eapply Forall_impl; [exact Hcs|]. exact HPQ.
Qed.

Lemma issues_bearer_surveys : preserves (issues on_surveys) get_bearer_token.
Proof.
  apply (issues_weaken on_credential); [by left|apply issues_get_bearer_token].
Qed.

Lemma issues_bearer_image (image_id : string) :
  preserves (issues (on_image image_id)) get_bearer_token.
Proof.
  apply (issues_weaken on_credential); [by left|apply issues_get_bearer_token].
Qed.

Lemma issues_cache_maps_for_survey (survey_id : string) :
  preserves (issues on_surveys) (_cache_maps_for_survey survey_id).
Proof.
  unfold _cache_maps_for_survey.
  repeat first [apply issues_bearer_surveys | issues_step].
Qed.

Lemma issues_maps_loop (ss : list survey_json) (acc : list command) (w : World) :
  Forall on_surveys acc ->
  let res := for_fold cache_survey ss acc w in
  issues on_surveys w res.2
  /\ forall p, res.1 = Return p -> Forall on_surveys p.
Proof.
  revert acc w. induction ss as [|s ss IH]; intros acc w Hacc; cbv zeta.
  - simpl. split; [reflexivity|]. by intros p [= <-].
  - cbn [for_fold]. rewrite bind_eq, cache_survey_eq.
    pose proof (issues_cache_maps_for_survey (str_of_int (SurveyID s)) w) as Hw'.
    destruct (_cache_maps_for_survey (str_of_int (SurveyID s)) w)
      as [[[]|e] w'].
    + destruct (IH (acc ++ survey_commands s) w') as [H1 H2].
      { apply Forall_app. split; [done|]. unfold survey_commands. footprint_all. }
      split; [by etrans|done].
    + split; [done|]. by intros p.
Qed.

Lemma issues_cache_survey_data : preserves (issues on_surveys) _cache_survey_data.
Proof.
  unfold _cache_survey_data.
  apply preserves_bind; [apply _|apply issues_bearer_surveys|intros _].
  apply preserves_bind; [apply _|issues_step|intros ss].
  intros w. rewrite bind_eq.
  destruct (issues_maps_loop ss [DEL surveys_key] w) as [Hw1 Hp]; [footprint_all|].
  destruct (for_fold cache_survey ss [DEL surveys_key] w) as [[p|e] w1]; [|done].
  cbn [fst snd] in *. rewrite bind_eq.
  assert (Hall : Forall on_surveys (p ++ [EXPIRE surveys_key SURVEY_TTL])).
  { apply Forall_app. split; [by apply Hp|footprint_all]. }
  pose proof (issues_execute _ _ Hall w1) as Hex.
  destruct (execute _ w1) as [[reps|e] w2]; cbn [snd] in *; by etrans.
Qed.

Lemma issues_get_surveys : preserves (issues on_surveys) get_surveys.
Proof.
  unfold get_surveys, read_survey, read_map, r_llen, r_lrange, r_hgetall,
    getitem, int.
  repeat first [apply issues_cache_survey_data | issues_step].
Qed.

Lemma issues_cache_all_survey_sensor_states (survey_id : string) :
  preserves (issues on_surveys) (_cache_all_survey_sensor_states survey_id).
Proof.
  unfold _cache_all_survey_sensor_states.
  repeat first [apply issues_bearer_surveys | issues_step].
Qed.

Lemma issues_cache_sensors_for_map (survey_id map_id : string) :
  preserves (issues on_surveys) (_cache_sensors_for_map survey_id map_id).
Proof.
  unfold _cache_sensors_for_map.
  repeat first [apply issues_bearer_surveys | issues_step].
Qed.

Lemma issues_get_map_sensors (survey_id : string) (return_states : bool)
    (map_id : string) :
  preserves (issues on_surveys) (get_map_sensors survey_id return_states map_id).
Proof.
  unfold get_map_sensors, r_llen, r_lrange, r_hgetall, r_get, as_dict,
    getitem, odict_setitem.
  repeat first [ apply issues_cache_sensors_for_map
               | apply issues_cache_all_survey_sensor_states
               | issues_step ].
Qed.

Lemma issues_get_survey_sensors (survey_id : string) (return_states : bool) :
  preserves (issues on_surveys) (get_survey_sensors survey_id return_states).
Proof.
  unfold get_survey_sensors, r_llen, r_lrange.
  repeat first [ apply issues_cache_survey_data
               | apply issues_get_map_sensors
               | issues_step ].
Qed.

Lemma issues_get_image (image_id : string) :
  preserves (issues (on_image image_id)) (get_image image_id).
Proof.
  unfold get_image, _cache_image, r_exists, r_get.
  repeat first [apply issues_bearer_image | issues_step].
Qed.

(** X9. The keys each public method touches, reads included: the constructor
    and [get_bearer_token] only the two credential keys; [get_surveys] and
    [get_survey_sensors] only the credential keys and keys that start with
    [occupeye:surveys]; [get_image] only the credential keys and the two
    keys of the requested image. *)
Theorem method_footprints (w : World) :
  (forall test_mode, issues on_credential w (init test_mode w).2)
  /\ issues on_credential w (get_bearer_token w).2
  /\ issues on_surveys w (get_surveys w).2
  /\ (forall survey_id return_states,
        issues on_surveys w (get_survey_sensors survey_id return_states w).2)
  /\ (forall image_id, issues (on_image image_id) w (get_image image_id w).2).
Proof.
  split_and!.
  - intros test_mode. apply issues_init.
  - apply issues_get_bearer_token.
  - apply issues_get_surveys.
  - intros survey_id return_states. apply issues_get_survey_sensors.
  - intros image_id. apply issues_get_image.
Qed.

(** ** The survey refresh: requests and failure *)

(** *** The requests of a refresh *)

Global Instance same_data_preorder : PreOrder same_data.
Proof.
  split.
  - by intros w.
  - intros w1 w2 w3 H12 H23. unfold same_data in *. congruence.
Qed.

Lemma data_requests_snoc (log : list request) (q : request) :
  data_requests (log ++ [q])
  = data_requests log ++ (if request_eqb q PostToken then [] else [q]).
Proof.
  unfold data_requests. rewrite List.filter_app. f_equal. simpl.
  by destruct (request_eqb q PostToken).
Qed.

Lemma same_data_redis (c : command) : preserves same_data (redis c).
Proof. intros w. by rewrite redis_world. Qed.

Lemma same_data_execute (cs : list command) : preserves same_data (execute cs).
Proof.
  intros w. destruct (decide (cs = [])) as [->|Hne]; [done|].
  by rewrite execute_world.
Qed.

Lemma same_data_exchange {A} (answer : service -> option A) :
  preserves same_data (http PostToken answer).
Proof.
  intros w. unfold http, same_data.
  destruct (answer (upstream w)); cbn [snd sent requested];
    rewrite data_requests_snoc; cbn; by rewrite app_nil_r.
Qed.

Ltac same_data_step :=
  first
    [ apply same_data_redis
    | apply same_data_execute
    | apply same_data_exchange
    | preserves_step
    | (unfold preserves; intros ?; done) ].

Lemma same_data_get_bearer_token : preserves same_data get_bearer_token.
Proof.
  unfold get_bearer_token, token_valid, get_token, r_set.
  repeat same_data_step.
Qed.

Lemma cache_maps_for_survey_trace (survey_id : string) (w w' : World) :
  _cache_maps_for_survey survey_id w = (Return tt, w') ->
  data_requests (sent w') = data_requests (sent w) ++ [GetMaps survey_id].
Proof.
  unfold _cache_maps_for_survey. rewrite bind_eq.
  pose proof (same_data_get_bearer_token w) as Hb.
  destruct (get_bearer_token w) as [[b|e] w1]; [|discriminate].
  cbn [snd] in Hb. rewrite bind_eq. unfold http at 1.
  destruct (maps (upstream w1) survey_id) as [ms|]; [|discriminate].
  rewrite bind_eq.
  match goal with |- context [execute ?p ?x] =>
    pose proof (same_data_execute p x) as Hx;
    destruct (execute p x) as [[reps|e] w2]; [|discriminate]
  end.
  intros [= <-]. cbn [snd] in Hx. unfold same_data in *.
  rewrite Hx. cbn [sent requested]. rewrite data_requests_snoc. cbn. by rewrite Hb.
Qed.

Lemma cache_maps_loop_trace (ss : list survey_json) (acc p : list command)
    (w w' : World) :
  for_fold cache_survey ss acc w = (Return p, w') ->
  data_requests (sent w')
  = data_requests (sent w)
    ++ map (fun s => GetMaps (str_of_int (SurveyID s))) ss.
Proof.
  revert acc w. induction ss as [|s ss IH]; intros acc w.
  - intros [= _ <-]. by rewrite app_nil_r.
  - cbn [for_fold]. rewrite bind_eq, cache_survey_eq.
    destruct (_cache_maps_for_survey (str_of_int (SurveyID s)) w)
      as [[[]|e] w1] eqn:Hrun; [|discriminate].
    intros Hloop. rewrite (IH _ _ Hloop), (cache_maps_for_survey_trace _ _ _ Hrun).
    by rewrite <- app_assoc.
Qed.

Lemma cache_survey_data_trace (w w' : World) (ss : list survey_json) :
  _cache_survey_data w = (Return tt, w') ->
  surveys (upstream w) = Some ss ->
  data_requests (sent w')
  = data_requests (sent w)
    ++ GetSurveys :: map (fun s => GetMaps (str_of_int (SurveyID s))) ss.
Proof.
  intros Hrun Hss. revert Hrun. unfold _cache_survey_data. rewrite bind_eq.
  pose proof (same_data_get_bearer_token w) as Hb.
  pose proof (same_env_get_bearer_token w) as (_ & Hups & _).
  destruct (get_bearer_token w) as [[b|e] w1]; [|discriminate].
  cbn [snd] in Hb, Hups. rewrite bind_eq. unfold http at 1. rewrite Hups, Hss.
  rewrite bind_eq.
  destruct (for_fold cache_survey ss [DEL surveys_key] (requested GetSurveys w1))
    as [[p|e] w2] eqn:Hloop; [|discriminate].
  rewrite bind_eq.
  match goal with |- context [execute ?q ?x] =>
    pose proof (same_data_execute q x) as Hx;
    destruct (execute q x) as [[reps|e] w3]; [|discriminate]
  end.
  intros [= <-]. cbn [snd] in Hx. unfold same_data in *.
  rewrite Hx, (cache_maps_loop_trace _ _ _ _ _ Hloop).
  cbn [sent requested]. rewrite data_requests_snoc. cbn.
  by rewrite Hb, <- app_assoc.
Qed.

(** X10. A survey refresh on a well-kinded cache, with upstream answering, sends
    the surveys request and then one maps request per listed survey, in the
    order of the listing, and no other request apart from credential
    exchanges. *)
Theorem survey_refresh_requests (w : World) (ss : list survey_json) :
  can_authenticate w ->
  well_kinded (r w) ->
  surveys (upstream w) = Some ss ->
  (forall s, In s ss -> is_Some (maps (upstream w) (str_of_int (SurveyID s)))) ->
  exists w',
    _cache_survey_data w = (Return tt, w')
    /\ data_requests (sent w')
       = data_requests (sent w)
         ++ GetSurveys :: map (fun s => GetMaps (str_of_int (SurveyID s))) ss.
Proof.
  intros Hcan Hwk Hss Hmaps.
  destruct (cache_survey_data_ok w ss Hcan Hwk Hss Hmaps) as (w' & Hrun & _).
  exists w'. split; [done|]. by apply cache_survey_data_trace.
Qed.

Lemma survey_refresh_requests_witness :
  exists w',
    _cache_survey_data (Scenario.cold Scenario.campus) = (Return tt, w')
    /\ data_requests (sent w') = [GetSurveys; GetMaps "42"; GetMaps "7"].
Proof.
  apply (survey_refresh_requests (Scenario.cold Scenario.campus)
           [ {| SurveyID := 42; Active := true; Name := "Library";
                StartTime := "2018-01-01"; EndTime := "2019-01-01" |};
             {| SurveyID := 7; Active := false; Name := "Science";
                StartTime := "2017-01-01"; EndTime := "2018-01-01" |} ]).
  - right. split; [|discriminate]. vm_compute. eauto.
  - apply well_kinded_empty.
  - reflexivity.
  - intros s [<-|[<-|[]]]; vm_compute; eauto.
Defined.

(** *** Entries a method leaves alone *)

Global Instance keeps_preorder (k : string) : PreOrder (keeps k).
Proof.
  split.
  - by intros w.
  - intros w1 w2 w3 H12 H23. unfold keeps in *. congruence.
Qed.

Lemma keeps_redis (k : string) (c : command) :
  key_of c <> k -> preserves (keeps k) (redis c).
Proof. intros Hc w. rewrite redis_world. by apply exec_frame. Qed.

Lemma keeps_execute (k : string) (cs : list command) :
  Forall (fun c => key_of c <> k) cs -> preserves (keeps k) (execute cs).
Proof.
  intros Hcs w. destruct (decide (cs = [])) as [->|Hne]; [done|].
  rewrite execute_world by done. by apply exec_all_frame.
Qed.

Lemma keeps_http {A} (k : string) (req : request) (answer : service -> option A) :
  preserves (keeps k) (http req answer).
Proof. intros w. unfold http. by destruct (answer (upstream w)). Qed.

Lemma keeps_get_bearer_token (k : string) :
  k <> "occupeye:access_token" -> k <> "occupeye:access_token_expiry" ->
  preserves (keeps k) get_bearer_token.
Proof.
  intros H1 H2. unfold get_bearer_token, token_valid, get_token, r_set.
  repeat first
    [ apply keeps_redis; cbn [key_of]; congruence
    | apply keeps_http
    | preserves_step
    | (unfold preserves; intros ?; done) ].
Qed.

Lemma keeps_cache_maps_for_survey (k survey_id : string) :
  k <> "occupeye:access_token" -> k <> "occupeye:access_token_expiry" ->
  k <> survey_maps_key survey_id ->
  (forall i, k <> survey_map_key survey_id (str_of_int i)) ->
  preserves (keeps k) (_cache_maps_for_survey survey_id).
Proof.
  intros H1 H2 H3 H4. unfold _cache_maps_for_survey.
  repeat first
    [ apply keeps_get_bearer_token; assumption
    | apply keeps_execute; by apply maps_pipeline_misses
    | apply keeps_http
    | preserves_step
    | (unfold preserves; intros ?; done) ].
Qed.

Lemma same_env_cache_maps_for_survey (survey_id : string) :
  preserves same_env (_cache_maps_for_survey survey_id).
Proof.
  unfold _cache_maps_for_survey.
  repeat first [apply same_env_get_bearer_token | same_env_step].
Qed.

Lemma cache_maps_for_survey_fails (survey_id : string) (w : World) :
  maps (upstream w) survey_id = None ->
  exists e, (_cache_maps_for_survey survey_id w).1 = Raise e.
Proof.
  intros Hmaps. unfold _cache_maps_for_survey. rewrite bind_eq.
  pose proof (same_env_get_bearer_token w) as (_ & Hups & _).
  destruct (get_bearer_token w) as [[b|e] w1]; [|by eexists].
  cbn [snd] in Hups. rewrite bind_eq. unfold http at 1. rewrite Hups, Hmaps.
  by eexists.
Qed.

(** A key of the survey batch: the survey list or the record of a survey. *)
Lemma survey_batch_key_kept (k : string) (s : survey_json) :
  k = surveys_key \/ (exists id, k = survey_key (str_of_int id)) ->
  preserves (keeps k) (_cache_maps_for_survey (str_of_int (SurveyID s))).
Proof.
  intros Hk. apply keeps_cache_maps_for_survey.
  - destruct Hk as [->|[id ->]]; unfold surveys_key, survey_key; discriminate.
  - destruct Hk as [->|[id ->]]; unfold surveys_key, survey_key; discriminate.
  - destruct Hk as [->|[id ->]]; key_ne.
  - intros i. destruct Hk as [->|[id ->]]; key_ne.
Qed.

Lemma failing_maps_loop (ss : list survey_json) (acc : list command)
    (w : World) (s : survey_json) (k : string) :
  In s ss ->
  maps (upstream w) (str_of_int (SurveyID s)) = None ->
  k = surveys_key \/ (exists id, k = survey_key (str_of_int id)) ->
  exists e w',
    for_fold cache_survey ss acc w = (Raise e, w') /\ keeps k w w'.
Proof.
  revert acc w. induction ss as [|s0 ss IH]; intros acc w Hin Hmaps Hk; [done|].
  cbn [for_fold]. rewrite bind_eq, cache_survey_eq.
  pose proof (survey_batch_key_kept k s0 Hk w) as Hkeep.
  pose proof (same_env_cache_maps_for_survey (str_of_int (SurveyID s0)) w)
    as (_ & Hups & _).
  destruct (_cache_maps_for_survey (str_of_int (SurveyID s0)) w)
    as [[[]|e] w1] eqn:Hrun; cbn [snd] in *; [|by exists e, w1].
  destruct Hin as [->|Hin].
  - destruct (cache_maps_for_survey_fails _ w Hmaps) as [e He].
    rewrite Hrun in He. discriminate.
  - destruct (IH (acc ++ survey_commands s0) w1 Hin) as (e & w' & Hloop & Hkeep');
      [by rewrite Hups|done|].
    exists e, w'. split; [done|]. by etrans.
Qed.

(** X11. When the maps request of a listed survey fails, the survey refresh
    raises, and the survey list and every survey record in Redis are as
    they were before the call: the survey batch is never sent. *)
Theorem survey_refresh_failure_keeps_surveys
    (w : World) (ss : list survey_json) (s : survey_json) :
  surveys (upstream w) = Some ss ->
  In s ss ->
  maps (upstream w) (str_of_int (SurveyID s)) = None ->
  exists e w',
    _cache_survey_data w = (Raise e, w')
    /\ r w' !! surveys_key = r w !! surveys_key
    /\ forall id, r w' !! survey_key (str_of_int id)
                  = r w !! survey_key (str_of_int id).
Proof.
  intros Hss Hin Hmaps.
  assert (Hall : forall k,
            k = surveys_key \/ (exists id, k = survey_key (str_of_int id)) ->
            exists e w', _cache_survey_data w = (Raise e, w') /\ keeps k w w').
  { intros k Hk. unfold _cache_survey_data. rewrite bind_eq.
    assert (Hb : keeps k w (get_bearer_token w).2).
    { apply keeps_get_bearer_token;
        destruct Hk as [->|[id ->]]; unfold surveys_key, survey_key; discriminate. }
    pose proof (same_env_get_bearer_token w) as (_ & Hups & _).
    destruct (get_bearer_token w) as [[b|e] w1]; cbn [snd] in *;
      [|by exists e, w1].
    rewrite bind_eq. unfold http at 1. rewrite Hups, Hss. rewrite bind_eq.
    destruct (failing_maps_loop ss [DEL surveys_key] (requested GetSurveys w1) s k)
      as (e & w2 & Hloop & Hkeep); [done|by cbn; rewrite Hups|done|].
    rewrite Hloop. exists e, w2. split; [done|]. by etrans. }
  destruct (Hall surveys_key (or_introl eq_refl)) as (e & w' & Hrun & Hlist).
  exists e, w'. split_and!; [done|done|].
  intros id.
  destruct (Hall (survey_key (str_of_int id))) as (e' & w'' & Hrun' & Hrec);
    [right; by exists id|].
  rewrite Hrun in Hrun'. by injection Hrun' as _ <-.
Qed.

Lemma survey_refresh_failure_keeps_surveys_witness :
  let w := Scenario.cold Scenario.maps_unavailable in
  exists e w',
    _cache_survey_data w = (Raise e, w')
    /\ r w' !! surveys_key = r w !! surveys_key
    /\ forall id, r w' !! survey_key (str_of_int id)
                  = r w !! survey_key (str_of_int id).
Proof.
  apply (survey_refresh_failure_keeps_surveys
           (Scenario.cold Scenario.maps_unavailable)
           [ {| SurveyID := 42; Active := true; Name := "Library";
                StartTime := "2018-01-01"; EndTime := "2019-01-01" |};
             {| SurveyID := 7; Active := false; Name := "Science";
                StartTime := "2017-01-01"; EndTime := "2018-01-01" |} ]
           {| SurveyID := 7; Active := false; Name := "Science";
              StartTime := "2017-01-01"; EndTime := "2018-01-01" |}).
  - reflexivity.
  - right. by left.
  - reflexivity.
Defined.

(** *** An upstream without surveys *)

(** X12. When upstream lists no survey, [get_surveys] on an empty survey list
    refreshes, returns the empty list, and leaves the survey list absent:
    the conditions of the call hold again afterwards, so every call sends
    the surveys request again. *)
Theorem get_surveys_empty_listing (w : World) :
  llen w surveys_key = Integer 0 ->
  can_authenticate w ->
  surveys (upstream w) = Some [] ->
  exists w',
    get_surveys w = (Return [], w')
    /\ count_requests GetSurveys (sent w') = S (count_requests GetSurveys (sent w))
    /\ r w' !! surveys_key = None
    /\ can_authenticate w'
    /\ upstream w' = upstream w.
Proof.
  intros Hlen Hcan Hss. unfold get_surveys.
  rewrite bind_eq, r_llen_eq, Hlen. cbn [Z.eqb].
  set (w1 := round_trip _ _ w).
  destruct (get_bearer_token_ok w1 Hcan) as (b & w2 & Hb & Hclock & Hups & _ & _ & Hcan2).
  pose proof (same_count_get_bearer_token GetSurveys eq_refl w1) as Hcount.
  rewrite Hb in Hcount. cbn [snd] in Hcount.
  rewrite bind_eq. unfold _cache_survey_data.
  rewrite (bind_return _ _ _ _ _ Hb), bind_eq. unfold http at 1.
  rewrite Hups. cbn [upstream round_trip w1]. rewrite Hss.
  cbn [for_fold]. rewrite bind_eq. unfold ret at 1. rewrite bind_eq.
  unfold execute. rewrite bool_decide_eq_false_2 by done.
  set (w3 := requested GetSurveys w2).
  destruct (exec_del_expire (clock w3) (r w3) surveys_key SURVEY_TTL)
    as (reps & Hx & Hok).
  cbn [app]. rewrite Hx, Hok. cbv beta iota. unfold ret at 1. cbv beta iota.
  set (w4 := round_trip _ _ w3).
  assert (Hgone : lookup (clock w4) (r w4) surveys_key = None).
  { apply lookup_absent. apply lookup_delete_eq. }
  assert (Hlen4 : llen w4 surveys_key = Integer 0).
  { unfold llen. cbn [exec]. by rewrite Hgone. }
  rewrite bind_eq, r_llen_eq, Hlen4.
  set (w5 := round_trip _ _ w4).
  rewrite bind_eq, r_lrange_eq.
  assert (Hlen5 : llen w5 surveys_key = Integer 0) by exact Hlen4.
  rewrite (llen_zero_lrange w5 _ _ _ Hlen5). cbn [for_fold].
  eexists. split; [reflexivity|].
  cbn [sent r upstream round_trip requested w5 w4 w3].
  split_and!.
  - unfold same_count in Hcount. change (sent w1) with (sent w) in Hcount.
    rewrite count_requests_snoc, Hcount. cbn [request_eqb]. lia.
  - apply lookup_delete_eq.
  - exact Hcan2.
  - by rewrite Hups.
Qed.

Lemma get_surveys_empty_listing_witness :
  let w := Scenario.cold Scenario.no_surveys in
  exists w',
    get_surveys w = (Return [], w')
    /\ count_requests GetSurveys (sent w') = S (count_requests GetSurveys (sent w))
    /\ r w' !! surveys_key = None
    /\ can_authenticate w'
    /\ upstream w' = upstream w.
Proof.
  apply (get_surveys_empty_listing (Scenario.cold Scenario.no_surveys)).
  - vm_compute. reflexivity.
  - right. split; [|discriminate]. vm_compute. eauto.
  - reflexivity.
Defined.

(** ** Images: read-through and failure *)


Lemma r_exists_eq (k : string) (w : World) :
  r_exists k w
  = (Return (bool_decide (is_Some (lookup (clock w) (r w) k))),
     round_trip [EXISTS k] (r w) w).
Proof.
  unfold r_exists, redis, mbind, M_bind, bind. cbn [exec].
  destruct (lookup (clock w) (r w) k) as [e|].
  - by rewrite bool_decide_eq_true_2.
  - rewrite bool_decide_eq_false_2; [done|]. by intros [? ?].
Qed.





(** X14. When the image request fails, or its response has no content type,
    [get_image] raises [BadOccupEyeRequest] after one image request, and the
    two entries of the image are as they were: nothing is cached for it. *)
Theorem get_image_upstream_failure (w : World) (image_id : string) :
  isdigit image_id = true ->
  lookup (clock w) (r w) (image_base64_key image_id) = None ->
  can_authenticate w ->
  images (upstream w) image_id = None
  \/ (exists image, images (upstream w) image_id = Some image
                    /\ content_type_header image = None) ->
  exists w',
    get_image image_id w = (Raise BadOccupEyeRequest, w')
    /\ r w' !! image_base64_key image_id = r w !! image_base64_key image_id
    /\ r w' !! image_content_type_key image_id
       = r w !! image_content_type_key image_id
    /\ count_requests (GetImage image_id) (sent w')
       = S (count_requests (GetImage image_id) (sent w)).
Proof.
  intros Hd Hmiss Hcan Hfail.
  unfold get_image. rewrite Hd. cbn [negb].
  rewrite bind_eq, r_exists_eq, Hmiss.
  rewrite bool_decide_eq_false_2 by (by intros [? ?]). cbn [negb].
  set (w0 := round_trip [EXISTS (image_base64_key image_id)] (r w) w).
  destruct (get_bearer_token_ok w0 Hcan) as (b & w1 & Hb & Hclock & Hups & Hfr & _).
  pose proof (same_count_get_bearer_token (GetImage image_id) eq_refl w0) as Hcount.
  rewrite Hb in Hcount. cbn [snd] in Hcount. unfold same_count in Hcount.
  change (sent w0) with (sent w) in Hcount.
  rewrite bind_eq. unfold _cache_image.
  rewrite (bind_return _ _ _ _ _ Hb), bind_eq.
  unfold try_except_raise, http. rewrite bind_eq, Hups.
  change (upstream w0) with (upstream w).
  assert (Hout : forall w2, w2 = requested (GetImage image_id) w1 ->
            r w2 !! image_base64_key image_id = r w !! image_base64_key image_id
            /\ r w2 !! image_content_type_key image_id
               = r w !! image_content_type_key image_id
            /\ count_requests (GetImage image_id) (sent w2)
               = S (count_requests (GetImage image_id) (sent w))).
  { intros w2 ->. cbn [r sent requested]. split_and!.
    - apply (Hfr (image_base64_key image_id));
        unfold image_base64_key; discriminate.
    - apply (Hfr (image_content_type_key image_id));
        unfold image_content_type_key; discriminate.
    - rewrite count_requests_snoc, Hcount. cbn [request_eqb].
      rewrite String.eqb_refl. lia. }
  destruct Hfail as [->|(image & -> & ->)]; eexists; (split; [reflexivity|]);
    by apply Hout.
Qed.

Lemma get_image_upstream_failure_witness :
  let w := Scenario.cold Scenario.one_room in
  exists w',
    get_image "7" w = (Raise BadOccupEyeRequest, w')
    /\ r w' !! image_base64_key "7" = r w !! image_base64_key "7"
    /\ r w' !! image_content_type_key "7" = r w !! image_content_type_key "7"
    /\ count_requests (GetImage "7") (sent w')
       = S (count_requests (GetImage "7") (sent w)).
Proof.
  apply (get_image_upstream_failure (Scenario.cold Scenario.one_room) "7").
  - reflexivity.
  - vm_compute. reflexivity.
  - right. split; [|discriminate]. vm_compute. eauto.
  - left. reflexivity.
Defined.

(** ** Expiry of the sensor list of a map *)

Lemma exec_rpush_live (now : Q) (d : gmap string entry) (k v : string) :
  is_Some (lookup now (exec now d (RPUSH k v)).1 k).
Proof.
  simpl. destruct (lookup now d k) as [[[s|l|h] t]|] eqn:Hl; simpl;
    try (rewrite Hl; eauto; fail).
  - unfold lookup. rewrite lookup_insert_eq.
    unfold lookup in Hl. destruct (d !! k) as [e|]; [|done].
    destruct (live now e) eqn:Hlive; [|done]. injection Hl as ->.
    unfold live in *. simpl in *. rewrite Hlive. eauto.
  - unfold lookup. rewrite lookup_insert_eq. simpl. eauto.
Qed.

Lemma properties_key_ne_list (survey_id map_id h : string) :
  sensor_properties_key survey_id map_id h <> map_sensors_key survey_id map_id.
Proof.
  intros H. unfold sensor_properties_key, map_sensors_key in H.
  do 4 apply String.app_inj in H. discriminate.
Qed.

Lemma properties_key_inj (survey_id map_id h h' : string) :
  no_colon h = true -> no_colon h' = true ->
  sensor_properties_key survey_id map_id h
  = sensor_properties_key survey_id map_id h' -> h = h'.
Proof.
  intros Hh Hh' H. unfold sensor_properties_key in H.
  do 5 apply String.app_inj in H.
  by apply (app_colon_inj h h') in H as [-> _].
Qed.

Section MapSensorExpiry.

Variable now : Q.
Variables survey_id map_id : string.

Lemma map_sensor_commands_assign (it : map_item_json) (d : gmap string entry) :
  let d' := (exec_all now d (map_sensor_commands survey_id map_id it)).1 in
  expires d'
    (sensor_properties_key survey_id map_id (str_of_int (item_HardwareID it)))
    (now + inject_Z SURVEY_TTL)%Q
  /\ is_Some (lookup now d' (map_sensors_key survey_id map_id)).
Proof.
  cbv zeta. unfold map_sensor_commands.
  rewrite !exec_all_cons, exec_all_nil.
  pose proof (properties_key_ne_list survey_id map_id
                (str_of_int (item_HardwareID it))) as Hne.
  split.
  - apply exec_expire_assigns; [apply exec_hmset_live|done].
  - rewrite !lookup_frame by (cbn [key_of]; congruence). apply exec_rpush_live.
Qed.

Lemma map_sensor_commands_keep (it it' : map_item_json) (d : gmap string entry) :
  expires d
    (sensor_properties_key survey_id map_id (str_of_int (item_HardwareID it)))
    (now + inject_Z SURVEY_TTL)%Q ->
  expires (exec_all now d (map_sensor_commands survey_id map_id it')).1
    (sensor_properties_key survey_id map_id (str_of_int (item_HardwareID it)))
    (now + inject_Z SURVEY_TTL)%Q.
Proof.
  intros Hd.
  destruct (decide (str_of_int (item_HardwareID it)
                    = str_of_int (item_HardwareID it'))) as [Heq|Hne].
  - rewrite Heq. apply map_sensor_commands_assign.
  - unfold map_sensor_commands. rewrite !exec_all_cons, exec_all_nil.
    pose proof (properties_key_ne_list survey_id map_id
                  (str_of_int (item_HardwareID it))) as HL.
    assert (HK : sensor_properties_key survey_id map_id
                   (str_of_int (item_HardwareID it'))
                 <> sensor_properties_key survey_id map_id
                      (str_of_int (item_HardwareID it))).
    { intros E. apply properties_key_inj in E; auto with segments. }
    repeat (apply expires_frame; [cbn [key_of]; congruence|]). done.
Qed.

Lemma map_sensor_pipeline_assigns (it : map_item_json) (items : list map_item_json)
    (d : gmap string entry) :
  In it items ->
  let d' := (exec_all now d
               (flat_map (map_sensor_commands survey_id map_id) items)).1 in
  expires d'
    (sensor_properties_key survey_id map_id (str_of_int (item_HardwareID it)))
    (now + inject_Z SURVEY_TTL)%Q
  /\ is_Some (lookup now d' (map_sensors_key survey_id map_id)).
Proof.
  revert d. induction items as [|it' items IH] using rev_ind; intros d Hin;
    [done|]. cbv zeta.
  rewrite flat_map_app. cbn [flat_map]. rewrite app_nil_r, exec_all_app.
  set (d1 := (exec_all now d (flat_map _ items)).1).
  destruct (map_sensor_commands_assign it' d1) as [Hk Hl]. split; [|done].
  apply in_app_or in Hin as [Hin|[->|[]]]; [|done].
  apply map_sensor_commands_keep. by apply IH.
Qed.

Lemma map_sensor_batch_assigns (it : map_item_json) (items : list map_item_json)
    (d : gmap string entry) :
  In it items ->
  let d' := (exec_all now d
               ([DEL (map_sensors_key survey_id map_id)]
                ++ flat_map (map_sensor_commands survey_id map_id) items
                ++ [EXPIRE (map_sensors_key survey_id map_id) SENSOR_STATUS_TTL])).1 in
  expires d' (map_sensors_key survey_id map_id)
    (now + inject_Z SENSOR_STATUS_TTL)%Q
  /\ expires d'
       (sensor_properties_key survey_id map_id (str_of_int (item_HardwareID it)))
       (now + inject_Z SURVEY_TTL)%Q.
Proof.
  intros Hin. cbv zeta. rewrite exec_all_app, (exec_all_app _ (flat_map _ _)).
  destruct (map_sensor_pipeline_assigns it items
              (exec_all now d [DEL (map_sensors_key survey_id map_id)]).1 Hin)
    as [Hk Hl].
  rewrite exec_all_cons, exec_all_nil. split.
  - by apply exec_expire_assigns.
  - apply expires_frame; [|done]. cbn [key_of]. apply not_eq_sym.
    apply properties_key_ne_list.
Qed.

End MapSensorExpiry.

(** X15. After the position refresh of a map, the sensor list of the map expires
    [SENSOR_STATUS_TTL] (60) seconds after the refresh and the position
    record of every listed sensor [SURVEY_TTL] (86400) seconds after it. *)
Theorem map_sensor_list_expires_first
    (w w' : World) (survey_id map_id : string) (items : list map_item_json)
    (it : map_item_json) :
  _cache_sensors_for_map survey_id map_id w = (Return tt, w') ->
  map_items (upstream w) map_id = Some items ->
  In it items ->
  expires (r w') (map_sensors_key survey_id map_id)
    (clock w + inject_Z SENSOR_STATUS_TTL)%Q
  /\ expires (r w')
       (sensor_properties_key survey_id map_id (str_of_int (item_HardwareID it)))
       (clock w + inject_Z SURVEY_TTL)%Q
  /\ (clock w + inject_Z SENSOR_STATUS_TTL < clock w + inject_Z SURVEY_TTL)%Q.
Proof.
  intros Hrun Hup Hin. split_and!; [| |apply Qplus_lt_r; reflexivity].
  all: unfold _cache_sensors_for_map in Hrun; rewrite bind_eq in Hrun;
    pose proof (same_env_get_bearer_token w) as (Hclock & Hups & _);
    destruct (get_bearer_token w) as [[b|e] w1]; [|discriminate];
    simpl in Hclock, Hups; rewrite bind_eq in Hrun; unfold http in Hrun;
    rewrite Hups, Hup in Hrun; rewrite bind_eq in Hrun;
    unfold execute in Hrun; rewrite bool_decide_eq_false_2 in Hrun by done;
    pose proof (map_sensor_batch_assigns (clock w1) survey_id map_id it items
                  (r w1) Hin) as [HL HK];
    change (clock (requested (GetMap map_id) w1)) with (clock w1) in Hrun;
    change (r (requested (GetMap map_id) w1)) with (r w1) in Hrun;
    destruct (exec_all (clock w1) (r w1) _) as [d reps];
    destruct (existsb is_error reps); [discriminate|];
    injection Hrun as <-; rewrite <- Hclock; done.
Qed.

Lemma map_sensor_list_expires_first_witness :
  let w := Scenario.cold Scenario.campus in
  let it := {| item_HardwareID := 100; X := "1.0"; Y := "2.0" |} in
  expires (r (_cache_sensors_for_map "42" "1" w).2) (map_sensors_key "42" "1")
    (clock w + inject_Z SENSOR_STATUS_TTL)%Q
  /\ expires (r (_cache_sensors_for_map "42" "1" w).2)
       (sensor_properties_key "42" "1" (str_of_int (item_HardwareID it)))
       (clock w + inject_Z SURVEY_TTL)%Q
  /\ (clock w + inject_Z SENSOR_STATUS_TTL < clock w + inject_Z SURVEY_TTL)%Q.
Proof.
  apply (map_sensor_list_expires_first
           (Scenario.cold Scenario.campus)
           (_cache_sensors_for_map "42" "1" (Scenario.cold Scenario.campus)).2
           "42" "1" [ {| item_HardwareID := 100; X := "1.0"; Y := "2.0" |} ]).
  - vm_compute. reflexivity.
  - reflexivity.
  - by left.
Defined.

(** ** Entries without a time to live *)

Lemma persistent_weaken (U V : string -> Prop) (d : gmap string entry) :
  (forall k, U k -> V k) -> persistent_within U d -> persistent_within V d.
Proof. intros HUV Hd k e Hk He. apply HUV. by eapply Hd. Qed.

Lemma persistent_exec (U : string -> Prop) (now : Q) (d : gmap string entry)
    (c : command) :
  persistent_within U d ->
  persistent_within (fun k => U k \/ k = key_of c) (exec now d c).1.
Proof.
  intros Hd k e Hk He.
  destruct (decide (k = key_of c)) as [->|Hne]; [by right|left].
  rewrite exec_frame in Hk by done. by eapply Hd.
Qed.

Lemma persistent_expire (U : string -> Prop) (now : Q) (d : gmap string entry)
    (k : string) (seconds : Z) :
  persistent_within (fun k' => U k' \/ k' = k) d ->
  persistent_within U (exec now d (EXPIRE k seconds)).1.
Proof.
  intros Hd k' e Hk He.
  destruct (decide (k' = k)) as [->|Hne].
  - exfalso. revert Hk. cbn [exec].
    destruct (lookup now d k) as [e0|] eqn:Hl.
    + destruct (seconds <=? 0); cbn [fst].
      * by rewrite lookup_delete_eq.
      * rewrite lookup_insert_eq. intros [= <-]. done.
    + cbn [fst]. intros Hk. unfold lookup in Hl. rewrite Hk in Hl.
      unfold live in Hl. by rewrite He in Hl.
  - rewrite exec_frame in Hk by done.
    destruct (Hd k' e Hk He) as [HU|Heq]; done.
Qed.

Lemma settles_nil (U : string -> Prop) : settles U [].
Proof. by intros V HV now d Hd. Qed.

Lemma settles_app (U : string -> Prop) (cs1 cs2 : list command) :
  settles U cs1 -> settles U cs2 -> settles U (cs1 ++ cs2).
Proof.
  intros H1 H2 V HV now d Hd. rewrite exec_all_app. by apply H2, H1.
Qed.

Lemma settles_flat_map {A} (U : string -> Prop) (f : A -> list command)
    (l : list A) :
  (forall x, settles U (f x)) -> settles U (flat_map f l).
Proof.
  intros Hf. induction l as [|x l IH]; cbn [flat_map]; [apply settles_nil|].
  by apply settles_app.
Qed.

Lemma settles_reads (U : string -> Prop) (cs : list command) :
  Forall (fun c => writes c = false) cs -> settles U cs.
Proof. intros Hcs V HV now d Hd. by rewrite exec_all_read. Qed.

(** A command on a key that may stay without an expiry. *)
Lemma settles_write (U : string -> Prop) (c : command) :
  U (key_of c) -> settles U [c].
Proof.
  intros Hc V HV now d Hd. rewrite exec_all_cons, exec_all_nil.
  eapply persistent_weaken; [|by apply persistent_exec].
  cbn. intros k [Hk| ->]; auto.
Qed.

(** Commands on key [k], then its expiry. *)
Lemma settles_then_expire (U : string -> Prop) (k : string) (cs : list command)
    (seconds : Z) :
  settles (fun k' => U k' \/ k' = k) cs ->
  settles U (cs ++ [EXPIRE k seconds]).
Proof.
  intros Hcs V HV now d Hd. rewrite exec_all_app, exec_all_cons, exec_all_nil.
  apply persistent_expire. apply Hcs.
  - cbn. intros k' [Hk'| ->]; auto.
  - eapply persistent_weaken; [|exact Hd]. cbn. tauto.
Qed.

Lemma settles_mono (U U' : string -> Prop) (cs : list command) :
  (forall k, U k -> U' k) -> settles U cs -> settles U' cs.
Proof. intros HU Hcs V HV. apply Hcs. auto. Qed.

(** *** The batches of the class *)

Lemma settles_maps_pipeline (U : string -> Prop) (survey_id : string)
    (ms : list map_json) :
  settles U
    ([DEL (survey_maps_key survey_id)]
     ++ flat_map (maps_commands survey_id) ms
     ++ [EXPIRE (survey_maps_key survey_id) SURVEY_TTL]).
Proof.
  rewrite app_assoc. apply settles_then_expire. apply settles_app.
  - apply settles_write. by right.
  - apply settles_flat_map. intros m. unfold maps_commands.
    match goal with |- settles _ [?a; ?b; ?c] =>
      change [a; b; c] with ([a; b] ++ [c]) end.
    apply settles_then_expire.
    apply (settles_app _ [_] [_]); apply settles_write; cbn; auto.
Qed.

Lemma settles_survey_commands (U : string -> Prop) (s : survey_json) :
  settles (fun k => U k \/ k = surveys_key) (survey_commands s).
Proof.
  unfold survey_commands.
  match goal with |- settles _ [?a; ?b; ?c] =>
    change [a; b; c] with (([a] ++ [b]) ++ [c]) end.
  apply settles_app.
  - apply settles_then_expire. apply settles_write. cbn. auto.
  - apply settles_write. cbn. auto.
Qed.

Lemma settles_sensor_pipeline (U : string -> Prop) (survey_id : string)
    (all : list sensor_json) :
  settles U
    ([DEL (survey_sensors_key survey_id)]
     ++ flat_map (sensor_state_commands survey_id) all
     ++ [EXPIRE (survey_sensors_key survey_id) SURVEY_TTL]).
Proof.
  rewrite app_assoc. apply settles_then_expire. apply settles_app.
  - apply settles_write. by right.
  - apply settles_flat_map. intros s. unfold sensor_state_commands.
    match goal with |- settles _ [?a; ?b; ?c; ?d; ?e] =>
      change [a; b; c; d; e] with (([a; b; c] ++ [d]) ++ [e]) end.
    apply settles_then_expire, settles_then_expire.
    apply (settles_app _ [_] [_; _]); [apply settles_write; cbn; auto|].
    apply (settles_app _ [_] [_]); apply settles_write; cbn; auto.
Qed.

Lemma settles_map_sensor_pipeline (U : string -> Prop) (survey_id map_id : string)
    (items : list map_item_json) :
  settles U
    ([DEL (map_sensors_key survey_id map_id)]
     ++ flat_map (map_sensor_commands survey_id map_id) items
     ++ [EXPIRE (map_sensors_key survey_id map_id) SENSOR_STATUS_TTL]).
Proof.
  rewrite app_assoc. apply settles_then_expire. apply settles_app.
  - apply settles_write. by right.
  - apply settles_flat_map. intros it. unfold map_sensor_commands.
    match goal with |- settles _ [?a; ?b; ?c] =>
      change [a; b; c] with ([a; b] ++ [c]) end.
    apply settles_then_expire.
    apply (settles_app _ [_] [_]); apply settles_write; cbn; auto.
Qed.

Lemma settles_image_batch (U : string -> Prop) (image_id b c : string) :
  settles U
    [ SET (image_base64_key image_id) b;
      EXPIRE (image_base64_key image_id) IMAGE_TTL;
      SET (image_content_type_key image_id) c;
      EXPIRE (image_content_type_key image_id) IMAGE_TTL ].
Proof.
  match goal with |- settles _ [?a; ?b; ?c; ?d] =>
    change [a; b; c; d] with (([a] ++ [b]) ++ ([c] ++ [d])) end.
  apply settles_app; apply settles_then_expire, settles_write; cbn; auto.
Qed.

(** *** The methods *)

Global Instance expiring_kept_preorder : PreOrder expiring_kept.
Proof.
  split.
  - intros w H. exact H.
  - intros w1 w2 w3 H12 H23 H. by apply H23, H12.
Qed.

Lemma expiring_kept_redis (c : command) :
  settles credential_key [c] -> preserves expiring_kept (redis c).
Proof.
  intros Hc w Hw. rewrite redis_world. cbn [r round_trip].
  specialize (Hc credential_key (fun _ H => H) (clock w) (r w) Hw).
  by rewrite exec_all_cons, exec_all_nil in Hc.
Qed.

Lemma expiring_kept_execute (cs : list command) :
  settles credential_key cs -> preserves expiring_kept (execute cs).
Proof.
  intros Hcs w Hw. destruct (decide (cs = [])) as [->|Hne]; [done|].
  rewrite execute_world by done. cbn [r round_trip].
  by apply (Hcs credential_key (fun _ H => H)).
Qed.

Ltac settle_one :=
  first
    [ apply settles_reads; solve [reads_all]
    | apply settles_write; solve [left; reflexivity | right; reflexivity] ].

Ltac settle_batch :=
  first
    [ apply settles_reads; solve [reads_all]
    | simple apply settles_maps_pipeline
    | simple apply settles_sensor_pipeline
    | simple apply settles_map_sensor_pipeline
    | simple apply settles_image_batch ].

Ltac expiring_step :=
  first
    [ apply expiring_kept_redis; settle_one
    | apply expiring_kept_execute; settle_batch
    | preserves_step
    | (unfold preserves, expiring_kept; intros ? H; exact H)
    | (unfold preserves, expiring_kept, http; intros ? H; case_match; exact H) ].

Lemma expiring_kept_get_token : preserves expiring_kept get_token.
Proof. unfold get_token, r_set. repeat expiring_step. Qed.

Lemma expiring_kept_get_bearer_token : preserves expiring_kept get_bearer_token.
Proof.
  unfold get_bearer_token, token_valid.
  repeat first [apply expiring_kept_get_token | expiring_step].
Qed.

Lemma expiring_kept_init (test_mode : bool) :
  preserves expiring_kept (init test_mode).
Proof.
  unfold init, r_get, int.
  repeat first [apply expiring_kept_get_token | expiring_step].
Qed.

Lemma expiring_kept_cache_maps_for_survey (survey_id : string) :
  preserves expiring_kept (_cache_maps_for_survey survey_id).
Proof.
  unfold _cache_maps_for_survey.
  repeat first [apply expiring_kept_get_bearer_token | expiring_step].
Qed.

Lemma expiring_kept_maps_loop (ss : list survey_json) (acc : list command)
    (w : World) :
  settles (fun k => credential_key k \/ k = surveys_key) acc ->
  persistent_within credential_key (r w) ->
  let res := for_fold cache_survey ss acc w in
  persistent_within credential_key (r res.2)
  /\ forall p, res.1 = Return p ->
       settles (fun k => credential_key k \/ k = surveys_key) p.
Proof.
  revert acc w. induction ss as [|s ss IH]; intros acc w Hacc Hw; cbv zeta.
  - simpl. split; [done|]. by intros p [= <-].
  - cbn [for_fold]. rewrite bind_eq, cache_survey_eq.
    pose proof (expiring_kept_cache_maps_for_survey
                  (str_of_int (SurveyID s)) w Hw) as Hw'.
    destruct (_cache_maps_for_survey (str_of_int (SurveyID s)) w)
      as [[[]|e] w'].
    + apply IH; [|done].
      apply settles_app; [done|]. apply settles_survey_commands.
    + split; [done|]. by intros p.
Qed.

Lemma expiring_kept_cache_survey_data : preserves expiring_kept _cache_survey_data.
Proof.
  unfold _cache_survey_data.
  apply preserves_bind; [apply _|apply expiring_kept_get_bearer_token|intros _].
  apply preserves_bind; [apply _|expiring_step|intros ss].
  unfold expiring_kept. intros w Hw. rewrite bind_eq.
  destruct (expiring_kept_maps_loop ss [DEL surveys_key] w) as [Hw1 Hp];
    [apply settles_write; by right|done|].
  destruct (for_fold cache_survey ss [DEL surveys_key] w) as [[p|e] w1]; [|done].
  cbn [fst snd] in *. rewrite bind_eq.
  assert (Hall : settles credential_key (p ++ [EXPIRE surveys_key SURVEY_TTL])).
  { apply settles_then_expire. by apply Hp. }
  pose proof (expiring_kept_execute _ Hall w1 Hw1) as Hex.
  by destruct (execute _ w1) as [[reps|e] w2].
Qed.

Lemma expiring_kept_get_surveys : preserves expiring_kept get_surveys.
Proof.
  unfold get_surveys, read_survey, read_map, r_llen, r_lrange, r_hgetall,
    getitem, int.
  repeat first [apply expiring_kept_cache_survey_data | expiring_step].
Qed.

Lemma expiring_kept_cache_image (image_id : string) :
  preserves expiring_kept (_cache_image image_id).
Proof.
  unfold _cache_image.
  repeat first [apply expiring_kept_get_bearer_token | expiring_step].
Qed.

Lemma expiring_kept_get_image (image_id : string) :
  preserves expiring_kept (get_image image_id).
Proof.
  unfold get_image, r_exists, r_get.
  repeat first [apply expiring_kept_cache_image | expiring_step].
Qed.

Lemma expiring_kept_cache_all_survey_sensor_states (survey_id : string) :
  preserves expiring_kept (_cache_all_survey_sensor_states survey_id).
Proof.
  unfold _cache_all_survey_sensor_states.
  repeat first [apply expiring_kept_get_bearer_token | expiring_step].
Qed.

Lemma expiring_kept_cache_sensors_for_map (survey_id map_id : string) :
  preserves expiring_kept (_cache_sensors_for_map survey_id map_id).
Proof.
  unfold _cache_sensors_for_map.
  repeat first [apply expiring_kept_get_bearer_token | expiring_step].
Qed.

Lemma expiring_kept_get_map_sensors (survey_id : string) (return_states : bool)
    (map_id : string) :
  preserves expiring_kept (get_map_sensors survey_id return_states map_id).
Proof.
  unfold get_map_sensors, r_llen, r_lrange, r_hgetall, r_get, as_dict,
    getitem, odict_setitem.
  repeat first [ apply expiring_kept_cache_sensors_for_map
               | apply expiring_kept_cache_all_survey_sensor_states
               | expiring_step ].
Qed.

Lemma expiring_kept_get_survey_sensors (survey_id : string) (return_states : bool) :
  preserves expiring_kept (get_survey_sensors survey_id return_states).
Proof.
  unfold get_survey_sensors, r_llen, r_lrange.
  repeat first [ apply expiring_kept_cache_survey_data
               | apply expiring_kept_get_map_sensors
               | expiring_step ].
Qed.

(** X16. On every cache that the class has built from an empty one, an entry
    without an expiry is one of the two credential entries: every other
    entry the class writes carries a time to live. *)
Theorem only_the_credential_is_kept_forever (w : World) (k : string) (e : entry) :
  reachable w ->
  r w !! k = Some e ->
  expires_at e = None ->
  k = "occupeye:access_token" \/ k = "occupeye:access_token_expiry".
Proof.
  intros Hreach. revert k e.
  change (persistent_within credential_key (r w)).
  induction Hreach as [w Hempty|w w' _ IH Hr|w test_mode _ IH|w _ IH|w _ IH
                      |w image_id _ IH|w survey_id return_states _ IH].
  - intros k e Hk. by rewrite Hempty, lookup_empty in Hk.
  - by rewrite Hr.
  - by apply expiring_kept_init.
  - by apply expiring_kept_get_bearer_token.
  - by apply expiring_kept_get_surveys.
  - by apply expiring_kept_get_image.
  - by apply expiring_kept_get_survey_sensors.
Qed.

Lemma only_the_credential_is_kept_forever_witness :
  "occupeye:access_token" = "occupeye:access_token"
  \/ "occupeye:access_token" = "occupeye:access_token_expiry".
Proof.
  apply (only_the_credential_is_kept_forever
           (get_bearer_token (Scenario.cold Scenario.campus)).2
           "occupeye:access_token" (Entry (RString "tok") None)).
  - apply reachable_get_bearer_token. by apply reachable_empty.
  - vm_compute. reflexivity.
  - reflexivity.
Defined.

(** ** Keys and their segments *)

(** X17. For ids without a colon, every cache key splits at its colons into
    exactly the fixed words and the ids it was built from; so keys of
    different families, or of different ids, are different. *)
Theorem cache_keys_parse_back (survey_id map_id sensor_id image_id : string) :
  no_colon survey_id = true ->
  no_colon map_id = true ->
  no_colon sensor_id = true ->
  no_colon image_id = true ->
  split (survey_key survey_id) = ["occupeye"; "surveys"; survey_id]
  /\ split (survey_maps_key survey_id) = ["occupeye"; "surveys"; survey_id; "maps"]
  /\ split (survey_map_key survey_id map_id)
     = ["occupeye"; "surveys"; survey_id; "maps"; map_id]
  /\ split (map_sensors_key survey_id map_id)
     = ["occupeye"; "surveys"; survey_id; "maps"; map_id; "sensors"]
  /\ split (sensor_properties_key survey_id map_id sensor_id)
     = ["occupeye"; "surveys"; survey_id; "maps"; map_id; "sensors"; sensor_id;
        "properties"]
  /\ split (first_sensor_status_key survey_id map_id sensor_id)
     = ["occupeye"; "surveys"; survey_id; "maps"; map_id; "sensors"; sensor_id;
        "status"]
  /\ split (survey_sensors_key survey_id)
     = ["occupeye"; "surveys"; survey_id; "sensors"]
  /\ split (sensor_data_key survey_id sensor_id)
     = ["occupeye"; "surveys"; survey_id; "sensors"; sensor_id; "data"]
  /\ split (sensor_status_key survey_id sensor_id)
     = ["occupeye"; "surveys"; survey_id; "sensors"; sensor_id; "status"]
  /\ split (image_base64_key image_id) = ["occupeye"; "image"; image_id; "base64"]
  /\ split (image_content_type_key image_id)
     = ["occupeye"; "image"; image_id; "content_type"].
Proof.
  intros Hs Hm Hh Hi.
  split_and!;
    match goal with |- split _ = ?l => change (split (join l) = l) end;
    (apply split_join; [done|]); cbn [forallb no_colon]; cbn;
    by rewrite ?Hs, ?Hm, ?Hh, ?Hi.
Qed.

Lemma cache_keys_parse_back_witness :
  split (sensor_properties_key "42" "1" "100")
  = ["occupeye"; "surveys"; "42"; "maps"; "1"; "sensors"; "100"; "properties"]
  /\ split (image_base64_key "7") = ["occupeye"; "image"; "7"; "base64"].
Proof.
  destruct (cache_keys_parse_back "42" "1" "100" "7")
    as (_ & _ & _ & _ & Hp & _ & _ & _ & _ & Hb & _); try reflexivity.
  by split.
Defined.

(** ** The guard of [get_survey_sensors] *)

Lemma isdigit_false (s : string) :
  isdigit s = false
  <-> s = "" \/ exists c, In c (list_ascii_of_string s) /\ char_isdigit c = false.
Proof.
  split.
  - destruct s as [|a s]; [by left|]. unfold isdigit. intros H. right.
    generalize dependent (String a s). clear. intros s H.
    induction s as [|c s IH]; [done|]. cbn in H.
    apply andb_false_iff in H as [H|H].
    + exists c. split; [by left|done].
    + destruct (IH H) as (c' & Hin & Hc'). exists c'. split; [by right|done].
  - intros [->|(c & Hin & Hc)]; [done|]. by apply (isdigit_non_digit s c).
Qed.

(** X18. [get_survey_sensors] rejects an id that is empty or has a character that
    is not a digit with [BadOccupEyeRequest] in an unchanged world; for
    every other id, the first thing it does is ask Redis for the length of
    the survey's map list. *)
Theorem get_survey_sensors_guard
    (survey_id : string) (return_states : bool) (w : World) :
  ((survey_id = ""
    \/ exists c, In c (list_ascii_of_string survey_id) /\ char_isdigit c = false) ->
   get_survey_sensors survey_id return_states w = (Raise BadOccupEyeRequest, w))
  /\ (isdigit survey_id = true ->
      exists rest,
        executed (get_survey_sensors survey_id return_states w).2
        = executed w ++ [LLEN (survey_maps_key survey_id)] :: rest).
Proof.
  split.
  - intros Hbad. apply isdigit_false in Hbad. unfold get_survey_sensors.
    by rewrite Hbad.
  - intros Hd. unfold get_survey_sensors. rewrite Hd. cbn [negb].
    rewrite bind_eq, r_llen_eq.
    set (w1 := round_trip _ _ w).
    destruct (llen w (survey_maps_key survey_id)) as [|n| | | |];
      try (exists []; reflexivity).
    match goal with |- context [?m w1] =>
      assert (Hrest : preserves (issues on_surveys) m)
    end.
    { unfold r_llen, r_lrange.
      repeat first [ apply issues_cache_survey_data
                   | apply issues_get_map_sensors
                   | issues_step ]. }
    destruct (Hrest w1) as (batches & Hex & _). exists batches.
    rewrite Hex. cbn [executed round_trip w1]. by rewrite <- app_assoc.
Qed.

Lemma get_survey_sensors_guard_witness :
  get_survey_sensors "" true (Scenario.cold Scenario.campus)
  = (Raise BadOccupEyeRequest, Scenario.cold Scenario.campus)
  /\ exists rest,
       executed (get_survey_sensors "42" true (Scenario.cold Scenario.campus)).2
       = [LLEN (survey_maps_key "42")] :: rest.
Proof.
  split.
  - apply (get_survey_sensors_guard "" true (Scenario.cold Scenario.campus)).
    by left.
  - apply (get_survey_sensors_guard "42" true (Scenario.cold Scenario.campus)).
    reflexivity.
Defined.

(** ** Sensor positions: from the populator to the reader *)

Lemma split_map_sensors_key (s m : string) :
  no_colon s = true -> no_colon m = true ->
  split (map_sensors_key s m) = ["occupeye"; "surveys"; s; "maps"; m; "sensors"].
Proof.
  intros Hs Hm.
  change (map_sensors_key s m)
    with (join ["occupeye"; "surveys"; s; "maps"; m; "sensors"]).
  apply split_join; [done|]. simpl. by rewrite Hs, Hm.
Qed.

Lemma split_sensor_properties_key (s m h : string) :
  no_colon s = true -> no_colon m = true -> no_colon h = true ->
  split (sensor_properties_key s m h)
  = ["occupeye"; "surveys"; s; "maps"; m; "sensors"; h; "properties"].
Proof.
  intros Hs Hm Hh.
  change (sensor_properties_key s m h)
    with (join ["occupeye"; "surveys"; s; "maps"; m; "sensors"; h; "properties"]).
  apply split_join; [done|]. simpl. by rewrite Hs, Hm, Hh.
Qed.

Lemma key_kind_map_sensors_key (s m : string) :
  no_colon s = true -> no_colon m = true ->
  key_kind (map_sensors_key s m) = Some KList.
Proof. intros Hs Hm. unfold key_kind. by rewrite split_map_sensors_key. Qed.

Lemma key_kind_sensor_properties_key (s m h : string) :
  no_colon s = true -> no_colon m = true -> no_colon h = true ->
  key_kind (sensor_properties_key s m h) = Some KHash.
Proof.
  intros Hs Hm Hh. unfold key_kind. by rewrite split_sensor_properties_key.
Qed.

Lemma position_stored_frame (now : Q) (d : gmap string entry) (c : command)
    (s m : string) (it : map_item_json) :
  key_of c <> sensor_properties_key s m (str_of_int (item_HardwareID it)) ->
  position_stored now d s m it -> position_stored now (exec now d c).1 s m it.
Proof. intros Hne. unfold position_stored. by rewrite lookup_frame. Qed.

Section PositionsBatch.

Variable now : Q.
Variables s m : string.
Hypothesis Hs : no_colon s = true.
Hypothesis Hm : no_colon m = true.

Lemma map_sensor_commands_ok (it : map_item_json) :
  Forall cmd_ok (map_sensor_commands s m it).
Proof.
  unfold map_sensor_commands. repeat constructor; unfold cmd_ok; simpl.
  - by apply key_kind_map_sensors_key.
  - apply key_kind_sensor_properties_key; auto with segments.
Qed.

Lemma map_sensor_pipeline_ok (items : list map_item_json) :
  Forall cmd_ok
    ([DEL (map_sensors_key s m)]
     ++ flat_map (map_sensor_commands s m) items
     ++ [EXPIRE (map_sensors_key s m) SENSOR_STATUS_TTL]).
Proof.
  apply Forall_app. split; [by repeat constructor|].
  apply Forall_app. split; [|by repeat constructor].
  apply Forall_flat_map, map_sensor_commands_ok.
Qed.

Lemma position_step (seen : list map_item_json) (it : map_item_json)
    (d : gmap string entry) :
  well_kinded d ->
  list_at now d (map_sensors_key s m)
    (map (fun i => str_of_int (item_HardwareID i)) seen) ->
  Forall (position_stored now d s m) seen ->
  ~ In (item_HardwareID it) (map item_HardwareID seen) ->
  let d' := (exec_all now d (map_sensor_commands s m it)).1 in
  list_at now d' (map_sensors_key s m)
    (map (fun i => str_of_int (item_HardwareID i)) (seen ++ [it]))
  /\ Forall (position_stored now d' s m) (seen ++ [it]).
Proof.
  intros Hd Hlist Hall Hnew. cbv zeta. unfold map_sensor_commands.
  rewrite !exec_all_cons, exec_all_nil.
  set (h := str_of_int (item_HardwareID it)).
  set (K := sensor_properties_key s m h).
  set (L := map_sensors_key s m) in *.
  set (f := [("id", _); _; _]).
  assert (HKL : K <> L) by apply properties_key_ne_list.
  assert (HK : key_kind K = Some KHash).
  { apply key_kind_sensor_properties_key; auto. apply no_colon_str_of_int. }
  set (d1 := (exec now d (RPUSH L h)).1).
  assert (Hd1 : well_kinded d1).
  { apply (exec_ok now d (RPUSH L h) Hd). unfold cmd_ok. simpl.
    by apply key_kind_map_sensors_key. }
  set (d2 := (exec now d1 (HMSET K f)).1).
  assert (Hnew2 : position_stored now d2 s m it).
  { destruct (lookup_hmset now d1 K f (kinded_hash now d1 K Hd1 HK)) as (h0 & t & Hl).
    exists (hash_update f h0), t. split; [exact Hl|].
    unfold hash_update, f. simpl. split_and!.
    - do 2 rewrite lookup_insert_ne by done. by rewrite lookup_insert_eq.
    - rewrite lookup_insert_ne by done. by rewrite lookup_insert_eq.
    - by rewrite lookup_insert_eq. }
  split.
  - rewrite List.map_app. cbn [map].
    do 2 (apply list_at_frame; [cbn [key_of]; done|]). by apply lookup_rpush.
  - apply Forall_app. split.
    + rewrite List.Forall_forall in Hall |- *. intros i Hin.
      assert (Hne : item_HardwareID i <> item_HardwareID it).
      { intros Heq. apply Hnew. rewrite <- Heq. by apply in_map. }
      assert (Hk : K <> sensor_properties_key s m (str_of_int (item_HardwareID i))).
      { subst K h. intros E. apply properties_key_inj in E; auto with segments.
        apply str_of_int_inj in E. congruence. }
      apply position_stored_frame; [cbn [key_of]; done|].
      apply position_stored_frame; [cbn [key_of]; done|].
      apply position_stored_frame; [cbn [key_of]|by apply Hall].
      apply not_eq_sym, properties_key_ne_list.
    + constructor; [|constructor].
      destruct Hnew2 as (h0 & t & Hl & H1 & H2 & H3).
      exists h0, (Some (now + inject_Z SURVEY_TTL)%Q). split; [|done].
      fold h. fold K. by rewrite (lookup_expire now d2 K SURVEY_TTL _ eq_refl Hl).
Qed.

Lemma position_steps (items seen : list map_item_json) (d : gmap string entry) :
  well_kinded d ->
  list_at now d (map_sensors_key s m)
    (map (fun i => str_of_int (item_HardwareID i)) seen) ->
  Forall (position_stored now d s m) seen ->
  NoDup (map item_HardwareID (seen ++ items)) ->
  let d' := (exec_all now d (flat_map (map_sensor_commands s m) items)).1 in
  list_at now d' (map_sensors_key s m)
    (map (fun i => str_of_int (item_HardwareID i)) (seen ++ items))
  /\ Forall (position_stored now d' s m) (seen ++ items).
Proof.
  revert seen d. induction items as [|it items IH];
    intros seen d Hd Hlist Hall Hnd; cbv zeta.
  - simpl. by rewrite app_nil_r.
  - cbn [flat_map]. rewrite exec_all_app.
    assert (Hnew : ~ In (item_HardwareID it) (map item_HardwareID seen)).
    { rewrite List.map_app in Hnd. apply NoDup_app in Hnd as (_ & Hdisj & _).
      intros Hin. apply (Hdisj (item_HardwareID it)).
      - by apply list_elem_of_In.
      - apply list_elem_of_In. by left. }
    destruct (position_step seen it d Hd Hlist Hall Hnew) as [Hlist' Hall'].
    pose proof (exec_all_ok now (map_sensor_commands s m it) d Hd
                  (map_sensor_commands_ok it)) as [Hd' _].
    assert (Hnd' : NoDup (map item_HardwareID ((seen ++ [it]) ++ items)))
      by (by rewrite <- app_assoc).
    specialize (IH (seen ++ [it]) _ Hd' Hlist' Hall' Hnd').
    by rewrite <- app_assoc in IH.
Qed.

Lemma positions_batch_stores (items : list map_item_json) (d : gmap string entry) :
  well_kinded d ->
  NoDup (map item_HardwareID items) ->
  let d' := (exec_all now d
               ([DEL (map_sensors_key s m)]
                ++ flat_map (map_sensor_commands s m) items
                ++ [EXPIRE (map_sensors_key s m) SENSOR_STATUS_TTL])).1 in
  list_at now d' (map_sensors_key s m)
    (map (fun i => str_of_int (item_HardwareID i)) items)
  /\ Forall (position_stored now d' s m) items.
Proof.
  intros Hd Hnd. cbv zeta. rewrite exec_all_app, (exec_all_app _ (flat_map _ _)).
  rewrite exec_all_cons, exec_all_nil.
  set (d0 := (exec now d (DEL (map_sensors_key s m))).1).
  assert (Hd0 : well_kinded d0).
  { apply (exec_ok now d (DEL (map_sensors_key s m)) Hd). exact I. }
  assert (Hl0 : list_at now d0 (map_sensors_key s m)
                  (map (fun i => str_of_int (item_HardwareID i)) []))
    by apply lookup_del.
  destruct (position_steps items [] d0 Hd0 Hl0 (List.Forall_nil _) Hnd)
    as [Hlist Hall].
  cbn [app] in Hlist, Hall. rewrite exec_all_cons, exec_all_nil. split.
  - by apply list_at_expire.
  - eapply Forall_impl; [exact Hall|]. intros i Hi.
    apply position_stored_frame; [cbn [key_of]|done].
    apply not_eq_sym, properties_key_ne_list.
Qed.

End PositionsBatch.

Lemma cache_sensors_for_map_ok (w : World) (s m : string)
    (items : list map_item_json) :
  no_colon s = true -> no_colon m = true ->
  can_authenticate w ->
  well_kinded (r w) ->
  map_items (upstream w) m = Some items ->
  NoDup (map item_HardwareID items) ->
  exists w',
    _cache_sensors_for_map s m w = (Return tt, w')
    /\ clock w' = clock w
    /\ well_kinded (r w')
    /\ list_at (clock w) (r w') (map_sensors_key s m)
         (map (fun i => str_of_int (item_HardwareID i)) items)
    /\ Forall (position_stored (clock w) (r w') s m) items
    /\ count_requests (GetMap m) (sent w') = S (count_requests (GetMap m) (sent w))
    /\ can_authenticate w'
    /\ upstream w' = upstream w.
Proof.
  intros Hs Hm Hcan Hwk Hup Hnd.
  destruct (get_bearer_token_ok w Hcan)
    as (b & w1 & Hb & Hclock & Hups & _ & Hwk1 & Hcan1).
  specialize (Hwk1 Hwk).
  pose proof (same_count_get_bearer_token (GetMap m) eq_refl w) as Hcount.
  rewrite Hb in Hcount. cbn [snd] in Hcount. unfold same_count in Hcount.
  unfold _cache_sensors_for_map.
  rewrite (bind_return _ _ _ _ _ Hb), bind_eq. unfold http.
  rewrite Hups, Hup, bind_eq. unfold execute.
  rewrite bool_decide_eq_false_2 by done.
  change (clock (requested (GetMap m) w1)) with (clock w1).
  change (r (requested (GetMap m) w1)) with (r w1).
  set (pipeline := [DEL (map_sensors_key s m)] ++ _ ++ _).
  destruct (exec_all_ok (clock w1) pipeline (r w1) Hwk1
              (map_sensor_pipeline_ok s m Hs Hm items)) as [Hwk3 Hok].
  pose proof (positions_batch_stores (clock w1) s m Hs Hm items (r w1) Hwk1 Hnd)
    as [Hlist Hall].
  fold pipeline in Hlist, Hall.
  destruct (exec_all (clock w1) (r w1) pipeline) as [d3 reps].
  cbn [fst snd] in *. rewrite Hok. eexists. split; [reflexivity|].
  cbn [round_trip requested r clock sent upstream]. rewrite <- Hclock.
  split_and!; try done.
  rewrite count_requests_snoc, Hcount. cbn [request_eqb].
  rewrite String.eqb_refl. lia.
Qed.

Lemma exec_all_hgetall (now : Q) (d : gmap string entry) (ks : list string)
    (hs : list (gmap string string)) :
  Forall2 (fun k h => exists t, lookup now d k = Some (Entry (RHash h) t)) ks hs ->
  exec_all now d (map HGETALL ks) = (d, map Dict hs).
Proof.
  induction 1 as [|k h ks hs [t Hl] _ IH]; [done|].
  cbn [map exec_all exec]. by rewrite Hl, IH.
Qed.

Lemma no_error_dicts (hs : list (gmap string string)) :
  existsb is_error (map Dict hs) = false.
Proof. by induction hs. Qed.

Lemma execute_hgetall (w : World) (ks : list string)
    (hs : list (gmap string string)) :
  Forall2 (fun k h => exists t, lookup (clock w) (r w) k = Some (Entry (RHash h) t))
    ks hs ->
  exists w',
    execute (map HGETALL ks) w = (Return (map Dict hs), w') /\ untouched w w'.
Proof.
  intros Hall. unfold execute.
  destruct (decide (map HGETALL ks = [])) as [Hnil|Hne].
  - rewrite bool_decide_eq_true_2 by done. exists w.
    destruct Hall; [done|discriminate].
  - rewrite bool_decide_eq_false_2 by done.
    rewrite (exec_all_hgetall _ _ _ _ Hall), no_error_dicts.
    by eexists.
Qed.

Lemma odict_set_fresh (d : list (string * gmap string string)) (k : string)
    (v : gmap string string) :
  ~ In k (map fst d) -> odict_set d k v = d ++ [(k, v)].
Proof.
  induction d as [|[k' v'] d IH]; [done|]. cbn [map fst In odict_set app].
  intros Hnot. destruct (String.eqb_spec k' k) as [->|Hne].
  - exfalso. apply Hnot. by left.
  - rewrite IH; [done|]. intros Hin. apply Hnot. by right.
Qed.

Lemma collect_positions (keys : list string) (hs : list (gmap string string))
    (acc : list (string * gmap string string)) (w : World) :
  Forall2 (fun k h => h !! "id" = Some k) keys hs ->
  NoDup (map fst acc ++ keys) ->
  for_fold
    (fun sensors result =>
       result ← as_dict result;
       id ← getitem result "id";
       ret (odict_set sensors id result))
    (map Dict hs) acc w
  = (Return (acc ++ combine keys hs), w).
Proof.
  intros Hall. revert acc.
  induction Hall as [|k h keys hs Hid _ IH]; intros acc Hnd.
  - cbn. by rewrite app_nil_r.
  - cbn [map for_fold combine]. rewrite bind_eq, bind_eq. unfold as_dict, ret at 1.
    rewrite bind_eq, (getitem_found _ _ _ _ Hid). unfold ret at 1.
    assert (Hfresh : ~ In k (map fst acc)).
    { apply NoDup_app in Hnd as (_ & Hdisj & _). intros Hin.
      apply (Hdisj k); [by apply list_elem_of_In|by left]. }
    rewrite (odict_set_fresh _ _ _ Hfresh), IH.
    + by rewrite <- app_assoc.
    + rewrite List.map_app. cbn [map fst]. by rewrite <- app_assoc.
Qed.

Lemma r_hgetall_kinded (k : string) (w : World) :
  well_kinded (r w) -> key_kind k = Some KHash ->
  exists h, r_hgetall k w = (Return h, round_trip [HGETALL k] (r w) w).
Proof.
  intros Hwk Hk.
  destruct (kinded_hash (clock w) (r w) k Hwk Hk) as [Hl|(h & t & Hl)].
  - exists ∅. unfold r_hgetall, redis, mbind, M_bind, bind. cbn [exec].
    by rewrite Hl.
  - exists h. by apply (r_hgetall_hash _ _ _ t).
Qed.

Lemma positions_hashes (now : Q) (d : gmap string entry) (s m : string)
    (items : list map_item_json) :
  Forall (position_stored now d s m) items ->
  exists hs,
    Forall2 (fun k h => exists t, lookup now d k = Some (Entry (RHash h) t))
      (map (fun it => sensor_properties_key s m (str_of_int (item_HardwareID it)))
           items) hs
    /\ Forall2 (fun k h => h !! "id" = Some k)
         (map (fun it => str_of_int (item_HardwareID it)) items) hs
    /\ Forall2 position_read_back items
         (combine (map (fun it => str_of_int (item_HardwareID it)) items) hs).
Proof.
  induction 1 as [|it items (h & t & Hl & H1 & H2 & H3) _ (hs & IH1 & IH2 & IH3)].
  - exists []. by split_and!; constructor.
  - exists (h :: hs). cbn [map combine]. split_and!; constructor; eauto.
    by split_and!.
Qed.

(** X19. Sensor positions travel from upstream to the caller. For a map whose
    sensor list is not in the cache, on which upstream reports sensors with
    distinct hardware ids, the loop body of [get_survey_sensors] without
    states sends one map request and returns, in upstream order, one entry
    per sensor, keyed by its hardware id and carrying its id and its
    coordinates. *)
Theorem get_map_sensors_reads_positions
    (w : World) (survey_id map_id : string) (items : list map_item_json) :
  no_colon survey_id = true ->
  no_colon map_id = true ->
  well_kinded (r w) ->
  can_authenticate w ->
  llen w (map_sensors_key survey_id map_id) = Integer 0 ->
  map_items (upstream w) map_id = Some items ->
  NoDup (map item_HardwareID items) ->
  exists v w',
    get_map_sensors survey_id false map_id w = (Return v, w')
    /\ Forall2 position_read_back items (sensors v)
    /\ count_requests (GetMap map_id) (sent w')
       = S (count_requests (GetMap map_id) (sent w)).
Proof.
  intros Hs Hm Hwk Hcan Hlen0 Hup Hnd. unfold get_map_sensors.
  rewrite bind_eq, r_llen_eq, Hlen0. cbn [Z.eqb].
  set (w1 := round_trip _ _ w).
  destruct (cache_sensors_for_map_ok w1 survey_id map_id items Hs Hm Hcan Hwk Hup Hnd)
    as (w2 & Hrun & Hclock & Hwk2 & Hlist & Hpos & Hcount & _).
  change (clock w1) with (clock w) in *. change (sent w1) with (sent w) in Hcount.
  rewrite bind_eq, Hrun.
  set (ids := map (fun i => str_of_int (item_HardwareID i)) items) in *.
  rewrite <- Hclock in Hlist, Hpos.
  rewrite bind_eq, r_llen_eq, (list_at_llen _ _ _ Hlist).
  set (w3 := round_trip _ _ w2).
  assert (Hlist3 : list_at (clock w3) (r w3) (map_sensors_key survey_id map_id) ids)
    by exact Hlist.
  rewrite bind_eq, r_lrange_eq, (list_at_lrange _ _ _ _ Hlist3) by lia.
  set (w4 := round_trip _ _ w3).
  destruct (positions_hashes _ _ _ _ _ Hpos) as (hs & Hks & Hidx & Hback).
  fold ids in Hidx, Hback.
  assert (Hkeys :
            map (fun sensor_id =>
                   HGETALL (sensor_properties_key survey_id map_id sensor_id)) ids
            = map HGETALL
                (map (fun it => sensor_properties_key survey_id map_id
                                  (str_of_int (item_HardwareID it))) items)).
  { subst ids. by rewrite !List.map_map. }
  rewrite Hkeys.
  destruct (execute_hgetall w4 _ hs Hks) as (w5 & Hex & Hr5 & Hc5 & Hs5).
  rewrite bind_eq, Hex.
  assert (Hndk : NoDup (map fst (@nil (string * gmap string string)) ++ ids)).
  { cbn [map app]. subst ids.
    rewrite <- (List.map_map item_HardwareID str_of_int).
    apply NoDup_fmap_2; [|done]. intros a b. apply str_of_int_inj. }
  rewrite bind_eq, (collect_positions ids hs [] w5 Hidx Hndk). cbn [app].
  rewrite bind_eq. unfold ret at 1.
  assert (Hwk5 : well_kinded (r w5)) by (by rewrite Hr5).
  destruct (r_hgetall_kinded (survey_map_key survey_id map_id) w5 Hwk5)
    as (md & Hmd); [by apply key_kind_survey_map_key|].
  rewrite bind_eq, Hmd. rewrite bind_eq.
  unfold execute at 1. rewrite bool_decide_eq_true_2 by done.
  eexists _, _. split; [reflexivity|]. cbn [sensors sent round_trip].
  split; [done|]. by rewrite Hs5.
Qed.

Lemma get_map_sensors_reads_positions_witness :
  let w := Scenario.cold Scenario.campus in
  exists v w',
    get_map_sensors "42" false "1" w = (Return v, w')
    /\ Forall2 position_read_back
         [ {| item_HardwareID := 100; X := "1.0"; Y := "2.0" |} ] (sensors v)
    /\ count_requests (GetMap "1") (sent w') = S (count_requests (GetMap "1") (sent w)).
Proof.
  apply (get_map_sensors_reads_positions (Scenario.cold Scenario.campus) "42" "1").
  - reflexivity.
  - reflexivity.
  - apply well_kinded_empty.
  - right. split; [|discriminate]. vm_compute. eauto.
  - vm_compute. reflexivity.
  - reflexivity.
  - apply NoDup_singleton.
Defined.

(** ** Surveys and maps: from upstream to the caller *)

Lemma map_stored_as_frame (now : Q) (d : gmap string entry) (c : command)
    (sid : string) (mp : map_json) :
  key_of c <> survey_map_key sid (str_of_int (MapID mp)) ->
  map_stored_as now d sid mp -> map_stored_as now (exec now d c).1 sid mp.
Proof. intros Hne. unfold map_stored_as. by rewrite lookup_frame. Qed.

Section MapsContent.

Variable now : Q.
Variable sid : string.
Hypothesis Hsid : no_colon sid = true.

Lemma maps_content_step (seen : list map_json) (mp : map_json)
    (d : gmap string entry) :
  well_kinded d ->
  maps_stored_as now d sid seen ->
  ~ In (MapID mp) (map MapID seen) ->
  maps_stored_as now (exec_all now d (maps_commands sid mp)).1 sid (seen ++ [mp]).
Proof.
  intros Hd [Hlist Hall] Hnew. unfold maps_commands.
  rewrite !exec_all_cons, exec_all_nil.
  set (K := survey_map_key sid (str_of_int (MapID mp))).
  set (L := survey_maps_key sid) in *.
  set (f := [("id", _); _; _]).
  assert (HKL : K <> L) by (subst K L; key_ne).
  assert (HK : key_kind K = Some KHash)
    by (apply key_kind_survey_map_key; auto with segments).
  set (d1 := (exec now d (HMSET K f)).1).
  assert (Hnew1 : map_stored_as now d1 sid mp).
  { destruct (lookup_hmset now d K f (kinded_hash now d K Hd HK)) as (h & t & Hl).
    destruct (map_fields_stored mp h) as (H1 & H2 & H3).
    by exists (hash_update f h), t. }
  split.
  - rewrite List.map_app. cbn [map].
    apply list_at_frame; [done|]. apply lookup_rpush. by apply list_at_frame.
  - apply Forall_app. split.
    + rewrite List.Forall_forall in Hall |- *. intros i Hin.
      assert (Hne : MapID i <> MapID mp).
      { intros Heq. apply Hnew. rewrite <- Heq. by apply in_map. }
      assert (Hk : K <> survey_map_key sid (str_of_int (MapID i))).
      { subst K. intros E. split_keys E. injection E as E.
        apply str_of_int_inj in E. congruence. }
      repeat (apply map_stored_as_frame; [cbn [key_of]; try done; subst L; key_ne|]).
      by apply Hall.
    + constructor; [|constructor].
      destruct Hnew1 as (h & t & Hl & H1 & H2 & H3).
      assert (Hl2 : lookup now (exec now d1 (RPUSH L (str_of_int (MapID mp)))).1 K
                    = Some (Entry (RHash h) t)).
      { by rewrite lookup_frame by (cbn [key_of]; congruence). }
      exists h, (Some (now + inject_Z SURVEY_TTL)%Q). split; [|done].
      fold K. by rewrite (lookup_expire _ _ K SURVEY_TTL _ eq_refl Hl2).
Qed.

Lemma maps_content_steps (ms seen : list map_json) (d : gmap string entry) :
  well_kinded d ->
  maps_stored_as now d sid seen ->
  NoDup (map MapID (seen ++ ms)) ->
  maps_stored_as now (exec_all now d (flat_map (maps_commands sid) ms)).1 sid
    (seen ++ ms).
Proof.
  revert seen d. induction ms as [|mp ms IH]; intros seen d Hd Hst Hnd.
  - simpl. by rewrite app_nil_r.
  - cbn [flat_map]. rewrite exec_all_app.
    assert (Hnew : ~ In (MapID mp) (map MapID seen)).
    { rewrite List.map_app in Hnd. apply NoDup_app in Hnd as (_ & Hdisj & _).
      intros Hin. apply (Hdisj (MapID mp)).
      - by apply list_elem_of_In.
      - apply list_elem_of_In. by left. }
    pose proof (maps_content_step seen mp d Hd Hst Hnew) as Hst'.
    pose proof (exec_all_ok now (maps_commands sid mp) d Hd
                  (maps_commands_ok sid Hsid mp)) as [Hd' _].
    assert (Hnd' : NoDup (map MapID ((seen ++ [mp]) ++ ms)))
      by (by rewrite <- app_assoc).
    specialize (IH (seen ++ [mp]) _ Hd' Hst' Hnd').
    by rewrite <- app_assoc in IH.
Qed.

Lemma maps_content_batch (ms : list map_json) (d : gmap string entry) :
  well_kinded d ->
  NoDup (map MapID ms) ->
  maps_stored_as now
    (exec_all now d
       ([DEL (survey_maps_key sid)]
        ++ flat_map (maps_commands sid) ms
        ++ [EXPIRE (survey_maps_key sid) SURVEY_TTL])).1
    sid ms.
Proof.
  intros Hd Hnd. rewrite exec_all_app, (exec_all_app _ (flat_map _ _)).
  rewrite exec_all_cons, exec_all_nil.
  set (d0 := (exec now d (DEL (survey_maps_key sid))).1).
  assert (Hd0 : well_kinded d0).
  { apply (exec_ok now d (DEL (survey_maps_key sid)) Hd). exact I. }
  assert (H0 : maps_stored_as now d0 sid []).
  { split; [apply lookup_del|constructor]. }
  destruct (maps_content_steps ms [] d0 Hd0 H0 Hnd) as [Hlist Hall].
  cbn [app] in Hlist, Hall. rewrite exec_all_cons, exec_all_nil. split.
  - by apply list_at_expire.
  - eapply Forall_impl; [exact Hall|]. intros i Hi.
    apply map_stored_as_frame; [cbn [key_of]; key_ne|done].
Qed.

End MapsContent.

Lemma maps_stored_as_ext (now : Q) (d d' : gmap string entry) (sid : string)
    (ms : list map_json) :
  d' !! survey_maps_key sid = d !! survey_maps_key sid ->
  (forall i, d' !! survey_map_key sid (str_of_int i)
             = d !! survey_map_key sid (str_of_int i)) ->
  maps_stored_as now d sid ms -> maps_stored_as now d' sid ms.
Proof.
  intros HL HK [Hlist Hall]. split.
  - unfold list_at, lookup in *. by rewrite HL.
  - eapply Forall_impl; [exact Hall|]. intros i.
    unfold map_stored_as, lookup. by rewrite HK.
Qed.

Lemma cache_maps_for_survey_content (w w' : World) (sid : string)
    (ms : list map_json) :
  no_colon sid = true ->
  can_authenticate w ->
  well_kinded (r w) ->
  maps (upstream w) sid = Some ms ->
  NoDup (map MapID ms) ->
  _cache_maps_for_survey sid w = (Return tt, w') ->
  maps_stored_as (clock w) (r w') sid ms
  /\ (forall sid' ms', no_colon sid' = true -> sid' <> sid ->
        maps_stored_as (clock w) (r w) sid' ms' ->
        maps_stored_as (clock w) (r w') sid' ms').
Proof.
  intros Hsid Hcan Hwk Hmaps Hnd.
  destruct (get_bearer_token_ok w Hcan) as (b & w1 & Hb & Hclock & Hups & Hfr & Hwk1 & _).
  specialize (Hwk1 Hwk).
  unfold _cache_maps_for_survey.
  rewrite (bind_return _ _ _ _ _ Hb), bind_eq. unfold http.
  rewrite Hups, Hmaps, bind_eq. unfold execute.
  rewrite bool_decide_eq_false_2 by done.
  change (clock (requested (GetMaps sid) w1)) with (clock w1).
  change (r (requested (GetMaps sid) w1)) with (r w1).
  set (pipeline := [DEL (survey_maps_key sid)] ++ _ ++ _).
  pose proof (maps_content_batch (clock w1) sid Hsid ms (r w1) Hwk1 Hnd) as Hst.
  fold pipeline in Hst.
  assert (Hmiss : forall sid' ms', no_colon sid' = true -> sid' <> sid ->
            maps_stored_as (clock w1) (r w) sid' ms' ->
            maps_stored_as (clock w1) (exec_all (clock w1) (r w1) pipeline).1 sid' ms').
  { intros sid' ms' Hsid' Hne. apply maps_stored_as_ext.
    - rewrite exec_all_frame by (apply maps_pipeline_misses; [key_ne|intros i; key_ne]).
      apply Hfr; unfold survey_maps_key; discriminate.
    - intros i.
      rewrite exec_all_frame
        by (apply maps_pipeline_misses; [key_ne|intros j; key_ne]).
      apply Hfr; unfold survey_map_key; discriminate. }
  destruct (exec_all (clock w1) (r w1) pipeline) as [d3 reps].
  cbn [fst snd] in *. destruct (existsb is_error reps); [discriminate|].
  intros [= <-]. cbn [r round_trip]. rewrite <- Hclock. by split.
Qed.

Lemma maps_stored_as_survey_batch (now : Q) (d : gmap string entry)
    (ss : list survey_json) (sid : string) (ms : list map_json) :
  no_colon sid = true ->
  maps_stored_as now d sid ms ->
  maps_stored_as now
    (exec_all now d
       ([DEL surveys_key] ++ flat_map survey_commands ss
        ++ [EXPIRE surveys_key SURVEY_TTL])).1 sid ms.
Proof.
  intros Hsid. apply maps_stored_as_ext.
  - apply exec_all_frame, survey_pipeline_misses; [key_ne|intros i; key_ne].
  - intros i. apply exec_all_frame, survey_pipeline_misses; [key_ne|].
    intros j. key_ne.
Qed.

(** The maps that upstream reports for a survey id, all with distinct ids. *)
Lemma cache_maps_loop_content (ss : list survey_json) (w : World)
    (acc : list command) (stored : list Z) :
  can_authenticate w ->
  well_kinded (r w) ->
  (forall s, In s ss ->
     exists ms, maps (upstream w) (str_of_int (SurveyID s)) = Some ms
                /\ NoDup (map MapID ms)) ->
  (forall id ms, In id stored ->
     maps (upstream w) (str_of_int id) = Some ms ->
     maps_stored_as (clock w) (r w) (str_of_int id) ms) ->
  exists w',
    for_fold cache_survey ss acc w
    = (Return (acc ++ flat_map survey_commands ss), w')
    /\ same_env w w'
    /\ well_kinded (r w')
    /\ (forall id ms, In id (stored ++ map SurveyID ss) ->
          maps (upstream w) (str_of_int id) = Some ms ->
          maps_stored_as (clock w) (r w') (str_of_int id) ms).
Proof.
  revert w acc stored.
  induction ss as [|s ss IH]; intros w acc stored Hcan Hwk Hmaps Hstored.
  - exists w. simpl. rewrite !app_nil_r. by split_and!.
  - destruct (Hmaps s (or_introl eq_refl)) as (ms & Hms & Hnd).
    destruct (cache_maps_for_survey_ok w _ ms (no_colon_str_of_int _) Hcan Hwk Hms)
      as (w1 & Hrun & (Hclock & Hups & Hsent) & Hcan1 & Hwk1 & _).
    destruct (cache_maps_for_survey_content w w1 _ ms (no_colon_str_of_int _)
                Hcan Hwk Hms Hnd Hrun) as [Hnew Hkeep].
    destruct (IH w1 (acc ++ survey_commands s) (stored ++ [SurveyID s]) Hcan1 Hwk1)
      as (w2 & Hloop & (Hclock2 & Hups2 & Hsent2) & Hwk2 & Hst2).
    { intros s' Hs'. rewrite Hups. apply Hmaps. by right. }
    { intros id ms' Hin Hms'. rewrite Hups in Hms'. rewrite Hclock.
      destruct (decide (id = SurveyID s)) as [->|Hne].
      - rewrite Hms in Hms'. by injection Hms' as <-.
      - apply in_app_or in Hin as [Hin|[<-|[]]]; [|done].
        apply Hkeep; auto with segments.
        intros E. by apply str_of_int_inj in E. }
    exists w2. cbn [for_fold flat_map map].
    rewrite bind_eq, cache_survey_eq, Hrun, Hloop.
    rewrite <- !app_assoc. split_and!; try done.
    + split_and!; try congruence. auto.
    + intros id ms' Hin Hms'. rewrite <- Hclock. apply Hst2.
      * rewrite <- app_assoc. exact Hin.
      * by rewrite Hups.
Qed.

Lemma cache_survey_data_content (w : World) (ss : list survey_json) :
  can_authenticate w ->
  well_kinded (r w) ->
  surveys (upstream w) = Some ss ->
  (forall s, In s ss ->
     exists ms, maps (upstream w) (str_of_int (SurveyID s)) = Some ms
                /\ NoDup (map MapID ms)) ->
  exists w',
    _cache_survey_data w = (Return tt, w')
    /\ same_env w w'
    /\ surveys_written (clock w) ss (r w')
    /\ (forall s ms, In s ss ->
          maps (upstream w) (str_of_int (SurveyID s)) = Some ms ->
          maps_stored_as (clock w) (r w') (str_of_int (SurveyID s)) ms).
Proof.
  intros Hcan Hwk Hss Hmaps.
  destruct (get_bearer_token_ok w Hcan) as (b & w1 & Hb & Hframe).
  pose proof (same_env_get_bearer_token w) as Henv. rewrite Hb in Henv.
  simpl in Henv. destruct Henv as (Hclock & Hups & Hsent).
  pose proof Hframe as (_ & _ & Hfr & Hwk1 & Hcan1). specialize (Hwk1 Hwk).
  unfold _cache_survey_data.
  rewrite (bind_return _ _ _ _ _ Hb), bind_eq. unfold http.
  rewrite Hups, Hss, bind_eq.
  destruct (cache_maps_loop_content ss (requested GetSurveys w1) [DEL surveys_key] []
              Hcan1 Hwk1)
    as (w2 & Hloop & (Hclock2 & Hups2 & Hsent2) & Hwk2 & Hst2).
  { intros s Hs. cbn [upstream requested]. rewrite Hups. by apply Hmaps. }
  { intros id ms []. }
  rewrite Hloop, bind_eq. unfold execute.
  rewrite bool_decide_eq_false_2 by (by destruct (flat_map survey_commands ss)).
  rewrite <- app_assoc.
  set (pipeline := [DEL surveys_key] ++ _ ++ _).
  destruct (exec_all_ok (clock w2) pipeline (r w2) Hwk2 (survey_pipeline_ok ss))
    as [Hwk3 Hok].
  pose proof (survey_batch_writes (clock w2) ss (r w2) Hwk2) as Hwritten.
  fold pipeline in Hwritten.
  assert (Hkeep : forall s ms, In s ss ->
            maps (upstream w) (str_of_int (SurveyID s)) = Some ms ->
            maps_stored_as (clock w2) (exec_all (clock w2) (r w2) pipeline).1
              (str_of_int (SurveyID s)) ms).
  { intros s ms Hs Hms. apply maps_stored_as_survey_batch; [auto with segments|].
    cbn [clock requested] in Hclock2, Hst2. rewrite Hclock2.
    apply Hst2; [by apply in_map|]. cbn [upstream requested]. by rewrite Hups. }
  destruct (exec_all (clock w2) (r w2) pipeline) as [d3 reps].
  cbn [fst snd] in *. rewrite Hok. eexists. split; [reflexivity|].
  cbn [fst snd round_trip requested r clock upstream sent] in *.
  rewrite Hclock2, Hclock in *.
  split_and!; try done.
  unfold same_env. cbn [round_trip clock upstream sent].
  split_and!; try congruence. intros q Hq. apply Hsent2, in_or_app. left. auto.
Qed.

Lemma read_map_content (sid : string) (mp : map_json) (w : World) :
  map_stored_as (clock w) (r w) sid mp ->
  exists w',
    read_map sid (str_of_int (MapID mp)) w = (Return (map_view_of mp), w')
    /\ untouched w w'.
Proof.
  intros (h & t & Hl & Hid & Hname & Himg).
  unfold read_map. rewrite bind_eq, (r_hgetall_hash _ _ _ _ Hl).
  rewrite bind_eq, (getitem_found _ _ _ _ Hid).
  rewrite bind_eq, int_str_of_int.
  rewrite bind_eq, (getitem_found _ _ _ _ Hname).
  rewrite bind_eq, (getitem_found _ _ _ _ Himg).
  rewrite bind_eq, int_str_of_int. by eexists.
Qed.

Lemma read_maps_content (sid : string) (ms : list map_json)
    (acc : list map_view) (w : World) :
  Forall (map_stored_as (clock w) (r w) sid) ms ->
  exists w',
    for_fold
      (fun survey_maps survey_map_id =>
         m ← read_map sid survey_map_id; ret (survey_maps ++ [m]))
      (map (fun mp => str_of_int (MapID mp)) ms) acc w
    = (Return (acc ++ map map_view_of ms), w')
    /\ untouched w w'.
Proof.
  revert acc w. induction ms as [|mp ms IH]; intros acc w Hall.
  - exists w. cbn. by rewrite app_nil_r.
  - apply Forall_cons in Hall as [Hmp Hall].
    destruct (read_map_content sid mp w Hmp) as (w1 & Hread & Hr & Hc & Hs).
    destruct (IH (acc ++ [map_view_of mp]) w1) as (w2 & Hloop & Hr2 & Hc2 & Hs2).
    { by rewrite Hr, Hc. }
    exists w2. cbn [map for_fold].
    rewrite bind_eq, bind_eq, Hread. unfold ret at 1. rewrite Hloop.
    rewrite <- app_assoc. split; [done|]. split_and!; congruence.
Qed.

Lemma read_survey_content (s : survey_json) (ms : list map_json) (w : World) :
  survey_stored (clock w) (r w) s ->
  maps_stored_as (clock w) (r w) (str_of_int (SurveyID s)) ms ->
  exists w',
    read_survey (str_of_int (SurveyID s)) w = (Return (survey_view_of s ms), w')
    /\ untouched w w'.
Proof.
  intros (h & t & Hl & Hid & Hname & Hactive & Hstart & Hend) [Hlist Hall].
  unfold read_survey. rewrite bind_eq, (r_hgetall_hash _ _ _ _ Hl).
  rewrite bind_eq, (getitem_found _ _ _ _ Hid).
  rewrite bind_eq, int_str_of_int.
  rewrite bind_eq, (getitem_found _ _ _ _ Hname).
  rewrite bind_eq, (getitem_found _ _ _ _ Hactive).
  rewrite bind_eq, (getitem_found _ _ _ _ Hstart).
  rewrite bind_eq, (getitem_found _ _ _ _ Hend).
  set (w1 := round_trip _ _ w).
  set (ids := map (fun mp => str_of_int (MapID mp)) ms) in *.
  assert (Hlist1 : list_at (clock w1) (r w1)
                     (survey_maps_key (str_of_int (SurveyID s))) ids) by exact Hlist.
  rewrite bind_eq, r_llen_eq, (list_at_llen _ _ _ Hlist1).
  set (w2 := round_trip _ _ w1).
  assert (Hlist2 : list_at (clock w2) (r w2)
                     (survey_maps_key (str_of_int (SurveyID s))) ids) by exact Hlist.
  rewrite bind_eq, r_lrange_eq, (list_at_lrange _ _ _ _ Hlist2) by lia.
  set (w3 := round_trip _ _ w2).
  destruct (read_maps_content (str_of_int (SurveyID s)) ms [] w3 Hall)
    as (w4 & Hloop & Hr & Hc & Hs).
  rewrite bind_eq. fold ids in Hloop. rewrite Hloop. cbn [app].
  unfold survey_view_of. rewrite str2bool_str_of_bool.
  eexists. split; [reflexivity|]. by split_and!.
Qed.

Lemma read_surveys_content (maps_of : survey_json -> list map_json)
    (todo : list survey_json) (acc : list survey_view) (w : World) :
  (forall s, In s todo -> survey_stored (clock w) (r w) s) ->
  (forall s, In s todo ->
     maps_stored_as (clock w) (r w) (str_of_int (SurveyID s)) (maps_of s)) ->
  exists w',
    for_fold
      (fun surveys survey_id =>
         survey ← read_survey survey_id; ret (surveys ++ [survey]))
      (map (fun s => str_of_int (SurveyID s)) todo) acc w
    = (Return (acc ++ map (fun s => survey_view_of s (maps_of s)) todo), w')
    /\ untouched w w'.
Proof.
  revert acc w. induction todo as [|s todo IH]; intros acc w Hsurveys Hmaps.
  - exists w. cbn. by rewrite app_nil_r.
  - destruct (read_survey_content s (maps_of s) w) as (w1 & Hread & Hr & Hc & Hs);
      [apply Hsurveys; by left|apply Hmaps; by left|].
    destruct (IH (acc ++ [survey_view_of s (maps_of s)]) w1)
      as (w2 & Hloop & Hr2 & Hc2 & Hs2).
    { intros x Hx. rewrite Hr, Hc. apply Hsurveys. by right. }
    { intros x Hx. rewrite Hr, Hc. apply Hmaps. by right. }
    exists w2. cbn [map for_fold].
    rewrite bind_eq, bind_eq, Hread. unfold ret at 1. rewrite Hloop.
    rewrite <- app_assoc. split; [done|]. split_and!; congruence.
Qed.

Lemma same_id_same_survey (ss : list survey_json) (a b : survey_json) :
  NoDup (map SurveyID ss) -> In a ss -> In b ss -> SurveyID a = SurveyID b -> a = b.
Proof.
  induction ss as [|x ss IH]; [done|]. cbn [map].
  intros Hnd Ha Hb Heq. apply NoDup_cons in Hnd as [Hx Hnd].
  assert (Hout : forall y, In y ss -> SurveyID y <> SurveyID x).
  { intros y Hy E. apply Hx. rewrite <- E. apply list_elem_of_In. by apply in_map. }
  destruct Ha as [<-|Ha], Hb as [<-|Hb]; try done.
  - exfalso. by apply (Hout b).
  - exfalso. by apply (Hout a).
  - by apply IH.
Qed.

Lemma last_with_id_nodup (ss : list survey_json) (s : survey_json) :
  NoDup (map SurveyID ss) -> In s ss -> last_with_id ss (SurveyID s) = Some s.
Proof.
  intros Hnd Hin. unfold last_with_id.
  destruct (find _ (rev ss)) as [s'|] eqn:Hfind.
  - apply find_some in Hfind as [Hin' Heq]. apply Z.eqb_eq in Heq.
    f_equal. apply (same_id_same_survey ss); try done. by apply in_rev.
  - apply in_rev in Hin. pose proof (find_none _ _ Hfind s Hin) as Hno.
    cbn in Hno. by rewrite Z.eqb_refl in Hno.
Qed.

(** X20. Surveys and maps travel from upstream to the caller. On an empty survey
    list, when upstream lists surveys with distinct ids and, for each of
    them, maps with distinct ids, [get_surveys] returns one record per
    listed survey, in the reverse of the upstream order, with the id, name,
    activity and dates that upstream reported, and with the survey's maps
    in upstream order. *)
Theorem get_surveys_returns_upstream_data
    (w : World) (ss : list survey_json) (maps_of : survey_json -> list map_json) :
  well_kinded (r w) ->
  llen w surveys_key = Integer 0 ->
  can_authenticate w ->
  surveys (upstream w) = Some ss ->
  NoDup (map SurveyID ss) ->
  (forall s, In s ss ->
     maps (upstream w) (str_of_int (SurveyID s)) = Some (maps_of s)
     /\ NoDup (map MapID (maps_of s))) ->
  exists w',
    get_surveys w
    = (Return (map (fun s => survey_view_of s (maps_of s)) (rev ss)), w').
Proof.
  intros Hwk Hlen0 Hcan Hss Hnd Hmaps. unfold get_surveys.
  rewrite bind_eq, r_llen_eq, Hlen0. cbn [Z.eqb].
  set (w1 := round_trip _ _ w).
  destruct (cache_survey_data_content w1 ss Hcan Hwk Hss)
    as (w2 & Hrun & (Hclock & Hups & Hsent) & [Hlist Hstored] & Hmst).
  { intros s Hs. exists (maps_of s). by apply Hmaps. }
  rewrite bind_eq, Hrun.
  change (clock w1) with (clock w) in *. rewrite <- Hclock in Hlist, Hstored, Hmst.
  set (ids := rev (map (fun s => str_of_int (SurveyID s)) ss)) in *.
  rewrite bind_eq, r_llen_eq, (list_at_llen _ _ _ Hlist).
  set (w3 := round_trip _ _ w2).
  assert (Hlist3 : list_at (clock w3) (r w3) surveys_key ids) by exact Hlist.
  rewrite bind_eq, r_lrange_eq, (list_at_lrange _ _ _ _ Hlist3) by lia.
  set (w4 := round_trip _ _ w3).
  subst ids. rewrite <- map_rev.
  destruct (read_surveys_content maps_of (rev ss) [] w4) as (w5 & Hloop & _).
  - intros s Hs. apply in_rev in Hs.
    destruct (Hstored s Hs) as (s' & Hlast & Hs').
    rewrite (last_with_id_nodup ss s Hnd Hs) in Hlast. by injection Hlast as <-.
  - intros s Hs. apply in_rev in Hs. apply (Hmst s (maps_of s) Hs).
    by apply Hmaps.
  - exists w5. by rewrite Hloop.
Qed.

Lemma get_surveys_returns_upstream_data_witness :
  let library := {| SurveyID := 42; Active := true; Name := "Library";
                    StartTime := "2018-01-01"; EndTime := "2019-01-01" |} in
  let science := {| SurveyID := 7; Active := false; Name := "Science";
                    StartTime := "2017-01-01"; EndTime := "2018-01-01" |} in
  let floors := [ {| MapID := 1; MapName := "Floor 1"; ImageID := 10 |};
                  {| MapID := 2; MapName := "Floor 2"; ImageID := 11 |} ] in
  exists w',
    get_surveys (Scenario.cold Scenario.campus)
    = (Return [survey_view_of science []; survey_view_of library floors], w').
Proof.
  apply (get_surveys_returns_upstream_data (Scenario.cold Scenario.campus)
           [ {| SurveyID := 42; Active := true; Name := "Library";
                StartTime := "2018-01-01"; EndTime := "2019-01-01" |};
             {| SurveyID := 7; Active := false; Name := "Science";
                StartTime := "2017-01-01"; EndTime := "2018-01-01" |} ]
           (fun s => if SurveyID s =? 42
                     then [ {| MapID := 1; MapName := "Floor 1"; ImageID := 10 |};
                            {| MapID := 2; MapName := "Floor 2"; ImageID := 11 |} ]
                     else [])).
  - apply well_kinded_empty.
  - vm_compute. reflexivity.
  - right. split; [|discriminate]. vm_compute. eauto.
  - reflexivity.
  - cbn [map SurveyID]. apply NoDup_cons. split; [|apply NoDup_singleton].
    intros Hin. apply list_elem_of_singleton in Hin. discriminate.
  - intros s [<-|[<-|[]]]; (split; [reflexivity|]); cbn.
    + apply NoDup_cons. split; [|apply NoDup_singleton].
      intros Hin. apply list_elem_of_singleton in Hin. discriminate.
    + apply NoDup_nil_2.
Defined.

(** ** Sensor states: from the populator to the reader *)

Lemma split_survey_sensors_key (s : string) :
  no_colon s = true ->
  split (survey_sensors_key s) = ["occupeye"; "surveys"; s; "sensors"].
Proof.
  intros Hs.
  change (survey_sensors_key s) with (join ["occupeye"; "surveys"; s; "sensors"]).
  apply split_join; [done|]. simpl. by rewrite Hs.
Qed.

Lemma split_sensor_data_key (s h : string) :
  no_colon s = true -> no_colon h = true ->
  split (sensor_data_key s h) = ["occupeye"; "surveys"; s; "sensors"; h; "data"].
Proof.
  intros Hs Hh.
  change (sensor_data_key s h)
    with (join ["occupeye"; "surveys"; s; "sensors"; h; "data"]).
  apply split_join; [done|]. simpl. by rewrite Hs, Hh.
Qed.

Lemma split_sensor_status_key (s h : string) :
  no_colon s = true -> no_colon h = true ->
  split (sensor_status_key s h)
  = ["occupeye"; "surveys"; s; "sensors"; h; "status"].
Proof.
  intros Hs Hh.
  change (sensor_status_key s h)
    with (join ["occupeye"; "surveys"; s; "sensors"; h; "status"]).
  apply split_join; [done|]. simpl. by rewrite Hs, Hh.
Qed.

Lemma key_kind_survey_sensors_key (s : string) :
  no_colon s = true -> key_kind (survey_sensors_key s) = Some KList.
Proof. intros Hs. unfold key_kind. by rewrite split_survey_sensors_key. Qed.

Lemma key_kind_sensor_data_key (s h : string) :
  no_colon s = true -> no_colon h = true ->
  key_kind (sensor_data_key s h) = Some KHash.
Proof. intros Hs Hh. unfold key_kind. by rewrite split_sensor_data_key. Qed.

Lemma key_kind_sensor_status_key (s h : string) :
  no_colon s = true -> no_colon h = true ->
  key_kind (sensor_status_key s h) = Some KHash.
Proof. intros Hs Hh. unfold key_kind. by rewrite split_sensor_status_key. Qed.

Lemma status_stored_frame (now : Q) (d : gmap string entry) (c : command)
    (s : string) (st : sensor_json) :
  key_of c <> sensor_status_key s (str_of_int (HardwareID st)) ->
  status_stored now d s st -> status_stored now (exec now d c).1 s st.
Proof. intros Hne. unfold status_stored. by rewrite lookup_frame. Qed.

Section StatesBatch.

Variable now : Q.
Variable s : string.
Hypothesis Hs : no_colon s = true.

Lemma sensor_state_commands_ok (st : sensor_json) :
  Forall cmd_ok (sensor_state_commands s st).
Proof.
  unfold sensor_state_commands. repeat constructor; unfold cmd_ok; simpl.
  - apply key_kind_sensor_data_key; auto with segments.
  - apply key_kind_sensor_status_key; auto with segments.
  - by apply key_kind_survey_sensors_key.
Qed.

Lemma sensor_pipeline_ok (all : list sensor_json) :
  Forall cmd_ok
    ([DEL (survey_sensors_key s)]
     ++ flat_map (sensor_state_commands s) all
     ++ [EXPIRE (survey_sensors_key s) SURVEY_TTL]).
Proof.
  apply Forall_app. split; [by repeat constructor|].
  apply Forall_app. split; [|by repeat constructor].
  apply Forall_flat_map, sensor_state_commands_ok.
Qed.

Lemma status_step (seen : list sensor_json) (st : sensor_json)
    (d : gmap string entry) :
  well_kinded d ->
  Forall (status_stored now d s) seen ->
  ~ In (HardwareID st) (map HardwareID seen) ->
  Forall (status_stored now (exec_all now d (sensor_state_commands s st)).1 s)
    (seen ++ [st]).
Proof.
  intros Hd Hall Hnew. unfold sensor_state_commands.
  rewrite !exec_all_cons, exec_all_nil.
  set (h := str_of_int (HardwareID st)).
  assert (Hh : no_colon h = true) by apply no_colon_str_of_int.
  set (D := sensor_data_key s h).
  set (S := sensor_status_key s h).
  set (L := survey_sensors_key s).
  set (fd := [("hardware_id", _); _]).
  set (fs := [("id", _); _; _]).
  assert (HDS : D <> S) by (by apply sensor_data_status_ne).
  assert (HLS : L <> S) by apply survey_sensors_key_ne_status.
  assert (HS : key_kind S = Some KHash) by (by apply key_kind_sensor_status_key).
  set (d1 := (exec now d (HMSET D fd)).1).
  assert (Hd1 : well_kinded d1).
  { apply (exec_ok now d (HMSET D fd) Hd). unfold cmd_ok. simpl.
    by apply key_kind_sensor_data_key. }
  set (d2 := (exec now d1 (HMSET S fs)).1).
  assert (Hnew2 : exists h0 t,
            lookup now d2 S = Some (Entry (RHash h0) t)
            /\ h0 !! "id" = Some h
            /\ h0 !! "last_trigger_type" = Some (LastTriggerType st)
            /\ h0 !! "last_trigger_timestamp" = Some (LastTriggerTime st)).
  { destruct (lookup_hmset now d1 S fs (kinded_hash now d1 S Hd1 HS)) as (h0 & t & Hl).
    exists (hash_update fs h0), t. split; [exact Hl|].
    unfold hash_update, fs. simpl. split_and!.
    - do 2 rewrite lookup_insert_ne by done. by rewrite lookup_insert_eq.
    - rewrite lookup_insert_ne by done. by rewrite lookup_insert_eq.
    - by rewrite lookup_insert_eq. }
  apply Forall_app. split.
  - rewrite List.Forall_forall in Hall |- *. intros i Hin.
    assert (Hne : HardwareID i <> HardwareID st).
    { intros Heq. apply Hnew. rewrite <- Heq. by apply in_map. }
    set (hi := str_of_int (HardwareID i)).
    assert (Hhi : no_colon hi = true) by apply no_colon_str_of_int.
    assert (H1 : D <> sensor_status_key s hi) by (by apply sensor_data_status_ne).
    assert (H2 : S <> sensor_status_key s hi).
    { intros E. apply sensor_status_key_inj in E; try done.
      apply str_of_int_inj in E. congruence. }
    assert (H3 : L <> sensor_status_key s hi) by apply survey_sensors_key_ne_status.
    repeat (apply status_stored_frame; [cbn [key_of]; done|]). by apply Hall.
  - constructor; [|constructor].
    destruct Hnew2 as (h0 & t & Hl & H1 & H2 & H3).
    assert (Hl4 : lookup now
                    (exec now (exec now d2 (RPUSH L h)).1 (EXPIRE D SURVEY_TTL)).1 S
                  = Some (Entry (RHash h0) t)).
    { by rewrite !lookup_frame by (cbn [key_of]; congruence). }
    exists h0, (Some (now + inject_Z SENSOR_STATUS_TTL)%Q). split; [|done].
    fold h. fold S.
    by rewrite (lookup_expire _ _ S SENSOR_STATUS_TTL _ eq_refl Hl4).
Qed.

Lemma status_steps (all seen : list sensor_json) (d : gmap string entry) :
  well_kinded d ->
  Forall (status_stored now d s) seen ->
  NoDup (map HardwareID (seen ++ all)) ->
  Forall (status_stored now (exec_all now d (flat_map (sensor_state_commands s) all)).1 s)
    (seen ++ all).
Proof.
  revert seen d. induction all as [|st all IH]; intros seen d Hd Hst Hnd.
  - simpl. by rewrite app_nil_r.
  - cbn [flat_map]. rewrite exec_all_app.
    assert (Hnew : ~ In (HardwareID st) (map HardwareID seen)).
    { rewrite List.map_app in Hnd. apply NoDup_app in Hnd as (_ & Hdisj & _).
      intros Hin. apply (Hdisj (HardwareID st)).
      - by apply list_elem_of_In.
      - apply list_elem_of_In. by left. }
    pose proof (status_step seen st d Hd Hst Hnew) as Hst'.
    pose proof (exec_all_ok now (sensor_state_commands s st) d Hd
                  (sensor_state_commands_ok st)) as [Hd' _].
    assert (Hnd' : NoDup (map HardwareID ((seen ++ [st]) ++ all)))
      by (by rewrite <- app_assoc).
    specialize (IH (seen ++ [st]) _ Hd' Hst' Hnd').
    by rewrite <- app_assoc in IH.
Qed.

Lemma status_batch (all : list sensor_json) (d : gmap string entry) :
  well_kinded d ->
  NoDup (map HardwareID all) ->
  Forall
    (status_stored now
       (exec_all now d
          ([DEL (survey_sensors_key s)]
           ++ flat_map (sensor_state_commands s) all
           ++ [EXPIRE (survey_sensors_key s) SURVEY_TTL])).1 s)
    all.
Proof.
  intros Hd Hnd. rewrite exec_all_app, (exec_all_app _ (flat_map _ _)).
  rewrite exec_all_cons, exec_all_nil.
  set (d0 := (exec now d (DEL (survey_sensors_key s))).1).
  assert (Hd0 : well_kinded d0).
  { apply (exec_ok now d (DEL (survey_sensors_key s)) Hd). exact I. }
  pose proof (status_steps all [] d0 Hd0 (List.Forall_nil _) Hnd) as Hall.
  cbn [app] in Hall. rewrite exec_all_cons, exec_all_nil.
  eapply Forall_impl; [exact Hall|]. intros i Hi.
  apply status_stored_frame; [cbn [key_of]|done].
  apply survey_sensors_key_ne_status.
Qed.

End StatesBatch.

Lemma cache_states_ok (w : World) (s : string) (all : list sensor_json) :
  no_colon s = true ->
  can_authenticate w ->
  well_kinded (r w) ->
  survey_sensors_latest (upstream w) s = Some all ->
  NoDup (map HardwareID all) ->
  exists w',
    _cache_all_survey_sensor_states s w = (Return tt, w')
    /\ clock w' = clock w
    /\ well_kinded (r w')
    /\ Forall (status_stored (clock w) (r w') s) all
    /\ count_requests (GetSurveySensorsLatest s) (sent w')
       = S (count_requests (GetSurveySensorsLatest s) (sent w)).
Proof.
  intros Hs Hcan Hwk Hup Hnd.
  destruct (get_bearer_token_ok w Hcan)
    as (b & w1 & Hb & Hclock & Hups & _ & Hwk1 & Hcan1).
  specialize (Hwk1 Hwk).
  pose proof (same_count_get_bearer_token (GetSurveySensorsLatest s) eq_refl w)
    as Hcount.
  rewrite Hb in Hcount. cbn [snd] in Hcount. unfold same_count in Hcount.
  unfold _cache_all_survey_sensor_states.
  rewrite (bind_return _ _ _ _ _ Hb), bind_eq. unfold http.
  rewrite Hups, Hup, bind_eq. unfold execute.
  rewrite bool_decide_eq_false_2 by done.
  change (clock (requested (GetSurveySensorsLatest s) w1)) with (clock w1).
  change (r (requested (GetSurveySensorsLatest s) w1)) with (r w1).
  set (pipeline := [DEL (survey_sensors_key s)] ++ _ ++ _).
  destruct (exec_all_ok (clock w1) pipeline (r w1) Hwk1
              (sensor_pipeline_ok s Hs all)) as [Hwk3 Hok].
  pose proof (status_batch (clock w1) s Hs all (r w1) Hwk1 Hnd) as Hall.
  fold pipeline in Hall.
  destruct (exec_all (clock w1) (r w1) pipeline) as [d3 reps].
  cbn [fst snd] in *. rewrite Hok. eexists. split; [reflexivity|].
  cbn [round_trip requested r clock sent upstream]. rewrite <- Hclock.
  split_and!; try done.
  rewrite count_requests_snoc, Hcount. cbn [request_eqb].
  rewrite String.eqb_refl. lia.
Qed.

(** ** Sensor states: merged into the positions *)

Lemma odict_get_mid (pre post : list (string * gmap string string)) (k : string)
    (v : gmap string string) :
  ~ In k (map fst pre) -> odict_get (pre ++ (k, v) :: post) k = Some v.
Proof.
  induction pre as [|[k' v'] pre IH]; cbn [map fst In app odict_get].
  - intros _. by rewrite String.eqb_refl.
  - intros Hnot. destruct (String.eqb_spec k' k) as [->|Hne].
    + exfalso. apply Hnot. by left.
    + apply IH. intros Hin. apply Hnot. by right.
Qed.

Lemma odict_set_mid (pre post : list (string * gmap string string)) (k : string)
    (v v' : gmap string string) :
  ~ In k (map fst pre) ->
  odict_set (pre ++ (k, v) :: post) k v' = pre ++ (k, v') :: post.
Proof.
  induction pre as [|[k0 v0] pre IH]; cbn [map fst In app odict_set].
  - intros _. by rewrite String.eqb_refl.
  - intros Hnot. destruct (String.eqb_spec k0 k) as [->|Hne].
    + exfalso. apply Hnot. by left.
    + rewrite IH; [done|]. intros Hin. apply Hnot. by right.
Qed.

Lemma odict_setitem_mid (pre post : list (string * gmap string string))
    (k field x : string) (v : gmap string string) (w : World) :
  ~ In k (map fst pre) ->
  odict_setitem (pre ++ (k, v) :: post) k field x w
  = (Return (pre ++ (k, <[field := x]> v) :: post), w).
Proof.
  intros Hnot. unfold odict_setitem.
  by rewrite (odict_get_mid _ _ _ _ Hnot), (odict_set_mid _ _ _ _ _ Hnot).
Qed.

Lemma merge_states (entries : list (string * gmap string string))
    (states : list sensor_json) (sts : list (gmap string string))
    (pre : list (string * gmap string string)) (w : World) :
  Forall2 (fun kv st => kv.1 = str_of_int (HardwareID st)) entries states ->
  Forall2 (fun st h =>
             h !! "id" = Some (str_of_int (HardwareID st))
             /\ h !! "last_trigger_type" = Some (LastTriggerType st)
             /\ h !! "last_trigger_timestamp" = Some (LastTriggerTime st))
    states sts ->
  NoDup (map fst pre ++ map fst entries) ->
  for_fold
    (fun sensors result =>
       result ← as_dict result;
       if bool_decide (result = ∅) then ret sensors
       else
         timestamp ← getitem result "last_trigger_timestamp";
         id ← getitem result "id";
         sensors ← odict_setitem sensors id "last_trigger_timestamp" timestamp;
         type ← getitem result "last_trigger_type";
         id ← getitem result "id";
         odict_setitem sensors id "last_trigger_type" type)
    (map Dict sts) (pre ++ entries) w
  = (Return (pre ++ zip_with (fun kv st => (kv.1, with_state st kv.2))
                             entries states), w).
Proof.
  intros Hes. revert sts pre.
  induction Hes as [|[k f] st entries states Hk _ IH]; intros sts pre Hsts Hnd.
  - inversion Hsts; subst. done.
  - inversion Hsts as [|? h ? sts' (Hid & Hty & Hts) Hsts']; subst.
    cbn [fst] in Hk. subst k.
    set (k := str_of_int (HardwareID st)) in *.
    assert (Hfresh : ~ In k (map fst pre)).
    { apply NoDup_app in Hnd as (_ & Hdisj & _). intros Hin.
      apply (Hdisj k); [by apply list_elem_of_In|]. cbn. by left. }
    assert (Hne : h <> ∅).
    { intros ->. by rewrite lookup_empty in Hid. }
    cbn [map for_fold zip_with fst snd].
    rewrite bind_eq, bind_eq.
    change (as_dict (Dict h) w) with (Return h, w). cbv beta iota.
    rewrite bool_decide_eq_false_2 by done.
    rewrite bind_eq, (getitem_found _ _ _ _ Hts).
    rewrite bind_eq, (getitem_found _ _ _ _ Hid).
    rewrite bind_eq, (odict_setitem_mid _ _ _ _ _ _ _ Hfresh).
    rewrite bind_eq, (getitem_found _ _ _ _ Hty).
    rewrite bind_eq, (getitem_found _ _ _ _ Hid).
    rewrite (odict_setitem_mid _ _ _ _ _ _ _ Hfresh).
    fold (with_state st f).
    replace (pre ++ (k, with_state st f) :: entries)
      with ((pre ++ [(k, with_state st f)]) ++ entries)
      by (by rewrite <- app_assoc).
    rewrite (IH sts' (pre ++ [(k, with_state st f)]) Hsts').
    + by rewrite <- app_assoc.
    + rewrite List.map_app. cbn [map fst]. rewrite <- app_assoc. exact Hnd.
Qed.

Lemma map_sensor_pipeline_misses (s m : string) (items : list map_item_json)
    (k : string) :
  k <> map_sensors_key s m ->
  (forall i, k <> sensor_properties_key s m (str_of_int i)) ->
  Forall (fun c => key_of c <> k)
    ([DEL (map_sensors_key s m)]
     ++ flat_map (map_sensor_commands s m) items
     ++ [EXPIRE (map_sensors_key s m) SENSOR_STATUS_TTL]).
Proof.
  intros HL HK.
  apply Forall_app. split; [by repeat constructor|].
  apply Forall_app. split; [|by repeat constructor].
  apply Forall_flat_map. intros it.
  unfold map_sensor_commands. repeat constructor; cbn [key_of]; try done;
    intros E; by apply (HK (item_HardwareID it)).
Qed.

Lemma keeps_cache_sensors_for_map (k s m : string) :
  k <> "occupeye:access_token" -> k <> "occupeye:access_token_expiry" ->
  k <> map_sensors_key s m ->
  (forall i, k <> sensor_properties_key s m (str_of_int i)) ->
  preserves (keeps k) (_cache_sensors_for_map s m).
Proof.
  intros H1 H2 H3 H4. unfold _cache_sensors_for_map.
  repeat first
    [ apply keeps_get_bearer_token; assumption
    | apply keeps_execute; by apply map_sensor_pipeline_misses
    | apply keeps_http
    | preserves_step
    | (unfold preserves; intros ?; done) ].
Qed.

Lemma keeps_probe_cache_sensors_for_map (s m h : string) :
  no_colon h = true ->
  preserves (keeps (first_sensor_status_key s m h)) (_cache_sensors_for_map s m).
Proof.
  intros Hh. apply keeps_cache_sensors_for_map.
  - unfold first_sensor_status_key. discriminate.
  - unfold first_sensor_status_key. discriminate.
  - intros E. unfold first_sensor_status_key, map_sensors_key in E.
    do 4 apply String.app_inj in E. discriminate.
  - intros i E. unfold first_sensor_status_key, sensor_properties_key in E.
    do 5 apply String.app_inj in E.
    apply (app_colon_inj h (str_of_int i)) in E as [_ E]; [discriminate|done|].
    apply no_colon_str_of_int.
Qed.

Lemma states_hashes (now : Q) (d : gmap string entry) (s : string)
    (states : list sensor_json) :
  Forall (status_stored now d s) states ->
  exists sts,
    Forall2 (fun k h => exists t, lookup now d k = Some (Entry (RHash h) t))
      (map (fun st => sensor_status_key s (str_of_int (HardwareID st))) states) sts
    /\ Forall2 (fun st h =>
                  h !! "id" = Some (str_of_int (HardwareID st))
                  /\ h !! "last_trigger_type" = Some (LastTriggerType st)
                  /\ h !! "last_trigger_timestamp" = Some (LastTriggerTime st))
         states sts.
Proof.
  induction 1 as [|st states (h & t & Hl & H1 & H2 & H3) _ (sts & IH1 & IH2)].
  - exists []. by split; constructor.
  - exists (h :: sts). cbn [map]. split; constructor; eauto.
Qed.

Lemma can_authenticate_ext (w w' : World) :
  access_token w' = access_token w ->
  access_token_expiry w' = access_token_expiry w ->
  clock w' = clock w ->
  upstream w' = upstream w ->
  can_authenticate w -> can_authenticate w'.
Proof.
  intros Ha He Hc Hu. unfold can_authenticate, authenticated.
  by rewrite Ha, He, Hc, Hu.
Qed.

Lemma execute_hgetall_env (w : World) (ks : list string)
    (hs : list (gmap string string)) :
  Forall2 (fun k h => exists t, lookup (clock w) (r w) k = Some (Entry (RHash h) t))
    ks hs ->
  exists w',
    execute (map HGETALL ks) w = (Return (map Dict hs), w')
    /\ untouched w w'
    /\ upstream w' = upstream w
    /\ (can_authenticate w -> can_authenticate w').
Proof.
  intros Hall. unfold execute.
  destruct (decide (map HGETALL ks = [])) as [Hnil|Hne].
  - rewrite bool_decide_eq_true_2 by done. exists w.
    destruct Hall; [done|discriminate].
  - rewrite bool_decide_eq_false_2 by done.
    rewrite (exec_all_hgetall _ _ _ _ Hall), no_error_dicts.
    eexists. split; [reflexivity|]. by split_and!.
Qed.

Lemma lookup_keeps (now : Q) (d d' : gmap string entry) (k : string) :
  d' !! k = d !! k -> lookup now d' k = lookup now d k.
Proof. intros H. unfold lookup. by rewrite H. Qed.

Lemma read_back_keys (items : list map_item_json)
    (entries : list (string * gmap string string)) :
  Forall2 position_read_back items entries ->
  map fst entries = map (fun i => str_of_int (item_HardwareID i)) items.
Proof.
  induction 1 as [|it kv items entries (Hk & _) _ IH]; [done|].
  cbn [map]. by rewrite Hk, IH.
Qed.

Lemma read_back_states (items : list map_item_json)
    (entries : list (string * gmap string string))
    (state_of : map_item_json -> sensor_json) :
  Forall2 position_read_back items entries ->
  (forall it, In it items -> HardwareID (state_of it) = item_HardwareID it) ->
  Forall2 (fun kv st => kv.1 = str_of_int (HardwareID st)) entries
    (map state_of items).
Proof.
  induction 1 as [|it kv items entries (Hk & _) _ IH]; intros Hof; [constructor|].
  cbn [map]. constructor.
  - rewrite Hk, Hof; [done|by left].
  - apply IH. intros it' Hin. apply Hof. by right.
Qed.

Lemma merged_read_back (items : list map_item_json)
    (entries : list (string * gmap string string))
    (state_of : map_item_json -> sensor_json) :
  Forall2 position_read_back items entries ->
  Forall2 (fun it kv => state_read_back (state_of it) it kv) items
    (zip_with (fun kv st => (kv.1, with_state st kv.2)) entries
       (map state_of items)).
Proof.
  induction 1 as [|it kv items entries (Hk & Hid & Hx & Hy) _ IH];
    [constructor|].
  cbn [map zip_with]. constructor; [|exact IH].
  unfold state_read_back, position_read_back, with_state. cbn [fst snd].
  split_and!; try done.
  - by rewrite !lookup_insert_ne.
  - by rewrite !lookup_insert_ne.
  - by rewrite !lookup_insert_ne.
  - by rewrite lookup_insert.
  - rewrite lookup_insert_ne by done. by rewrite lookup_insert.
Qed.

(** X21. Sensor states travel from upstream to the caller. For a map whose
    sensor list is not in the cache and whose first sensor has nothing
    under the probe key, when every sensor of the map is in the latest
    states that upstream reports, the loop body of [get_survey_sensors]
    with states sends one map request and one states request, and returns,
    in upstream order, one entry per sensor with its id, its coordinates,
    and the type and time of its last trigger. *)
Theorem get_map_sensors_reads_states
    (w : World) (survey_id map_id : string)
    (it0 : map_item_json) (rest : list map_item_json)
    (all : list sensor_json) (state_of : map_item_json -> sensor_json) :
  no_colon survey_id = true ->
  no_colon map_id = true ->
  well_kinded (r w) ->
  can_authenticate w ->
  llen w (map_sensors_key survey_id map_id) = Integer 0 ->
  lookup (clock w) (r w)
    (first_sensor_status_key survey_id map_id (str_of_int (item_HardwareID it0)))
  = None ->
  map_items (upstream w) map_id = Some (it0 :: rest) ->
  NoDup (map item_HardwareID (it0 :: rest)) ->
  survey_sensors_latest (upstream w) survey_id = Some all ->
  NoDup (map HardwareID all) ->
  (forall it, In it (it0 :: rest) ->
     In (state_of it) all /\ HardwareID (state_of it) = item_HardwareID it) ->
  exists v w',
    get_map_sensors survey_id true map_id w = (Return v, w')
    /\ Forall2 (fun it kv => state_read_back (state_of it) it kv)
         (it0 :: rest) (sensors v)
    /\ count_requests (GetMap map_id) (sent w')
       = S (count_requests (GetMap map_id) (sent w))
    /\ count_requests (GetSurveySensorsLatest survey_id) (sent w')
       = S (count_requests (GetSurveySensorsLatest survey_id) (sent w)).
Proof.
  intros Hs Hm Hwk Hcan Hlen0 Hprobe Hup Hnd Hlatest Hnda Hof.
  set (items := it0 :: rest) in *.
  unfold get_map_sensors.
  rewrite bind_eq, r_llen_eq, Hlen0. cbn [Z.eqb].
  set (w1 := round_trip _ _ w).
  destruct (cache_sensors_for_map_ok w1 survey_id map_id items Hs Hm Hcan Hwk Hup Hnd)
    as (w2 & Hrun & Hclock & Hwk2 & Hlist & Hpos & Hcount & Hcan2 & Hups2).
  pose proof (keeps_probe_cache_sensors_for_map survey_id map_id
                (str_of_int (item_HardwareID it0))
                (no_colon_str_of_int _) w1) as Hkeep.
  assert (Hsame : same_count (GetSurveySensorsLatest survey_id) w1 w2).
  { assert (Hp : preserves (same_count (GetSurveySensorsLatest survey_id))
                   (_cache_sensors_for_map survey_id map_id)).
    { unfold _cache_sensors_for_map.
      repeat first [ apply same_count_get_bearer_token; reflexivity
                   | same_count_step ]. }
    specialize (Hp w1). by rewrite Hrun in Hp. }
  rewrite Hrun in Hkeep. cbn [snd] in Hkeep. unfold keeps in Hkeep.
  change (clock w1) with (clock w) in *. change (sent w1) with (sent w) in *.
  change (r w1) with (r w) in *. change (upstream w1) with (upstream w) in *.
  rewrite bind_eq, Hrun.
  set (ids := map (fun i => str_of_int (item_HardwareID i)) items) in *.
  rewrite <- Hclock in Hlist, Hpos.
  rewrite bind_eq, r_llen_eq, (list_at_llen _ _ _ Hlist).
  set (w3 := round_trip _ _ w2).
  assert (Hlist3 : list_at (clock w3) (r w3) (map_sensors_key survey_id map_id) ids)
    by exact Hlist.
  rewrite bind_eq, r_lrange_eq, (list_at_lrange _ _ _ _ Hlist3) by lia.
  set (w4 := round_trip _ _ w3).
  destruct (positions_hashes _ _ _ _ _ Hpos) as (hs & Hks & Hidx & Hback).
  fold ids in Hidx, Hback.
  assert (Hkeys :
            map (fun sensor_id =>
                   HGETALL (sensor_properties_key survey_id map_id sensor_id)) ids
            = map HGETALL
                (map (fun it => sensor_properties_key survey_id map_id
                                  (str_of_int (item_HardwareID it))) items)).
  { subst ids. by rewrite !List.map_map. }
  rewrite Hkeys.
  destruct (execute_hgetall_env w4 _ hs Hks)
    as (w5 & Hex & (Hr5 & Hc5 & Hs5) & Hu5 & Hcan5).
  rewrite bind_eq, Hex.
  assert (Hndids : NoDup ids).
  { subst ids. rewrite <- (List.map_map item_HardwareID str_of_int).
    apply NoDup_fmap_2; [|done]. intros a b. apply str_of_int_inj. }
  rewrite bind_eq, (collect_positions ids hs [] w5 Hidx) by done. cbn [app].
  set (first := str_of_int (item_HardwareID it0)) in *.
  change ids with (first :: map (fun i => str_of_int (item_HardwareID i)) rest) at 1.
  cbv beta iota.
  assert (Hcan4 : can_authenticate w4).
  { by apply (can_authenticate_ext w2). }
  assert (Hprobe5 : lookup (clock w5) (r w5)
                      (first_sensor_status_key survey_id map_id first) = None).
  { rewrite Hc5, Hr5. change (clock w4) with (clock w2).
    change (r w4) with (r w2). rewrite Hclock.
    by rewrite (lookup_keeps _ _ _ _ Hkeep). }
  rewrite bind_eq, bind_eq, (r_get_absent _ _ Hprobe5).
  cbn [truthy_opt negb].
  set (w6 := round_trip _ _ w5).
  assert (Hcan6 : can_authenticate w6).
  { apply (can_authenticate_ext w5); try done. by apply Hcan5. }
  assert (Hwk6 : well_kinded (r w6)).
  { change (r w6) with (r w5). by rewrite Hr5. }
  assert (Hlatest6 : survey_sensors_latest (upstream w6) survey_id = Some all).
  { change (upstream w6) with (upstream w5). rewrite Hu5.
    change (upstream w4) with (upstream w2). by rewrite Hups2. }
  destruct (cache_states_ok w6 survey_id all Hs Hcan6 Hwk6 Hlatest6 Hnda)
    as (w7 & Hrun7 & Hclock7 & Hwk7 & Hall7 & Hcount7).
  assert (Hsame7 : same_count (GetMap map_id) w6 w7).
  { assert (Hp : preserves (same_count (GetMap map_id))
                   (_cache_all_survey_sensor_states survey_id)).
    { unfold _cache_all_survey_sensor_states.
      repeat first [ apply same_count_get_bearer_token; reflexivity
                   | same_count_step ]. }
    specialize (Hp w6). by rewrite Hrun7 in Hp. }
  rewrite bind_eq, Hrun7.
  rewrite <- Hclock7 in Hall7.
  assert (Hstored : Forall (status_stored (clock w7) (r w7) survey_id)
                      (map state_of items)).
  { apply List.Forall_forall. intros st Hin.
    apply List.in_map_iff in Hin as (it & <- & Hin).
    apply (proj1 (List.Forall_forall _ _) Hall7). by apply Hof. }
  destruct (states_hashes _ _ _ _ Hstored) as (sts & Hks7 & Hst).
  assert (Hkeys7 :
            map (fun sensor_id => HGETALL (sensor_status_key survey_id sensor_id)) ids
            = map HGETALL
                (map (fun st => sensor_status_key survey_id
                                  (str_of_int (HardwareID st)))
                     (map state_of items))).
  { subst ids. rewrite !List.map_map. apply List.map_ext_in. intros it Hin.
    by rewrite (proj2 (Hof it Hin)). }
  rewrite Hkeys7.
  destruct (execute_hgetall_env w7 _ sts Hks7)
    as (w8 & Hex8 & (Hr8 & Hc8 & Hs8) & Hu8 & _).
  rewrite bind_eq, Hex8.
  pose proof (read_back_keys _ _ Hback) as Hfst.
  assert (Hof' : forall it, In it items ->
                   HardwareID (state_of it) = item_HardwareID it).
  { intros it Hin. by apply Hof. }
  assert (Hndk : NoDup (map fst (@nil (string * gmap string string))
                        ++ map fst (combine ids hs))).
  { cbn [map app]. by rewrite Hfst. }
  pose proof (merge_states (combine ids hs) (map state_of items) sts [] w8
                (read_back_states _ _ state_of Hback Hof') Hst Hndk) as Hmerge.
  cbn [app] in Hmerge. rewrite Hmerge.
  assert (Hwk8 : well_kinded (r w8)) by (by rewrite Hr8).
  destruct (r_hgetall_kinded (survey_map_key survey_id map_id) w8 Hwk8)
    as (md & Hmd); [by apply key_kind_survey_map_key|].
  rewrite bind_eq, Hmd. rewrite bind_eq.
  unfold execute at 1. rewrite bool_decide_eq_true_2 by done.
  eexists _, _. split; [reflexivity|]. cbn [sensors sent round_trip].
  split; [by apply merged_read_back|].
  unfold same_count in Hsame, Hsame7. rewrite Hs8. split.
  - rewrite Hsame7. change (sent w6) with (sent w5). rewrite Hs5.
    exact Hcount.
  - rewrite Hcount7. change (sent w6) with (sent w5). rewrite Hs5.
    change (sent w4) with (sent w2). by rewrite Hsame.
Qed.

Lemma get_map_sensors_reads_states_witness :
  let w := Scenario.cold Scenario.campus in
  let desk := {| item_HardwareID := 100; X := "1.0"; Y := "2.0" |} in
  let state := {| HardwareID := 100; SensorID := 5;
                  LastTriggerType := "Occupied"; LastTriggerTime := "t1" |} in
  exists v w',
    get_map_sensors "42" true "1" w = (Return v, w')
    /\ Forall2 (fun it kv => state_read_back state it kv) [desk] (sensors v)
    /\ count_requests (GetMap "1") (sent w')
       = S (count_requests (GetMap "1") (sent w))
    /\ count_requests (GetSurveySensorsLatest "42") (sent w')
       = S (count_requests (GetSurveySensorsLatest "42") (sent w)).
Proof.
  apply (get_map_sensors_reads_states (Scenario.cold Scenario.campus) "42" "1"
           {| item_HardwareID := 100; X := "1.0"; Y := "2.0" |} []
           [ {| HardwareID := 100; SensorID := 5;
                LastTriggerType := "Occupied"; LastTriggerTime := "t1" |};
             {| HardwareID := 200; SensorID := 6;
                LastTriggerType := "Absent"; LastTriggerTime := "t2" |} ]
           (fun _ => {| HardwareID := 100; SensorID := 5;
                        LastTriggerType := "Occupied"; LastTriggerTime := "t1" |})).
  - reflexivity.
  - reflexivity.
  - apply well_kinded_empty.
  - right. split; [|discriminate]. vm_compute. eauto.
  - vm_compute. reflexivity.
  - vm_compute. reflexivity.
  - reflexivity.
  - apply NoDup_singleton.
  - reflexivity.
  - cbn [map HardwareID]. apply NoDup_cons. split; [|apply NoDup_singleton].
    intros Hin. apply list_elem_of_singleton in Hin. discriminate.
  - intros it [<-|[]]. split; [by left|reflexivity].
Defined.
